(** * Ninghai mahjong server: the tile model, the round engine and the
      game controller, embedded from [server/src/models/Card.js],
      [server/src/models/Game.js] and
      [server/src/controllers/gameController.js].

    JavaScript objects are records, arrays are lists (index 0 first, [push]
    appends at the end, [pop] removes the end), exceptions are results of a
    small state-and-exception monad in which a throw keeps the state reached
    so far, as a mutated JavaScript object does. *)

From Stdlib Require Import String Ascii List ZArith Lia DecimalString Permutation.
From stdpp Require Import base list strings.
Import ListNotations.

Local Open Scope string_scope.
Local Open Scope list_scope.
Local Open Scope nat_scope.

(* ===================================================================== *)
(** ** The JavaScript values the engine uses *)
(* ===================================================================== *)

Module JS.

(** A Number as the engine meets it: NaN, an infinity, or a double whose
    value is the integer [z] (the loops of the deck give small integers,
    [parseInt] gives any of the three). Minus zero is [Int 0]: it prints,
    compares and adds as zero does. *)
Inductive number : Type :=
| NaN
| Int (z : Z)
| Inf (negative : bool).

(** Below [2^53] every integer is a double. *)
Definition MAX_SAFE : Z := 2 ^ 53.

(** The Number for a mathematical integer [m >= 0]: the nearest double,
    ties to the even significand, Infinity from [2^1024 - 2^970] on. *)
Definition roundNat (m : Z) : number :=
  if (m <? MAX_SAFE)%Z then Int m
  else
    let e := (Z.log2 m - 52)%Z in
    let q := Z.shiftr m e in
    let r := (m - Z.shiftl q e)%Z in
    let half := Z.shiftl 1 (e - 1) in
    let q' := if (r <? half)%Z then q
              else if (half <? r)%Z then (q + 1)%Z
              else if Z.even q then q else (q + 1)%Z in
    let v := Z.shiftl q' e in
    if (2 ^ 1024 <=? v)%Z then Inf false else Int v.

Definition negate (n : number) : number :=
  match n with
  | NaN => NaN
  | Int z => Int (- z)
  | Inf s => Inf (negb s)
  end.

Definition ofZ (z : Z) : number :=
  if (z <? 0)%Z then negate (roundNat (- z)) else roundNat z.

(** [n + 1] in doubles. *)
Definition add1 (n : number) : number :=
  match n with
  | Int z => ofZ (z + 1)
  | _ => n
  end.

(** [a === b] on numbers: NaN is different from everything. *)
Definition strict_eq (a b : number) : bool :=
  match a, b with
  | Int x, Int y => Z.eqb x y
  | Inf s, Inf t => Bool.eqb s t
  | _, _ => false
  end.

(** [a - b <= 0] for numbers that are not NaN. *)
Definition leb (a b : number) : bool :=
  match a, b with
  | Int x, Int y => (x <=? y)%Z
  | Inf true, _ => true
  | _, Inf false => true
  | _, _ => false
  end.

Definition digitsOf (z : Z) : string := NilZero.string_of_int (Z.to_int z).

Definition numDigits (x : Z) : Z := Z.of_nat (String.length (digitsOf x)).

(** [Number::toString] looks for the fewest digits [s] and an exponent
    [e] such that [s * 10^e] is read back as the double [x]. These are the
    candidates with [k] digits, each with its distance from [x]; [D] is
    the number of digits of [x]. *)
Definition candidates (x k D : Z) : list (Z * Z * Z) :=
  flat_map
    (fun e =>
       if (e <? 0)%Z then []
       else
         flat_map
           (fun s =>
              if (10 ^ (k - 1) <=? s)%Z && (s <? 10 ^ k)%Z
                 && strict_eq (roundNat (s * 10 ^ e)) (Int x)
              then [(s, e, Z.abs (s * 10 ^ e - x))]
              else [])
           [(x / 10 ^ e)%Z; (x / 10 ^ e + 1)%Z])
    [(D - k)%Z; (D - k + 1)%Z].

(** Of two candidates the one nearer to [x], the even one when both are
    as near. *)
Definition closer (a b : Z * Z * Z) : Z * Z * Z :=
  let '(s1, _, d1) := a in
  let '(s2, _, d2) := b in
  if (d1 <? d2)%Z then a
  else if (d2 <? d1)%Z then b
  else if Z.even s1 then a else b.

Fixpoint shortest (fuel : nat) (x k D : Z) : option (Z * Z) :=
  match fuel with
  | O => None
  | S fuel' =>
      match candidates x k D with
      | c :: cs => let '(s, e, _) := fold_left closer cs c in Some (s, e)
      | [] => shortest fuel' x (k + 1) D
      end
  end.

Fixpoint zeros (n : nat) : string :=
  match n with
  | O => EmptyString
  | S n' => String "0" (zeros n')
  end.

(** The string of a double [x >= 2^53]: at most 17 digits, followed by
    zeros up to 21 places and written with an exponent beyond. *)
Definition bigToString (x : Z) : string :=
  let D := numDigits x in
  match shortest 17 x 1 D with
  | None => digitsOf x
  | Some (s, e) =>
      let k := numDigits s in
      let n := (k + e)%Z in
      if (n <=? 21)%Z then digitsOf s +:+ zeros (Z.to_nat e)
      else
        match digitsOf s with
        | String d rest =>
            String d (if (k =? 1)%Z then EmptyString else "." +:+ rest)
            +:+ "e+" +:+ digitsOf (n - 1)
        | EmptyString => EmptyString
        end
  end.

(** The string a template literal inserts for a number. *)
Definition toString (n : number) : string :=
  match n with
  | NaN => "NaN"
  | Inf false => "Infinity"
  | Inf true => "-Infinity"
  | Int z =>
      if (Z.abs z <? MAX_SAFE)%Z then digitsOf z
      else if (z <? 0)%Z then "-" +:+ bigToString (- z) else bigToString z
  end.

(** [s.split(sep)] for a one-character separator. *)
Fixpoint split (sep : ascii) (s : string) : list string :=
  match s with
  | EmptyString => [EmptyString]
  | String c r =>
      if Ascii.eqb c sep then EmptyString :: split sep r
      else match split sep r with
           | [] => [String c EmptyString]
           | p :: ps => String c p :: ps
           end
  end.

Definition isWhiteSpace (c : ascii) : bool :=
  let n := nat_of_ascii c in
  (n =? 9) || (n =? 10) || (n =? 11) || (n =? 12) || (n =? 13) || (n =? 32).

Fixpoint trimStart (s : string) : string :=
  match s with
  | String c r => if isWhiteSpace c then trimStart r else s
  | EmptyString => s
  end.

Definition digitValue (c : ascii) : option Z :=
  let n := nat_of_ascii c in
  if (48 <=? n) && (n <=? 57) then Some (Z.of_nat (n - 48))
  else if (97 <=? n) && (n <=? 122) then Some (Z.of_nat (n - 87))
  else if (65 <=? n) && (n <=? 90) then Some (Z.of_nat (n - 55))
  else None.

(** The longest prefix of digits of the radix, read as a number; [acc] is
    [None] until a first digit has been read. *)
Fixpoint digits (radix : Z) (s : string) (acc : option Z) : option Z :=
  match s with
  | String c r =>
      match digitValue c with
      | Some d =>
          if (d <? radix)%Z
          then digits radix r (Some (radix * default 0%Z acc + d)%Z)
          else acc
      | None => acc
      end
  | EmptyString => acc
  end.

(** [parseInt(s)] without a radix argument: leading white space, a sign,
    a [0x] prefix, then digits; NaN when no digit follows. The digits are
    read as the integer they write and that integer is rounded once to a
    double, as the engine of Node does. *)
Definition parseInt (s : string) : number :=
  let s1 := trimStart s in
  let '(neg, s2) :=
    match s1 with
    | String "-" r => (true, r)
    | String "+" r => (false, r)
    | _ => (false, s1)
    end in
  let '(radix, s3) :=
    match s2 with
    | String "0" (String "x" r) => (16%Z, r)
    | String "0" (String "X" r) => (16%Z, r)
    | _ => (10%Z, s2)
    end in
  match digits radix s3 None with
  | Some v => if neg then negate (roundNat v) else roundNat v
  | None => NaN
  end.

(** [a.indexOf(x)] on an array of strings: the first index, if any. *)
Fixpoint indexOf (l : list string) (x : string) : option nat :=
  match l with
  | [] => None
  | y :: r => if String.eqb y x then Some 0 else option_map S (indexOf r x)
  end.

(** [a.pop()]: the last element (undefined on an empty array) and the
    array that is left. *)
Definition pop {A : Type} (l : list A) : option A * list A :=
  (last l, removelast l).

(** [a.sort((x, y) => x - y)] on numbers that are not NaN, by
    insertion; two infinities of one sign compare as equal. *)
Fixpoint insertNumber (x : number) (l : list number) : list number :=
  match l with
  | [] => [x]
  | y :: r => if leb x y then x :: l else y :: insertNumber x r
  end.

Definition sortNumbers (l : list number) : list number := fold_right insertNumber [] l.

Definition isNaN (n : number) : bool :=
  match n with
  | NaN => true
  | _ => false
  end.

(** NaN, or an integer below [2^53] in absolute value: the numbers on
    which [+ 1] is exact. *)
Definition isSafe (n : number) : bool :=
  match n with
  | NaN => true
  | Int z => (Z.abs z <? MAX_SAFE)%Z
  | Inf _ => false
  end.

End JS.

(* ===================================================================== *)
(** ** Card.js *)
(* ===================================================================== *)

Module CARD_TYPES.
Definition WAN : string := "wan".
Definition TONG : string := "tong".
Definition SUO : string := "suo".
Definition ZI : string := "zi".
Definition HUA : string := "hua".
End CARD_TYPES.

Module Card.

(** [new Card(type, value)]. The [id] field is set once by the
    constructor to [generateId()] and never assigned again, so it is the
    function [id] below. *)
Record t : Type := new { type : string; value : JS.number }.

Definition generateId (c : t) : string :=
  type c +:+ "_" +:+ JS.toString (value c).

Definition id (c : t) : string := generateId c.

Definition isFlower (c : t) : bool := String.eqb (type c) CARD_TYPES.HUA.

Definition isHonor (c : t) : bool := String.eqb (type c) CARD_TYPES.ZI.

Definition isNumber (c : t) : bool :=
  existsb (String.eqb (type c)) [CARD_TYPES.WAN; CARD_TYPES.TONG; CARD_TYPES.SUO].

Definition equals (c other : t) : bool :=
  String.eqb (type c) (type other) && JS.strict_eq (value c) (value other).

(** The three values sorted ascending. A NaN among them makes both
    comparisons of [canFormSequence] false wherever the sort leaves it, so
    only the case without NaN needs the sorted array. *)
Definition sortedValues (a b c : JS.number) : option (list JS.number) :=
  if JS.isNaN a || JS.isNaN b || JS.isNaN c then None
  else Some (JS.sortNumbers [a; b; c]).

Definition canFormSequence (c card2 card3 : t) : bool :=
  if negb (isNumber c) || negb (isNumber card2) || negb (isNumber card3) then false
  else if negb (String.eqb (type c) (type card2)) || negb (String.eqb (type c) (type card3))
  then false
  else match sortedValues (value c) (value card2) (value card3) with
       | Some [v0; v1; v2] =>
           JS.strict_eq v1 (JS.add1 v0) && JS.strict_eq v2 (JS.add1 v1)
       | _ => false
       end.

Definition typeNames (ty : string) : option string :=
  if String.eqb ty CARD_TYPES.WAN then Some "万"
  else if String.eqb ty CARD_TYPES.TONG then Some "筒"
  else if String.eqb ty CARD_TYPES.SUO then Some "索"
  else if String.eqb ty CARD_TYPES.ZI then Some EmptyString
  else if String.eqb ty CARD_TYPES.HUA then Some EmptyString
  else None.

(** [ziNames[value] || ''] and [huaNames[value] || '']. *)
Definition ziNames (v : JS.number) : string :=
  match v with
  | JS.Int 1 => "东" | JS.Int 2 => "南" | JS.Int 3 => "西" | JS.Int 4 => "北"
  | JS.Int 5 => "中" | JS.Int 6 => "发" | JS.Int 7 => "白" | _ => EmptyString
  end.

Definition huaNames (v : JS.number) : string :=
  match v with
  | JS.Int 1 => "梅" | JS.Int 2 => "兰" | JS.Int 3 => "菊" | JS.Int 4 => "竹"
  | JS.Int 5 => "春" | JS.Int 6 => "夏" | JS.Int 7 => "秋" | JS.Int 8 => "冬"
  | _ => EmptyString
  end.

Definition getDisplayName (c : t) : string :=
  if String.eqb (type c) CARD_TYPES.ZI then ziNames (value c)
  else if String.eqb (type c) CARD_TYPES.HUA then huaNames (value c)
  else JS.toString (value c) +:+ default "undefined" (typeNames (type c)).

(** The object [toJSON] returns. *)
Record json : Type := mkJson {
  json_id : string;
  json_type : string;
  json_value : JS.number;
  json_displayName : string
}.

Definition toJSON (c : t) : json :=
  {| json_id := id c; json_type := type c; json_value := value c;
     json_displayName := getDisplayName c |}.

Definition fromJSON (j : json) : t := new (json_type j) (json_value j).

Definition isTerminal (c : t) : bool :=
  if negb (isNumber c) then false
  else JS.strict_eq (value c) (JS.Int 1) || JS.strict_eq (value c) (JS.Int 9).

Definition isTerminalOrHonor (c : t) : bool := isTerminal c || isHonor c.

(** [HUA_FENG_MAP[value]]: the wind of a flower value. *)
Definition HUA_FENG_MAP (v : JS.number) : option string :=
  match v with
  | JS.Int 1 => Some "dong" | JS.Int 5 => Some "dong"
  | JS.Int 2 => Some "nan" | JS.Int 6 => Some "nan"
  | JS.Int 3 => Some "xi" | JS.Int 7 => Some "xi"
  | JS.Int 4 => Some "bei" | JS.Int 8 => Some "bei"
  | _ => None
  end.

(** [getFlowerFeng]; [None] is the [null] it returns. *)
Definition getFlowerFeng (c : t) : option string :=
  if negb (isFlower c) then None else HUA_FENG_MAP (value c).

End Card.

Module CardDeck.

(** The [cards] array of a deck; the end of the list is the top. *)
Abbreviation t := (list Card.t).

Definition copies (ty : string) (v : nat) : list Card.t :=
  repeat (Card.new ty (JS.Int (Z.of_nat v))) 4.

(** [initializeDeck]: three suits of 1..9 four times each, seven honors
    four times each, eight flowers once each. *)
Definition initializeDeck : t :=
  flat_map (fun ty => flat_map (copies ty) (seq 1 9))
           [CARD_TYPES.WAN; CARD_TYPES.TONG; CARD_TYPES.SUO]
  ++ flat_map (copies CARD_TYPES.ZI) (seq 1 7)
  ++ map (fun v => Card.new CARD_TYPES.HUA (JS.Int (Z.of_nat v))) (seq 1 8).

(** [[a[i], a[j]] = [a[j], a[i]]] with both indices inside the array. *)
Definition swap (cards : t) (i j : nat) : t :=
  match cards !! i, cards !! j with
  | Some ci, Some cj => <[j := ci]> (<[i := cj]> cards)
  | _, _ => cards
  end.

(** [shuffle]: the loop runs [i] from [length - 1] down to 1. The oracle
    [rnd] stands for [Math.random]; [Math.floor(Math.random() * (i + 1))]
    is some index in [0..i], here [rnd i] reduced into that range. *)
Fixpoint shuffle_from (rnd : nat -> nat) (i : nat) (cards : t) : t :=
  match i with
  | 0 => cards
  | S i' => shuffle_from rnd i' (swap cards i (rnd i mod (i + 1)))
  end.

Definition shuffle (rnd : nat -> nat) (cards : t) : t :=
  shuffle_from rnd (length cards - 1) cards.

Definition drawCard (cards : t) : option Card.t * t := JS.pop cards.

(** [drawCards(count)]: the loop stops at [count] or when the deck is
    empty; [drawn] is the array built so far. *)
Fixpoint drawCards_loop (count : nat) (cards : t) (drawn : list Card.t)
  : list Card.t * t :=
  match count with
  | 0 => (drawn, cards)
  | S n =>
      match drawCard cards with
      | (Some c, rest) => drawCards_loop n rest (drawn ++ [c])
      | (None, _) => (drawn, cards)
      end
  end.

Definition drawCards (count : nat) (cards : t) : list Card.t * t :=
  drawCards_loop count cards [].

Definition getRemainingCount (cards : t) : nat := length cards.

Definition hasCards (cards : t) : bool := 0 <? length cards.

End CardDeck.

(* ===================================================================== *)
(** ** Game.js: the data of a game *)
(* ===================================================================== *)

Module GAME_STATES.
Inductive t : Type := WAITING | STARTING | DEALING | PLAYING | FINISHED | PAUSED.

Definition eqb (a b : t) : bool :=
  match a, b with
  | WAITING, WAITING | STARTING, STARTING | DEALING, DEALING
  | PLAYING, PLAYING | FINISHED, FINISHED | PAUSED, PAUSED => true
  | _, _ => false
  end.
End GAME_STATES.

Module PLAYER_ACTIONS.
Inductive t : Type := DISCARD | CHI | PENG | GANG | HU | PASS.
End PLAYER_ACTIONS.

Module FENG_POSITIONS.
Definition DONG : string := "dong".
Definition NAN : string := "nan".
Definition XI : string := "xi".
Definition BEI : string := "bei".
End FENG_POSITIONS.

Module GAME_MODES.
Definition YAO_BAN_SAN : string := "yao_ban_san".
End GAME_MODES.

(** A chi, peng or gang group of [exposedCards] as the engine reads it
    ([group.cards] in [isWinningHand]). *)
Module Exposed.
Record t : Type := mk { type : string; cards : list string; from : nat }.
End Exposed.

(** One entry of [gameHistory]. *)
Module History.
Record t : Type := mk {
  player : nat;
  action : PLAYER_ACTIONS.t;
  cards : list string;
  timestamp : nat
}.
End History.

(** One element of [data.players]. [availableActions] is the property
    [checkPlayerActions] sets on the player object; it is absent ([None])
    until then. *)
Module Player.
Record t : Type := mk {
  userId : string;
  position : nat;
  feng : option string;
  handCards : list string;
  discardedCards : list string;
  exposedCards : list Exposed.t;
  flowerCards : list string;
  isReady : bool;
  score : Z;
  availableActions : option (list PLAYER_ACTIONS.t)
}.

Definition set_handCards (v : list string) (p : t) : t :=
  mk (userId p) (position p) (feng p) v (discardedCards p) (exposedCards p)
     (flowerCards p) (isReady p) (score p) (availableActions p).

Definition set_discardedCards (v : list string) (p : t) : t :=
  mk (userId p) (position p) (feng p) (handCards p) v (exposedCards p)
     (flowerCards p) (isReady p) (score p) (availableActions p).

Definition set_exposedCards (v : list Exposed.t) (p : t) : t :=
  mk (userId p) (position p) (feng p) (handCards p) (discardedCards p) v
     (flowerCards p) (isReady p) (score p) (availableActions p).

Definition set_flowerCards (v : list string) (p : t) : t :=
  mk (userId p) (position p) (feng p) (handCards p) (discardedCards p)
     (exposedCards p) v (isReady p) (score p) (availableActions p).

Definition set_availableActions (v : option (list PLAYER_ACTIONS.t)) (p : t) : t :=
  mk (userId p) (position p) (feng p) (handCards p) (discardedCards p)
     (exposedCards p) (flowerCards p) (isReady p) (score p) v.
End Player.

(** The document [this.data] (the fields of [gameSchema]). *)
Module Data.
Record t : Type := mk {
  roomId : string;
  players : list Player.t;
  state : GAME_STATES.t;
  mode : string;
  currentPlayer : nat;
  dealer : nat;
  round : nat;
  deck : list string;
  lastDiscardedCard : option string;
  lastAction : option PLAYER_ACTIONS.t;
  gameHistory : list History.t;
  maxRounds : nat;
  timeLimit : nat;
  startTime : option nat;
  endTime : option nat;
  winner : option nat;
  winType : option string;
  fanCount : option Z;
  huCount : option Z
}.

Definition set_players (v : list Player.t) (d : t) : t :=
  mk (roomId d) v (state d) (mode d) (currentPlayer d) (dealer d) (round d)
     (deck d) (lastDiscardedCard d) (lastAction d) (gameHistory d)
     (maxRounds d) (timeLimit d) (startTime d) (endTime d) (winner d)
     (winType d) (fanCount d) (huCount d).

Definition set_state (v : GAME_STATES.t) (d : t) : t :=
  mk (roomId d) (players d) v (mode d) (currentPlayer d) (dealer d) (round d)
     (deck d) (lastDiscardedCard d) (lastAction d) (gameHistory d)
     (maxRounds d) (timeLimit d) (startTime d) (endTime d) (winner d)
     (winType d) (fanCount d) (huCount d).

Definition set_mode (v : string) (d : t) : t :=
  mk (roomId d) (players d) (state d) v (currentPlayer d) (dealer d) (round d)
     (deck d) (lastDiscardedCard d) (lastAction d) (gameHistory d)
     (maxRounds d) (timeLimit d) (startTime d) (endTime d) (winner d)
     (winType d) (fanCount d) (huCount d).

Definition set_currentPlayer (v : nat) (d : t) : t :=
  mk (roomId d) (players d) (state d) (mode d) v (dealer d) (round d)
     (deck d) (lastDiscardedCard d) (lastAction d) (gameHistory d)
     (maxRounds d) (timeLimit d) (startTime d) (endTime d) (winner d)
     (winType d) (fanCount d) (huCount d).

Definition set_deck (v : list string) (d : t) : t :=
  mk (roomId d) (players d) (state d) (mode d) (currentPlayer d) (dealer d)
     (round d) v (lastDiscardedCard d) (lastAction d) (gameHistory d)
     (maxRounds d) (timeLimit d) (startTime d) (endTime d) (winner d)
     (winType d) (fanCount d) (huCount d).

(** The three assignments and the history push of an accepted discard. *)
Definition set_discard (card : string) (a : PLAYER_ACTIONS.t) (h : History.t) (d : t) : t :=
  mk (roomId d) (players d) (state d) (mode d) (currentPlayer d) (dealer d)
     (round d) (deck d) (Some card) (Some a) (gameHistory d ++ [h])
     (maxRounds d) (timeLimit d) (startTime d) (endTime d) (winner d)
     (winType d) (fanCount d) (huCount d).

(** What [save()] writes of a document: the paths of the schema. The
    [availableActions] that [checkPlayerActions] puts on a player are a
    property of the object in memory; the schema has no such path, so a
    document read from the store has them on no seat. Only [playerDiscard]
    of the controller runs [checkPlayerActions] before it saves. *)
Definition stored (d : t) : t :=
  set_players (map (Player.set_availableActions None) (players d)) d.
End Data.

(* ===================================================================== *)
(** ** Mutable state and exceptions *)
(* ===================================================================== *)

Module Eff.

Inductive exn : Type :=
| Error (message : string)
| TypeError
| CastError.

(** What a call does: return, throw, or (for the one [while] loop of the
    engine) still run when the fuel given to the model is used up. *)
Inductive result (A : Type) : Type :=
| Ok (a : A)
| Throw (e : exn)
| OutOfFuel.
Arguments Ok {A} a.
Arguments Throw {A} e.
Arguments OutOfFuel {A}.

(** A method of an object of type [S]: the result and the object as the
    call leaves it, also when it throws. *)
Definition M (S A : Type) : Type := S -> result A * S.

Definition ret {S A : Type} (a : A) : M S A := fun s => (Ok a, s).

Definition bind {S A B : Type} (m : M S A) (k : A -> M S B) : M S B :=
  fun s =>
    match m s with
    | (Ok a, s') => k a s'
    | (Throw e, s') => (Throw e, s')
    | (OutOfFuel, s') => (OutOfFuel, s')
    end.

Definition get {S : Type} : M S S := fun s => (Ok s, s).
Definition modify {S : Type} (f : S -> S) : M S unit := fun s => (Ok tt, f s).
Definition throw {S A : Type} (e : exn) : M S A := fun s => (Throw e, s).

Fixpoint forEach {S A : Type} (l : list A) (body : A -> M S unit) : M S unit :=
  match l with
  | [] => ret tt
  | x :: r => bind (body x) (fun _ => forEach r body)
  end.

Declare Scope eff_scope.
Delimit Scope eff_scope with eff.
Notation "x <- c1 ;; c2" := (bind c1 (fun x => c2))
  (at level 100, c1 at next level, right associativity) : eff_scope.
Notation "c1 ;; c2" := (bind c1 (fun _ => c2))
  (at level 100, right associativity) : eff_scope.

End Eff.

Import Eff.
Local Open Scope eff_scope.

(* ===================================================================== *)
(** ** Game.js: the class [Game] *)
(* ===================================================================== *)

(** What [getGameState] returns. *)
Module Snapshot.
Record player : Type := mkPlayer {
  userId : string;
  position : nat;
  feng : option string;
  handCardCount : nat;
  discardedCards : list string;
  exposedCards : list Exposed.t;
  flowerCards : list string;
  score : Z
}.

Record t : Type := mk {
  roomId : string;
  state : GAME_STATES.t;
  mode : string;
  currentPlayer : nat;
  dealer : nat;
  round : nat;
  players : list player;
  lastDiscardedCard : option string;
  remainingCards : nat;
  gameHistory : list History.t
}.
End Snapshot.

Module Game.

(** A [Game] object: the document and the [CardDeck] the constructor
    builds. *)
Record t : Type := mk { data : Data.t; deck : CardDeck.t }.

(** [new Game(gameData)]: [this.deck = new CardDeck()] is the full,
    unshuffled deck. *)
Definition new (gameData : Data.t) : t := mk gameData CardDeck.initializeDeck.

Definition set_data (f : Data.t -> Data.t) (g : t) : t := mk (f (data g)) (deck g).

Definition set_player (i : nat) (p : Player.t) (g : t) : t :=
  set_data (fun d => Data.set_players (<[i := p]> (Data.players d)) d) g.

Definition getFengByPosition (position : nat) : option string :=
  [FENG_POSITIONS.DONG; FENG_POSITIONS.NAN; FENG_POSITIONS.XI; FENG_POSITIONS.BEI]
    !! position.

(** [initialize(players, mode)]; [players] are the user ids of the
    objects passed in, [rnd] the random source of the shuffle. *)
Definition initialize (rnd : nat -> nat) (players : list string) (mode : string)
  : M t unit :=
  fun g =>
    let ps := imap (fun index userId =>
                      Player.mk userId index (getFengByPosition index)
                                [] [] [] [] false 0%Z None) players in
    let d := Data.set_currentPlayer (Data.dealer (data g))
               (Data.set_state GAME_STATES.STARTING
                  (Data.set_mode mode (Data.set_players ps (data g)))) in
    let cards := CardDeck.shuffle rnd (deck g) in
    (Ok tt, mk (Data.set_deck (map Card.id cards) d) cards).

Definition getCardById (cardId : string) : Card.t :=
  match JS.split "_" cardId with
  | ty :: v :: _ => Card.new ty (JS.parseInt v)
  | [ty] => Card.new ty JS.NaN
  | [] => Card.new EmptyString JS.NaN
  end.

Definition isFlowerId (cardId : string) : bool := Card.isFlower (getCardById cardId).

(** The [forEach] of [dealCards]: 14 cards for the dealer's index, 13 for
    the others, drawn in index order. *)
Fixpoint deal_forEach (dealer index : nat) (ps : list Player.t) (cards : CardDeck.t)
  : list Player.t * CardDeck.t :=
  match ps with
  | [] => ([], cards)
  | player :: rest =>
      let cardCount := if index =? dealer then 14 else 13 in
      let '(drawn, cards1) := CardDeck.drawCards cardCount cards in
      let '(rest', cards2) := deal_forEach dealer (S index) rest cards1 in
      (Player.set_handCards (map Card.id drawn) player :: rest', cards2)
  end.

(** The body of the [for] loop of [handleFlowerCards] for one [i]; the
    result tells whether the seat held a flower ([hasFlowers = true]). *)
Definition sweepSeat (i : nat) : M t bool :=
  fun g =>
    let playerIndex := (Data.dealer (data g) + i) mod 4 in
    match Data.players (data g) !! playerIndex with
    | None => (Throw TypeError, g)
    | Some player =>
        let '(flowerCards, remainingCards) :=
          List.partition isFlowerId (Player.handCards player) in
        if 0 <? length flowerCards then
          let '(newCards, cards1) := CardDeck.drawCards (length flowerCards) (deck g) in
          let player1 :=
            Player.set_handCards (remainingCards ++ map Card.id newCards)
              (Player.set_flowerCards (Player.flowerCards player ++ flowerCards) player) in
          (Ok true, mk (data (set_player playerIndex player1 g)) cards1)
        else (Ok false, g)
    end.

(** One round of the [for] loop, [i] through the given values. *)
Fixpoint sweepSeats (seats : list nat) (hasFlowers : bool) : M t bool :=
  match seats with
  | [] => ret hasFlowers
  | i :: rest => found <- sweepSeat i ;; sweepSeats rest (hasFlowers || found)
  end.

(** [handleFlowerCards]: the [while (hasFlowers)] loop, one iteration per
    unit of fuel. *)
Fixpoint handleFlowerCards (fuel : nat) : M t unit :=
  fun g =>
    match fuel with
    | 0 => (OutOfFuel, g)
    | S fuel' =>
        match sweepSeats [0; 1; 2; 3] false g with
        | (Ok true, g1) => handleFlowerCards fuel' g1
        | (Ok false, g1) => (Ok tt, g1)
        | (Throw e, g1) => (Throw e, g1)
        | (OutOfFuel, g1) => (OutOfFuel, g1)
        end
    end.

Definition dealCards (fuel : nat) : M t unit :=
  modify (set_data (Data.set_state GAME_STATES.DEALING)) ;;
  modify (fun g =>
            let '(ps, cards) :=
              deal_forEach (Data.dealer (data g)) 0 (Data.players (data g)) (deck g) in
            mk (Data.set_players ps (data g)) cards) ;;
  handleFlowerCards fuel ;;
  modify (set_data (Data.set_state GAME_STATES.PLAYING)).

(** [isWinningHand]: the count of tiles, then the unconditional
    [return false] the source ends with. *)
Definition isWinningHand (handCards : list string) (exposedCards : list Exposed.t) : bool :=
  let totalCards :=
    length handCards
    + fold_left (fun sum group => sum + length (Exposed.cards group)) exposedCards 0 in
  if negb (totalCards =? 14) then false
  else false.

(** [canHu(playerPosition, cardId = null)]; an empty string is falsy. *)
Definition canHu (playerPosition : nat) (cardId : option string) : M t bool :=
  fun g =>
    match Data.players (data g) !! playerPosition with
    | None => (Throw TypeError, g)
    | Some player =>
        let testCards :=
          match cardId with
          | Some c => if String.eqb c EmptyString then Player.handCards player
                      else Player.handCards player ++ [c]
          | None => Player.handCards player
          end in
        (Ok (isWinningHand testCards (Player.exposedCards player)), g)
    end.

(** The filter of [canPeng] and [canGang]: the hand cards equal to the
    card of [cardId]. *)
Definition sameCards (handCards : list string) (cardId : string) : list string :=
  List.filter (fun handCardId => Card.equals (getCardById handCardId) (getCardById cardId))
              handCards.

Definition canPeng (playerPosition : nat) (cardId : string) : M t bool :=
  fun g =>
    match Data.players (data g) !! playerPosition with
    | None => (Throw TypeError, g)
    | Some player => (Ok (2 <=? length (sameCards (Player.handCards player) cardId)), g)
    end.

Definition canGang (playerPosition : nat) (cardId : string) : M t bool :=
  fun g =>
    match Data.players (data g) !! playerPosition with
    | None => (Throw TypeError, g)
    | Some player => (Ok (3 <=? length (sameCards (Player.handCards player) cardId)), g)
    end.

(** The two nested loops of [canChi] over [i < j]. *)
Fixpoint canChi_pairs (card : Card.t) (handCards : list Card.t) : bool :=
  match handCards with
  | [] => false
  | ci :: rest =>
      existsb (fun cj => Card.canFormSequence card ci cj) rest || canChi_pairs card rest
  end.

(** [canChi(playerPosition, cardId)]; [cardId] is [None] when the caller
    passes [undefined], on which [split] throws. *)
Definition canChi (playerPosition : nat) (cardId : option string) : M t bool :=
  fun g =>
    let player := Data.players (data g) !! playerPosition in
    match cardId with
    | None => (Throw TypeError, g)
    | Some cardId =>
        let card := getCardById cardId in
        if negb (Card.isNumber card) then (Ok false, g)
        else match player with
             | None => (Throw TypeError, g)
             | Some player =>
                 (Ok (canChi_pairs card (map getCardById (Player.handCards player))), g)
             end
    end.

(** The [actions] array of [checkPlayerActions], pushed in this order. *)
Definition actionsOf (hu gang peng chi : bool) : list PLAYER_ACTIONS.t :=
  (if hu then [PLAYER_ACTIONS.HU] else [])
  ++ (if gang then [PLAYER_ACTIONS.GANG] else [])
  ++ (if peng then [PLAYER_ACTIONS.PENG] else [])
  ++ (if chi then [PLAYER_ACTIONS.CHI] else []).

(** The callback of the [forEach] of [checkPlayerActions]. *)
Definition checkPlayer (currentPlayerPos : nat) (discardedCardId : string) (index : nat)
  : M t unit :=
  if index =? currentPlayerPos then ret tt
  else
    hu <- canHu index (Some discardedCardId) ;;
    gang <- canGang index discardedCardId ;;
    peng <- canPeng index discardedCardId ;;
    chi <- (if index =? (currentPlayerPos + 1) mod 4
            then canChi index (Some discardedCardId)
            else ret false) ;;
    let actions := actionsOf hu gang peng chi in
    if 0 <? length actions then
      g <- get ;;
      match Data.players (data g) !! index with
      | Some player =>
          modify (set_player index (Player.set_availableActions (Some actions) player))
      | None => throw TypeError
      end
    else ret tt.

Definition checkPlayerActions (discardedCardId : string) : M t unit :=
  g <- get ;;
  let currentPlayerPos := Data.currentPlayer (data g) in
  forEach (seq 0 (length (Data.players (data g))))
          (checkPlayer currentPlayerPos discardedCardId).

(** [nextPlayer]. The card is popped before the player object is used,
    so a missing player throws with the card already gone. *)
Definition nextPlayer : M t unit :=
  fun g =>
    let cur := (Data.currentPlayer (data g) + 1) mod 4 in
    let g1 := set_data (Data.set_currentPlayer cur) g in
    if CardDeck.hasCards (deck g1) then
      match CardDeck.drawCard (deck g1) with
      | (None, _) => (Throw TypeError, g1)
      | (Some newCard, cards1) =>
          let g2 := mk (data g1) cards1 in
          match Data.players (data g1) !! cur with
          | None => (Throw TypeError, g2)
          | Some player =>
              let player1 :=
                Player.set_handCards (Player.handCards player ++ [Card.id newCard]) player in
              if Card.isFlower newCard then
                let player2 :=
                  Player.set_handCards (snd (JS.pop (Player.handCards player1)))
                    (Player.set_flowerCards
                       (Player.flowerCards player1 ++ [Card.id newCard]) player1) in
                if CardDeck.hasCards cards1 then
                  match CardDeck.drawCard cards1 with
                  | (None, _) => (Throw TypeError, set_player cur player2 g2)
                  | (Some supplementCard, cards2) =>
                      let player3 :=
                        Player.set_handCards
                          (Player.handCards player2 ++ [Card.id supplementCard]) player2 in
                      (Ok tt, mk (data (set_player cur player3 g2)) cards2)
                  end
                else (Ok tt, set_player cur player2 g2)
              else (Ok tt, set_player cur player1 g2)
          end
      end
    else (Ok tt, g1).

(** [playerDiscard(playerPosition, cardId)]; [now] is the [new Date()] of
    the history entry. *)
Definition playerDiscard (now : nat) (playerPosition : nat) (cardId : string) : M t unit :=
  g <- get ;;
  if negb (GAME_STATES.eqb (Data.state (data g)) GAME_STATES.PLAYING)
  then throw (Error "游戏未在进行中")
  else if negb (Data.currentPlayer (data g) =? playerPosition)
  then throw (Error "不是该玩家的回合")
  else
    match Data.players (data g) !! playerPosition with
    | None => throw TypeError
    | Some player =>
        match JS.indexOf (Player.handCards player) cardId with
        | None => throw (Error "玩家没有这张牌")
        | Some cardIndex =>
            let player1 :=
              Player.set_discardedCards (Player.discardedCards player ++ [cardId])
                (Player.set_handCards (delete cardIndex (Player.handCards player)) player) in
            modify (set_player playerPosition player1) ;;
            modify (set_data
                      (Data.set_discard cardId PLAYER_ACTIONS.DISCARD
                         (History.mk playerPosition PLAYER_ACTIONS.DISCARD [cardId] now))) ;;
            checkPlayerActions cardId ;;
            nextPlayer
        end
    end.

(** [endGame]; [calculateScores] has an empty body. *)
Definition endGame (now : nat) (winner : nat) (winType : string) (fanCount huCount : Z)
  : M t unit :=
  modify (set_data (fun d =>
    Data.mk (Data.roomId d) (Data.players d) GAME_STATES.FINISHED (Data.mode d)
            (Data.currentPlayer d) (Data.dealer d) (Data.round d) (Data.deck d)
            (Data.lastDiscardedCard d) (Data.lastAction d) (Data.gameHistory d)
            (Data.maxRounds d) (Data.timeLimit d) (Data.startTime d) (Some now)
            (Some winner) (Some winType) (Some fanCount) (Some huCount))).

(** [a.slice(-10)]. *)
Definition slice_last10 {A : Type} (a : list A) : list A := drop (length a - 10) a.

Definition getGameState (g : t) : Snapshot.t :=
  Snapshot.mk
    (Data.roomId (data g))
    (Data.state (data g))
    (Data.mode (data g))
    (Data.currentPlayer (data g))
    (Data.dealer (data g))
    (Data.round (data g))
    (map (fun player =>
            Snapshot.mkPlayer
              (Player.userId player)
              (Player.position player)
              (Player.feng player)
              (length (Player.handCards player))
              (Player.discardedCards player)
              (Player.exposedCards player)
              (Player.flowerCards player)
              (Player.score player))
         (Data.players (data g)))
    (Data.lastDiscardedCard (data g))
    (CardDeck.getRemainingCount (deck g))
    (slice_last10 (Data.gameHistory (data g))).

(** [flowerValues.includes(val)] for an integer [val]. *)
Definition includesValue (flowerValues : list JS.number) (val : Z) : bool :=
  existsb (fun v => JS.strict_eq v (JS.Int val)) flowerValues.

(** The fan a seat gets from its flower cards, on the seat itself. *)
Definition flowerFanOf (player : Player.t) : nat :=
  let fanCount :=
    fold_left
      (fun fanCount cardId =>
         let card := getCardById cardId in
         if Card.isFlower card then
           match Card.getFlowerFeng card, Player.feng player with
           | Some flowerFeng, Some playerFeng =>
               if String.eqb flowerFeng playerFeng then fanCount + 1 else fanCount
           | _, _ => fanCount
           end
         else fanCount)
      (Player.flowerCards player) 0 in
  let flowerValues := map (fun cardId => Card.value (getCardById cardId))
                          (Player.flowerCards player) in
  let hasFourSeasons := forallb (includesValue flowerValues) [5; 6; 7; 8]%Z in
  let hasFourPlants := forallb (includesValue flowerValues) [1; 2; 3; 4]%Z in
  if hasFourSeasons || hasFourPlants then fanCount + 2 else fanCount.

(** [calculateFlowerFan(playerPosition)]. *)
Definition calculateFlowerFan (playerPosition : nat) : M t nat :=
  fun g =>
    match Data.players (data g) !! playerPosition with
    | None => (Throw TypeError, g)
    | Some player => (Ok (flowerFanOf player), g)
    end.

End Game.

(* ===================================================================== *)
(** ** Room.js *)
(* ===================================================================== *)

Module ROOM_STATES.
Inductive t : Type := WAITING | READY | PLAYING | FINISHED.

Definition eqb (a b : t) : bool :=
  match a, b with
  | WAITING, WAITING | READY, READY | PLAYING, PLAYING | FINISHED, FINISHED => true
  | _, _ => false
  end.
End ROOM_STATES.

(** One element of the [players] of a room. *)
Module Member.
Record t : Type := mk {
  userId : string;
  nickname : string;
  avatar : string;
  position : nat;
  isReady : bool;
  isOnline : bool;
  joinTime : nat;
  lastActiveTime : nat
}.

Definition set_isReady (v : bool) (p : t) : t :=
  mk (userId p) (nickname p) (avatar p) (position p) v (isOnline p) (joinTime p)
     (lastActiveTime p).

(** [isOnline] and [lastActiveTime] are always assigned together. *)
Definition set_online (v : bool) (now : nat) (p : t) : t :=
  mk (userId p) (nickname p) (avatar p) (position p) (isReady p) v (joinTime p) now.

Definition set_lastActiveTime (now : nat) (p : t) : t :=
  mk (userId p) (nickname p) (avatar p) (position p) (isReady p) (isOnline p)
     (joinTime p) now.
End Member.

(** One entry of the [gameHistory] of a room. *)
Module GameResult.
Record t : Type := mk {
  gameId : string;
  startTime : option nat;
  endTime : option nat;
  winner : nat;
  scores : list Z
}.
End GameResult.

(** The class [Room]: the object is its [data] document. [save] writes
    the document to the store and changes nothing in it. *)
Module Room.

Record t : Type := mk {
  roomId : string;
  roomCode : string;
  name : string;
  type : string;
  state : ROOM_STATES.t;
  owner : string;
  players : list Member.t;
  maxPlayers : nat;
  mode : string;
  maxRounds : nat;
  timeLimit : nat;
  allowReconnect : bool;
  autoStart : bool;
  currentGame : option string;
  gameHistory : list GameResult.t;
  password : option string;
  isActive : bool
}.

Definition set_players (v : list Member.t) (r : t) : t :=
  mk (roomId r) (roomCode r) (name r) (type r) (state r) (owner r) v (maxPlayers r)
     (mode r) (maxRounds r) (timeLimit r) (allowReconnect r) (autoStart r)
     (currentGame r) (gameHistory r) (password r) (isActive r).

Definition set_state (v : ROOM_STATES.t) (r : t) : t :=
  mk (roomId r) (roomCode r) (name r) (type r) v (owner r) (players r) (maxPlayers r)
     (mode r) (maxRounds r) (timeLimit r) (allowReconnect r) (autoStart r)
     (currentGame r) (gameHistory r) (password r) (isActive r).

Definition set_owner (v : string) (r : t) : t :=
  mk (roomId r) (roomCode r) (name r) (type r) (state r) v (players r) (maxPlayers r)
     (mode r) (maxRounds r) (timeLimit r) (allowReconnect r) (autoStart r)
     (currentGame r) (gameHistory r) (password r) (isActive r).

Definition set_isActive (v : bool) (r : t) : t :=
  mk (roomId r) (roomCode r) (name r) (type r) (state r) (owner r) (players r)
     (maxPlayers r) (mode r) (maxRounds r) (timeLimit r) (allowReconnect r)
     (autoStart r) (currentGame r) (gameHistory r) (password r) v.

Definition set_currentGame (v : option string) (r : t) : t :=
  mk (roomId r) (roomCode r) (name r) (type r) (state r) (owner r) (players r)
     (maxPlayers r) (mode r) (maxRounds r) (timeLimit r) (allowReconnect r)
     (autoStart r) v (gameHistory r) (password r) (isActive r).

Definition set_gameHistory (v : list GameResult.t) (r : t) : t :=
  mk (roomId r) (roomCode r) (name r) (type r) (state r) (owner r) (players r)
     (maxPlayers r) (mode r) (maxRounds r) (timeLimit r) (allowReconnect r)
     (autoStart r) (currentGame r) v (password r) (isActive r).

(** [players.findIndex(p => p.userId.toString() === userId.toString())]. *)
Fixpoint findIndex (l : list Member.t) (userId : string) : option nat :=
  match l with
  | [] => None
  | p :: rest =>
      if String.eqb (Member.userId p) userId then Some 0
      else option_map S (findIndex rest userId)
  end.

(** [players.find(...)] with the same test. *)
Definition findMember (l : list Member.t) (userId : string) : option Member.t :=
  List.find (fun p => String.eqb (Member.userId p) userId) l.

(** The [while] loop of [joinRoom]: the first position from [position]
    on that is not occupied, one test per unit of fuel. *)
Fixpoint findPosition (fuel : nat) (occupiedPositions : list nat) (position : nat)
  : option nat :=
  match fuel with
  | 0 => None
  | S fuel' =>
      if existsb (Nat.eqb position) occupiedPositions
      then findPosition fuel' occupiedPositions (S position)
      else Some position
  end.

(** [joinRoom(userId, userInfo)]; [now] is the date of the call. *)
Definition joinRoom (now : nat) (userId nickname avatar : string) : M t nat :=
  fun room =>
    if maxPlayers room <=? length (players room) then (Throw (Error "房间已满"), room)
    else if ROOM_STATES.eqb (state room) ROOM_STATES.PLAYING
    then (Throw (Error "游戏进行中，无法加入"), room)
    else
      match findIndex (players room) userId, findMember (players room) userId with
      | Some i, Some existingPlayer =>
          (Ok (Member.position existingPlayer),
           set_players (<[i := Member.set_online true now existingPlayer]> (players room)) room)
      | _, _ =>
          let occupiedPositions := map Member.position (players room) in
          match findPosition (S (length occupiedPositions)) occupiedPositions 0 with
          | None => (OutOfFuel, room)
          | Some position =>
              let player := Member.mk userId nickname avatar position false true now now in
              (Ok position, set_players (players room ++ [player]) room)
          end
      end.

(** [leaveRoom(userId)]. *)
Definition leaveRoom (now : nat) (userId : string) : M t unit :=
  fun room =>
    match findIndex (players room) userId with
    | None => (Throw (Error "用户不在房间中"), room)
    | Some playerIndex =>
        if ROOM_STATES.eqb (state room) ROOM_STATES.PLAYING then
          match players room !! playerIndex with
          | Some p =>
              (Ok tt, set_players (<[playerIndex := Member.set_online false now p]>
                                     (players room)) room)
          | None => (Throw TypeError, room)
          end
        else
          let room1 := set_players (delete playerIndex (players room)) room in
          let room2 :=
            match players room1 with
            | first :: _ =>
                if String.eqb (owner room1) userId then set_owner (Member.userId first) room1
                else room1
            | [] => room1
            end in
          let room3 :=
            if length (players room2) =? 0 then set_isActive false room2 else room2 in
          (Ok tt, room3)
    end.

(** [playerReady(userId, isReady = true)]. *)
Definition playerReady (now : nat) (userId : string) (isReady : bool) : M t bool :=
  fun room =>
    match findIndex (players room) userId, findMember (players room) userId with
    | Some i, Some player =>
        let players1 :=
          <[i := Member.set_lastActiveTime now (Member.set_isReady isReady player)]>
            (players room) in
        let allReady := (2 <=? length players1) && forallb Member.isReady players1 in
        (Ok allReady,
         set_state (if allReady then ROOM_STATES.READY else ROOM_STATES.WAITING)
                   (set_players players1 room))
    | _, _ => (Throw (Error "用户不在房间中"), room)
    end.

(** [startGame]. *)
Definition startGame : M t unit :=
  fun room =>
    if negb (ROOM_STATES.eqb (state room) ROOM_STATES.READY)
    then (Throw (Error "房间状态不允许开始游戏"), room)
    else if length (players room) <? 2 then (Throw (Error "玩家数量不足"), room)
    else
      (Ok tt, set_players (map (Member.set_isReady false) (players room))
                (set_state ROOM_STATES.PLAYING room)).

(** [gameFinished(gameResult)]. *)
Definition gameFinished (gameResult : GameResult.t) : M t unit :=
  fun room =>
    (Ok tt, set_players (map (Member.set_isReady false) (players room))
              (set_gameHistory (gameHistory room ++ [gameResult])
                 (set_currentGame None (set_state ROOM_STATES.FINISHED room)))).

(** [updatePlayerActivity(userId)]. *)
Definition updatePlayerActivity (now : nat) (userId : string) : M t unit :=
  fun room =>
    match findIndex (players room) userId, findMember (players room) userId with
    | Some i, Some player =>
        (Ok tt, set_players (<[i := Member.set_online true now player]> (players room)) room)
    | _, _ => (Ok tt, room)
    end.

Definition canDissolve (room : t) : bool :=
  if ROOM_STATES.eqb (state room) ROOM_STATES.PLAYING then false else true.

(** [dissolveRoom]. *)
Definition dissolveRoom : M t unit :=
  fun room =>
    if negb (canDissolve room) then (Throw (Error "房间无法解散"), room)
    else (Ok tt, set_state ROOM_STATES.FINISHED (set_isActive false room)).

(** What [getPlayers] gives for one player: the player without its two
    dates. *)
Record playerInfo : Type := mkInfo {
  info_userId : string;
  info_nickname : string;
  info_avatar : string;
  info_position : nat;
  info_isReady : bool;
  info_isOnline : bool
}.

Definition getPlayers (room : t) : list playerInfo :=
  map (fun player =>
         mkInfo (Member.userId player) (Member.nickname player) (Member.avatar player)
                (Member.position player) (Member.isReady player) (Member.isOnline player))
      (players room).

Definition hasPlayer (room : t) (userId : string) : bool :=
  existsb (fun p => String.eqb (Member.userId p) userId) (players room).

Definition isOwner (room : t) (userId : string) : bool := String.eqb (owner room) userId.

End Room.

(* ===================================================================== *)
(** ** gameController.js *)
(* ===================================================================== *)

Module GameController.

(** The JSON answer of a handler: [success: true] with its data, or a
    status code with a message. *)
Inductive response (A : Type) : Type :=
| Success (payload : A)
| Failure (status : nat) (message : string).
Arguments Success {A} payload.
Arguments Failure {A} status message.

(** The data of [getGameState]: the snapshot with [myCards] and
    [myPosition] added. *)
Record view : Type := mkView {
  gameState : Snapshot.t;
  myCards : list string;
  myPosition : nat
}.

(** [gameData.players.find(p => p.userId.toString() === userId.toString())]. *)
Definition findPlayer (gameData : Data.t) (userId : string) : option Player.t :=
  List.find (fun p => String.eqb (Player.userId p) userId) (Data.players gameData).

(** The message of a caught error: [error.message || fallback]. The text
    the engine gives a TypeError and the text mongoose gives a CastError
    are written by their names. *)
Definition messageOf (e : exn) (fallback : string) : string :=
  match e with
  | Error m => if String.eqb m EmptyString then fallback else m
  | TypeError => "TypeError"
  | CastError => "CastError"
  end.

(** [getGameState]: [found] is what [GameModel.findById] returns. *)
Definition getGameState (found : option Data.t) (userId : string) : response view :=
  match found with
  | None => Failure 404 "游戏不存在"
  | Some gameData =>
      match findPlayer gameData userId with
      | None => Failure 403 "您不在此游戏中"
      | Some player =>
          let game := Game.new gameData in
          Success (mkView (Game.getGameState game)
                          (Player.handCards player) (Player.position player))
      end
  end.

(** [playerDiscard]: the answer, and the document written by
    [gameData.save()] when the handler gets that far. The snapshot is
    taken from the game in memory; what is saved is what the schema
    holds of it. *)
Definition playerDiscard (now : nat) (found : option Data.t) (userId cardId : string)
  : response Snapshot.t * option Data.t :=
  match found with
  | None => (Failure 404 "游戏不存在", None)
  | Some gameData =>
      match findPlayer gameData userId with
      | None => (Failure 403 "您不在此游戏中", None)
      | Some player =>
          match Game.playerDiscard now (Player.position player) cardId (Game.new gameData) with
          | (Ok _, game) =>
              (Success (Game.getGameState game), Some (Data.stored (Game.data game)))
          | (Throw e, _) => (Failure 500 (messageOf e "出牌失败"), None)
          | (OutOfFuel, _) => (Failure 500 "出牌失败", None)
          end
      end
  end.

(** [cardId !== discardedCard], the latter possibly undefined. *)
Definition differs (cardId : string) (discardedCard : option string) : bool :=
  match discardedCard with
  | Some d => negb (String.eqb cardId d)
  | None => true
  end.

(** The three [execute...Action] functions are called by the handlers
    only, on a game whose [data] is a document of [GameModel]. The schema
    declares [exposedCards] as [[{ type: String, cards: [String], from:
    Number }]]: [type] is the key by which mongoose reads the type of
    a path, so the path is an array of String, and [push] of a group
    object throws a CastError. The hand is changed by then; nothing is
    exposed and [currentPlayer] is not assigned. *)

(** [executeChiAction(game, playerPosition, cardIds)]. *)
Definition executeChiAction (playerPosition : nat) (cardIds : list string) : M Game.t unit :=
  fun game =>
    match Data.players (Game.data game) !! playerPosition with
    | None => (Throw TypeError, game)
    | Some player =>
        let discardedCard := Data.lastDiscardedCard (Game.data game) in
        let handCards :=
          fold_left (fun hand cardId =>
                       if differs cardId discardedCard then
                         match JS.indexOf hand cardId with
                         | Some index => delete index hand
                         | None => hand
                         end
                       else hand)
                    cardIds (Player.handCards player) in
        (Throw CastError,
         Game.set_player playerPosition (Player.set_handCards handCards player) game)
    end.

(** The removal loop of [executePengAction] and [executeGangAction]:
    [i] runs from the last index down while fewer than [limit] cards have
    been removed; [n] is [i + 1]. *)
Fixpoint removeLoop (n : nat) (limit removed : nat) (cardId : string) (handCards : list string)
  : list string :=
  match n with
  | 0 => handCards
  | S i =>
      if removed <? limit then
        match handCards !! i with
        | Some c =>
            if String.eqb c cardId
            then removeLoop i limit (S removed) cardId (delete i handCards)
            else removeLoop i limit removed cardId handCards
        | None => removeLoop i limit removed cardId handCards
        end
      else handCards
  end.

(** [executePengAction(game, playerPosition, cardId)]. *)
Definition executePengAction (playerPosition : nat) (cardId : string) : M Game.t unit :=
  fun game =>
    match Data.players (Game.data game) !! playerPosition with
    | None => (Throw TypeError, game)
    | Some player =>
        let handCards :=
          removeLoop (length (Player.handCards player)) 2 0 cardId (Player.handCards player) in
        (Throw CastError,
         Game.set_player playerPosition (Player.set_handCards handCards player) game)
    end.

(** [executeGangAction(game, playerPosition, gangType, cardId)]. *)
Definition executeGangAction (playerPosition : nat) (gangType : string) (cardId : string)
  : M Game.t unit :=
  fun game =>
    match Data.players (Game.data game) !! playerPosition with
    | None =>
        if String.eqb gangType "ming" then (Throw TypeError, game)
        else if CardDeck.hasCards (Game.deck game)
        then (Throw TypeError,
              Game.mk (Game.data game) (snd (CardDeck.drawCard (Game.deck game))))
        else (Ok tt, Game.set_data (Data.set_currentPlayer playerPosition) game)
    | Some player =>
        if String.eqb gangType "ming" then
          (Throw CastError,
           Game.set_player playerPosition
             (Player.set_handCards
                (removeLoop (length (Player.handCards player)) 3 0 cardId
                            (Player.handCards player))
                player)
             game)
        else
          let '(player2, cards) :=
            if CardDeck.hasCards (Game.deck game) then
              match CardDeck.drawCard (Game.deck game) with
              | (Some newCard, cards1) =>
                  (Player.set_handCards (Player.handCards player ++ [Card.id newCard]) player,
                   cards1)
              | (None, cards1) => (player, cards1)
              end
            else (player, Game.deck game) in
          (Ok tt, Game.mk (Data.set_currentPlayer playerPosition
                             (Game.data (Game.set_player playerPosition player2 game)))
                          cards)
    end.

(** [playerChi]: the answer and the document saved. *)
Definition playerChi (found : option Data.t) (userId : string) (cardIds : list string)
  : response Snapshot.t * option Data.t :=
  match found with
  | None => (Failure 404 "游戏不存在", None)
  | Some gameData =>
      match findPlayer gameData userId with
      | None => (Failure 403 "您不在此游戏中", None)
      | Some player =>
          let game := Game.new gameData in
          match Game.canChi (Player.position player) (Data.lastDiscardedCard gameData) game with
          | (Ok false, _) => (Failure 400 "无法吃牌", None)
          | (Ok true, game1) =>
              match executeChiAction (Player.position player) cardIds game1 with
              | (Ok _, game2) => (Success (Game.getGameState game2), Some (Game.data game2))
              | (Throw e, _) => (Failure 500 (messageOf e "吃牌失败"), None)
              | (OutOfFuel, _) => (Failure 500 "吃牌失败", None)
              end
          | (Throw e, _) => (Failure 500 (messageOf e "吃牌失败"), None)
          | (OutOfFuel, _) => (Failure 500 "吃牌失败", None)
          end
      end
  end.

(** [playerPeng]: the answer and the document saved. A missing
    [lastDiscardedCard] makes [getCardById] throw inside [canPeng]. *)
Definition playerPeng (found : option Data.t) (userId : string)
  : response Snapshot.t * option Data.t :=
  match found with
  | None => (Failure 404 "游戏不存在", None)
  | Some gameData =>
      match findPlayer gameData userId with
      | None => (Failure 403 "您不在此游戏中", None)
      | Some player =>
          match Data.lastDiscardedCard gameData with
          | None => (Failure 500 (messageOf TypeError "碰牌失败"), None)
          | Some cardId =>
              match Game.canPeng (Player.position player) cardId (Game.new gameData) with
              | (Ok false, _) => (Failure 400 "无法碰牌", None)
              | (Ok true, game1) =>
                  match executePengAction (Player.position player) cardId game1 with
                  | (Ok _, game2) => (Success (Game.getGameState game2), Some (Game.data game2))
                  | (Throw e, _) => (Failure 500 (messageOf e "碰牌失败"), None)
                  | (OutOfFuel, _) => (Failure 500 "碰牌失败", None)
                  end
              | (Throw e, _) => (Failure 500 (messageOf e "碰牌失败"), None)
              | (OutOfFuel, _) => (Failure 500 "碰牌失败", None)
              end
          end
      end
  end.

(** The data of the answer of [playerGang]. *)
Record gangAnswer : Type := mkGangAnswer {
  gang_gameState : Snapshot.t;
  gang_gangType : string
}.

(** [playerGang]: [canGang] is asked for the type ['ming'] only. The card
    id is not read by [executeGangAction] for another type, so an absent
    [lastDiscardedCard] is passed on as it is. *)
Definition playerGang (found : option Data.t) (userId gangType : string)
  : response gangAnswer * option Data.t :=
  match found with
  | None => (Failure 404 "游戏不存在", None)
  | Some gameData =>
      match findPlayer gameData userId with
      | None => (Failure 403 "您不在此游戏中", None)
      | Some player =>
          let game := Game.new gameData in
          let run (cardId : string) :=
            match executeGangAction (Player.position player) gangType cardId game with
            | (Ok _, game1) =>
                (Success (mkGangAnswer (Game.getGameState game1) gangType),
                 Some (Game.data game1))
            | (Throw e, _) => (Failure 500 (messageOf e "杠牌失败"), None)
            | (OutOfFuel, _) => (Failure 500 "杠牌失败", None)
            end in
          if String.eqb gangType "ming" then
            match Data.lastDiscardedCard gameData with
            | None => (Failure 500 (messageOf TypeError "杠牌失败"), None)
            | Some cardId =>
                match Game.canGang (Player.position player) cardId game with
                | (Ok false, _) => (Failure 400 "无法明杠", None)
                | (Ok true, _) => run cardId
                | (Throw e, _) => (Failure 500 (messageOf e "杠牌失败"), None)
                | (OutOfFuel, _) => (Failure 500 "杠牌失败", None)
                end
            end
          else run (default EmptyString (Data.lastDiscardedCard gameData))
      end
  end.

(** What [calculateHuInfo] returns. *)
Record huInfo : Type := mkHuInfo {
  hu_winType : string;
  hu_fanCount : nat;
  hu_huCount : nat;
  hu_flowerCards : nat
}.

(** [calculateHuInfo(game, playerPosition)]. *)
Definition calculateHuInfo (playerPosition : nat) : M Game.t huInfo :=
  fun game =>
    match Game.calculateFlowerFan playerPosition game with
    | (Ok flowerFan, game1) =>
        match Data.players (Game.data game1) !! playerPosition with
        | Some player =>
            (Ok (mkHuInfo "平胡" flowerFan 30 (length (Player.flowerCards player))), game1)
        | None => (Throw TypeError, game1)
        end
    | (Throw e, game1) => (Throw e, game1)
    | (OutOfFuel, game1) => (OutOfFuel, game1)
    end.

(** The data of the answer of [playerHu]. *)
Record huAnswer : Type := mkHuAnswer {
  hu_gameState : Snapshot.t;
  hu_info : huInfo
}.

(** [playerHu]: the answer, the game document saved and the room saved;
    [room] is what [Room.findByRoomId] finds for the game, [now] the date
    of [endGame]. *)
Definition playerHu (now : nat) (found : option Data.t) (room : option Room.t)
  (gameId userId : string)
  : response huAnswer * option Data.t * option Room.t :=
  match found with
  | None => (Failure 404 "游戏不存在", None, None)
  | Some gameData =>
      match findPlayer gameData userId with
      | None => (Failure 403 "您不在此游戏中", None, None)
      | Some player =>
          let game := Game.new gameData in
          match Game.canHu (Player.position player) (Data.lastDiscardedCard gameData) game with
          | (Ok false, _) => (Failure 400 "无法胡牌", None, None)
          | (Ok true, game1) =>
              match calculateHuInfo (Player.position player) game1 with
              | (Ok info, game2) =>
                  let game3 :=
                    snd (Game.endGame now (Player.position player) (hu_winType info)
                           (Z.of_nat (hu_fanCount info)) (Z.of_nat (hu_huCount info)) game2) in
                  let savedRoom :=
                    match room with
                    | Some r =>
                        Some (snd (Room.gameFinished
                                     (GameResult.mk gameId
                                        (Data.startTime (Game.data game3))
                                        (Data.endTime (Game.data game3))
                                        (Player.position player)
                                        (map Player.score (Data.players (Game.data game3))))
                                     r))
                    | None => None
                    end in
                  (Success (mkHuAnswer (Game.getGameState game3) info),
                   Some (Game.data game3), savedRoom)
              | (Throw e, _) => (Failure 500 (messageOf e "胡牌失败"), None, None)
              | (OutOfFuel, _) => (Failure 500 "胡牌失败", None, None)
              end
          | (Throw e, _) => (Failure 500 (messageOf e "胡牌失败"), None, None)
          | (OutOfFuel, _) => (Failure 500 "胡牌失败", None, None)
          end
      end
  end.

(** The index of the player [findPlayer] returns. *)
Fixpoint findPlayerIndex (l : list Player.t) (userId : string) : option nat :=
  match l with
  | [] => None
  | p :: rest =>
      if String.eqb (Player.userId p) userId then Some 0
      else option_map S (findPlayerIndex rest userId)
  end.

(** [playerPass]: [delete player.availableActions] on the player found. *)
Definition playerPass (found : option Data.t) (userId : string)
  : response Snapshot.t * option Data.t :=
  match found with
  | None => (Failure 404 "游戏不存在", None)
  | Some gameData =>
      match findPlayerIndex (Data.players gameData) userId, findPlayer gameData userId with
      | Some i, Some player =>
          let game :=
            Game.set_player i (Player.set_availableActions None player) (Game.new gameData) in
          (Success (Game.getGameState game), Some (Game.data game))
      | _, _ => (Failure 403 "您不在此游戏中", None)
      end
  end.

End GameController.

(* ===================================================================== *)
(** ** A round played out *)
(* ===================================================================== *)

(** A game of four players run through the model: the shuffle draws the
    indices [picks], seat 0 (the dealer) is dealt a 5 of wan among its 14
    cards, seat 1 a 4 and a 6 of wan, seat 2 a 6 and a 7 of wan, seat 3
    three 5s of wan, and the two cards on top of the wall after the deal
    are flowers. *)
Module Scenario.

Definition picks : list nat :=
  [
   0; 1; 2; 1; 0; 5; 4; 5; 8; 9; 5; 8; 12; 13; 5; 12; 14; 16; 5; 6; 14; 20;
   13; 22; 18; 24; 25; 26; 16; 17; 18; 30; 28; 29; 31; 33; 12; 21; 27; 32;
   5; 6; 14; 20; 12; 13; 20; 21; 31; 48; 49; 50; 52; 52; 53; 54; 56; 56; 57;
   58; 60; 56; 57; 58; 59; 52; 53; 54; 55; 48; 49; 50; 51; 44; 32; 33; 34;
   28; 29; 30; 31; 24; 25; 26; 20; 21; 12; 13; 14; 6; 5; 46; 47; 27; 73; 74;
   75; 72; 77; 78; 79; 16; 17; 18; 81; 82; 83; 76; 77; 78; 79; 72; 73; 74;
   75; 27; 22; 45; 46; 47; 40; 41; 42; 43; 36; 37; 38; 39; 23; 15; 35; 8; 9;
   10; 11; 4; 5; 6; 7; 0; 1; 2; 3; 19
  ].

Definition rnd (i : nat) : nat := nth i picks 0.

Definition emptyData : Data.t :=
  Data.mk "room" [] GAME_STATES.WAITING GAME_MODES.YAO_BAN_SAN 0 0 1 [] None None []
          8 30 None None None None None None.

Definition users : list string := ["u0"; "u1"; "u2"; "u3"].

(** The state an [M] computation leaves. *)
Definition exec {A : Type} (m : M Game.t A) (g : Game.t) : Game.t := snd (m g).

Definition initialized : Game.t :=
  exec (Game.initialize rnd users GAME_MODES.YAO_BAN_SAN) (Game.new emptyData).

(** After [dealCards]. *)
Definition dealt : Game.t := exec (Game.dealCards 9) initialized.

(** After the dealer has discarded its 5 of wan. *)
Definition afterDiscard : Game.t := exec (Game.playerDiscard 1 0 "wan_5") dealt.

(** Seat 0, the dealer, as it is dealt. *)
Definition seat0 : Player.t :=
  Player.mk "u0" 0 (Some "dong")
            ["wan_5"; "wan_1"; "wan_1"; "wan_1"; "wan_1"; "wan_2"; "wan_2"; "wan_2";
             "wan_2"; "wan_3"; "wan_3"; "wan_3"; "wan_3"; "wan_9"]
            [] [] [] false 0%Z None.

(** Seat 1 as it is dealt, and its hand. *)
Definition hand1 : list string :=
  ["wan_4"; "wan_6"; "tong_1"; "tong_1"; "tong_1"; "tong_1"; "tong_2"; "tong_2";
   "tong_2"; "tong_2"; "tong_3"; "tong_3"; "tong_3"].

Definition seat1 : Player.t :=
  Player.mk "u1" 1 (Some "nan") hand1 [] [] [] false 0%Z None.

(** Seat 1 after the discard of seat 0 and its own draw. *)
Definition seat1Drawn : Player.t :=
  Player.mk "u1" 1 (Some "nan") (hand1 ++ ["hua_2"]) [] [] ["hua_1"] false 0%Z
            (Some [PLAYER_ACTIONS.CHI]).

(** Seat 3 after the discard of seat 0: gang and peng are on offer. *)
Definition seat3 : Player.t :=
  Player.mk "u3" 3 (Some "bei")
            ["wan_5"; "wan_5"; "wan_5"; "zi_1"; "zi_1"; "zi_1"; "zi_1"; "zi_2"; "zi_2";
             "zi_2"; "zi_2"; "zi_3"; "zi_3"]
            [] [] [] false 0%Z (Some [PLAYER_ACTIONS.GANG; PLAYER_ACTIONS.PENG]).

(** The game as the peng of seat 3 on that card leaves it when it
    throws. *)
Definition afterPeng : Game.t :=
  exec (GameController.executePengAction 3 "wan_5") afterDiscard.

(** The same for the exposed gang of seat 3 and for the chi of seat 1. *)
Definition afterGang : Game.t :=
  exec (GameController.executeGangAction 3 "ming" "wan_5") afterDiscard.

Definition afterChi : Game.t :=
  exec (GameController.executeChiAction 1 ["wan_4"; "wan_5"; "wan_6"]) afterDiscard.

(** The seat to move discards the first card of its hand. *)
Definition discardFirst (now : nat) : M Game.t unit :=
  fun g =>
    let cur := Data.currentPlayer (Game.data g) in
    match Data.players (Game.data g) !! cur with
    | Some player =>
        match Player.handCards player with
        | cardId :: _ => Game.playerDiscard now cur cardId g
        | [] => (Throw TypeError, g)
        end
    | None => (Throw TypeError, g)
    end.

(** [n] such discards in a row, stopping at the first that throws. *)
Fixpoint play (n : nat) : M Game.t unit :=
  match n with
  | 0 => ret tt
  | S n' => discardFirst n ;; play n'
  end.

(** The game after 86 more discards: the wall is used up. *)
Definition wallEmpty : Game.t := exec (play 86) afterDiscard.

(** The room of that game. It is created without players; [u0] owns
    it. *)
Definition lobby : Room.t :=
  Room.mk "room" "123456" "table" "public" ROOM_STATES.WAITING "u0" [] 4
          GAME_MODES.YAO_BAN_SAN 8 30 true false None [] None true.

Definition execRoom {A : Type} (m : M Room.t A) (room : Room.t) : Room.t := snd (m room).

Definition join (now : nat) (userId : string) : M Room.t nat :=
  Room.joinRoom now userId userId EmptyString.

(** [u0], [u1] and [u2] have joined; then [u3] has. *)
Definition table3 : Room.t :=
  execRoom (join 3 "u2") (execRoom (join 2 "u1") (execRoom (join 1 "u0") lobby)).

Definition table4 : Room.t := execRoom (join 4 "u3") table3.

(** The owner [u0] has left the table of three again. *)
Definition table3Left : Room.t := execRoom (Room.leaveRoom 5 "u0") table3.

(** Every member of a room says it is ready, in the order of the list. *)
Definition allReady (now : nat) (room : Room.t) : Room.t :=
  fold_left (fun r p => execRoom (Room.playerReady now (Member.userId p) true) r)
            (Room.players room) room.

(** The table of four, everybody ready, and then started. *)
Definition table4Ready : Room.t := allReady 6 table4.

Definition table4Playing : Room.t := execRoom Room.startGame table4Ready.

End Scenario.

(* ===================================================================== *)
(** ** The properties stated of the engine *)
(* ===================================================================== *)

Module Props.

(** The spec's standard pattern, in its own words: a group is a triplet
    of identical tiles or a run of three consecutive ranks of one numeric
    suit; a hand is complete when it is one pair plus
    [4 - exposed] groups. *)
Inductive Spec_group : list Card.t -> Prop :=
| Spec_triplet (c : Card.t) : Spec_group [c; c; c]
| Spec_run (ty : string) (v : Z) :
    Card.isNumber (Card.new ty (JS.Int v)) = true ->
    Spec_group [Card.new ty (JS.Int v); Card.new ty (JS.Int (v + 1));
                Card.new ty (JS.Int (v + 2))].

Definition Spec_complete (tiles : list Card.t) (exposedMelds : nat) : Prop :=
  exists (pair : Card.t) (groups : list (list Card.t)),
    length groups = 4 - exposedMelds
    /\ Forall Spec_group groups
    /\ Permutation tiles ([pair; pair] ++ concat groups).

(** The hand of the spec's example: 1-1-1, 2-3-4, 5-6-7, 8-8-8 and a pair
    of 9 in one suit. *)
Definition completeHand : list string :=
  ["wan_1"; "wan_1"; "wan_1"; "wan_2"; "wan_3"; "wan_4"; "wan_5"; "wan_6"; "wan_7";
   "wan_8"; "wan_8"; "wan_8"; "wan_9"; "wan_9"].

(** A seat holding thirteen of the fourteen tiles of [completeHand], the
    fourteenth arriving as the discard. *)
Definition waitingSeat : Player.t :=
  Player.mk "u1" 1 (Some "nan")
            ["wan_1"; "wan_1"; "wan_1"; "wan_2"; "wan_3"; "wan_4"; "wan_5"; "wan_6"; "wan_7";
             "wan_8"; "wan_8"; "wan_8"; "wan_9"]
            [] [] [] false 0%Z None.

Definition waitingGame : Game.t :=
  Game.mk (Data.set_state GAME_STATES.PLAYING
             (Data.set_players
                [Player.mk "u0" 0 (Some "dong") [] [] [] [] false 0%Z None; waitingSeat]
                Scenario.emptyData))
          [].

(** What a read-only check answers on a game; false when it throws. *)
Definition answers (m : M Game.t bool) (g : Game.t) : bool :=
  match fst (m g) with
  | Ok b => b
  | _ => false
  end.

(** The claims in the order of the spec's priority, highest first. *)
Definition priorityOrder : list PLAYER_ACTIONS.t :=
  [PLAYER_ACTIONS.HU; PLAYER_ACTIONS.GANG; PLAYER_ACTIONS.PENG; PLAYER_ACTIONS.CHI].

(** Seat [index] may claim the discard [cardId] of seat [discarder] with
    action [a], as the engine's own checks see it. *)
Definition eligible (g : Game.t) (discarder : nat) (cardId : string) (index : nat)
  (a : PLAYER_ACTIONS.t) : bool :=
  match a with
  | PLAYER_ACTIONS.HU => answers (Game.canHu index (Some cardId)) g
  | PLAYER_ACTIONS.GANG => answers (Game.canGang index cardId) g
  | PLAYER_ACTIONS.PENG => answers (Game.canPeng index cardId) g
  | PLAYER_ACTIONS.CHI =>
      (index =? (discarder + 1) mod 4) && answers (Game.canChi index (Some cardId)) g
  | _ => false
  end.

(** A seat after the claims on [cardId] have been collected: the
    discarder and a seat with no claim are left as they are, any other
    seat gets all its claims. *)
Definition marked (g : Game.t) (cardId : string) (index : nat) (p : Player.t) : Player.t :=
  if index =? Data.currentPlayer (Game.data g) then p
  else match List.filter (eligible g (Data.currentPlayer (Game.data g)) cardId index)
                         priorityOrder with
       | [] => p
       | actions => Player.set_availableActions (Some actions) p
       end.

(** The same on the seat's own cards, as [checkPlayerActions] computes
    it. *)
Definition huOf (cardId : string) (p : Player.t) : bool :=
  Game.isWinningHand
    (if String.eqb cardId EmptyString then Player.handCards p
     else Player.handCards p ++ [cardId])
    (Player.exposedCards p).

Definition chiOf (cardId : string) (p : Player.t) : bool :=
  if negb (Card.isNumber (Game.getCardById cardId)) then false
  else Game.canChi_pairs (Game.getCardById cardId)
                         (map Game.getCardById (Player.handCards p)).

Definition mark (cur : nat) (cardId : string) (index : nat) (p : Player.t) : Player.t :=
  if index =? cur then p
  else
    let actions :=
      Game.actionsOf (huOf cardId p)
                     (3 <=? length (Game.sameCards (Player.handCards p) cardId))
                     (2 <=? length (Game.sameCards (Player.handCards p) cardId))
                     ((index =? (cur + 1) mod 4) && chiOf cardId p) in
    if 0 <? length actions then Player.set_availableActions (Some actions) p else p.


(** The concealed hand and the flower area of the seat at an index. *)
Definition handOf (g : Game.t) (i : nat) : option (list string) :=
  Player.handCards <$> Data.players (Game.data g) !! i.

Definition flowersOf (g : Game.t) (i : nat) : option (list string) :=
  Player.flowerCards <$> Data.players (Game.data g) !! i.

(** The game an accepted discard leaves before the turn moves on: the
    card moved to the seat's discard pile, the discard recorded, the
    claims collected. *)
Definition discarded (now pos : nat) (cardId : string) (g : Game.t)
  (player : Player.t) (cardIndex : nat) : Game.t :=
  let player1 :=
    Player.set_discardedCards (Player.discardedCards player ++ [cardId])
      (Player.set_handCards (delete cardIndex (Player.handCards player)) player) in
  let g2 :=
    Game.set_data
      (Data.set_discard cardId PLAYER_ACTIONS.DISCARD
         (History.mk pos PLAYER_ACTIONS.DISCARD [cardId] now))
      (Game.set_player pos player1 g) in
  Game.set_data (Data.set_players (imap (marked g2 cardId) (Data.players (Game.data g2)))) g2.

(** Two seats that differ at most in which concealed cards they hold,
    not in how many, and in the actions marked on them in memory. *)
Definition sameButHand (p q : Player.t) : Prop :=
  Player.set_availableActions None (Player.set_handCards [] p)
  = Player.set_availableActions None (Player.set_handCards [] q)
  /\ length (Player.handCards p) = length (Player.handCards q).

(** Two documents a viewer cannot tell apart by the rules of the spec:
    every field other than the players and the wall is the same, the walls
    have the same size, and seat by seat the players differ at most in the
    contents of a concealed hand that is not the viewer's. *)
Definition sameForViewer (viewer : string) (d1 d2 : Data.t) : Prop :=
  Data.set_deck [] (Data.set_players [] d1) = Data.set_deck [] (Data.set_players [] d2)
  /\ length (Data.deck d1) = length (Data.deck d2)
  /\ Forall2 (fun p q => sameButHand p q
                         /\ (Player.userId p = viewer -> Player.handCards p = Player.handCards q))
             (Data.players d1) (Data.players d2).

(** What a snapshot shows of a seat: who sits there and where, the number
    of concealed cards, and the discard pile, the exposed groups and the
    flowers in full. *)
Definition shows (p : Player.t) (sp : Snapshot.player) : Prop :=
  Snapshot.userId sp = Player.userId p
  /\ Snapshot.position sp = Player.position p
  /\ Snapshot.handCardCount sp = length (Player.handCards p)
  /\ Snapshot.discardedCards sp = Player.discardedCards p
  /\ Snapshot.exposedCards sp = Player.exposedCards p
  /\ Snapshot.flowerCards sp = Player.flowerCards p.

(** What a snapshot taken from a game shows of it: the phase, the seat to
    move, the last discard, the size of the deck of the [Game] object, and
    every seat as [shows] has it. *)
Definition showsGame (g : Game.t) (s : Snapshot.t) : Prop :=
  Snapshot.state s = Data.state (Game.data g)
  /\ Snapshot.currentPlayer s = Data.currentPlayer (Game.data g)
  /\ Snapshot.lastDiscardedCard s = Data.lastDiscardedCard (Game.data g)
  /\ Snapshot.remainingCards s = length (Game.deck g)
  /\ Forall2 shows (Data.players (Game.data g)) (Snapshot.players s).

Definition sameView (viewer : string) (g1 g2 : Game.t) : Prop :=
  sameForViewer viewer (Game.data g1) (Game.data g2)
  /\ length (Game.deck g1) = length (Game.deck g2).

(** The dealt game of [Scenario] with other cards in the hand of seat 2,
    a chi marked on that seat and the wall in the opposite order. *)
Definition otherDeal : Game.t :=
  match Data.players (Game.data Scenario.dealt) !! 2 with
  | Some p =>
      Game.mk (Game.data (Game.set_player 2
                            (Player.set_availableActions (Some [PLAYER_ACTIONS.CHI])
                               (Player.set_handCards (repeat "zi_7" 13) p))
                            Scenario.dealt))
              (rev (Game.deck Scenario.dealt))
  | None => Scenario.dealt
  end.

(** The tiles a seat accounts for: concealed hand, exposed groups,
    discard pile and flower area. *)
Definition exposedCount (p : Player.t) : nat :=
  sum_list_with (fun group => length (Exposed.cards group)) (Player.exposedCards p).

Definition playerTiles (p : Player.t) : nat :=
  length (Player.handCards p) + exposedCount p
  + length (Player.discardedCards p) + length (Player.flowerCards p).

(** The wall plus the tiles of every seat. *)
Definition totalTiles (g : Game.t) : nat :=
  length (Game.deck g) + sum_list_with playerTiles (Data.players (Game.data g)).

(** The games reached from a new [Game] by [initialize] and [dealCards]
    and then by accepted discards, each with the advance of the turn and
    the draw it ends with. *)
Inductive reachable : Game.t -> Prop :=
| reach_deal (gameData : Data.t) (rnd : nat -> nat) (users : list string) (mode : string)
             (fuel : nat) (g0 g : Game.t) :
    Game.initialize rnd users mode (Game.new gameData) = (Ok tt, g0) ->
    Game.dealCards fuel g0 = (Ok tt, g) ->
    reachable g
| reach_discard (now pos : nat) (cardId : string) (g g' : Game.t) :
    reachable g ->
    Game.playerDiscard now pos cardId g = (Ok tt, g') ->
    reachable g'.

(** Card ids that read as flowers, in the hands and in the wall. *)
Definition flowersInHand (p : Player.t) : nat :=
  length (List.filter Game.isFlowerId (Player.handCards p)).

Definition flowersInPlay (g : Game.t) : nat :=
  sum_list_with flowersInHand (Data.players (Game.data g))
  + length (List.filter (fun c => Game.isFlowerId (Card.id c)) (Game.deck g)).

(** A seat whose concealed hand holds no card that reads as a flower. *)
Definition noFlower (p : Player.t) : Prop :=
  Forall (fun cardId => Game.isFlowerId cardId = false) (Player.handCards p).

(** A card id of the 144-card deck. *)
Definition deckIds : list string := map Card.id CardDeck.initializeDeck.

Definition isDeckId (cardId : string) : bool := existsb (String.eqb cardId) deckIds.

(** How many cards of a hand are the id [cardId] (by [===]). *)
Definition countId (cardId : string) (handCards : list string) : nat :=
  length (List.filter (fun h => String.eqb h cardId) handCards).

(** The cards of a hand other than [cardId], in their order. *)
Definition otherIds (cardId : string) (handCards : list string) : list string :=
  List.filter (fun h => negb (String.eqb h cardId)) handCards.

(** A list without its first [k] cards equal to [cardId]. *)
Fixpoint removeFirst (k : nat) (cardId : string) (l : list string) : list string :=
  match l with
  | [] => []
  | x :: rest =>
      if (0 <? k) && String.eqb x cardId then removeFirst (k - 1) cardId rest
      else x :: removeFirst k cardId rest
  end.

(** The ids of the eight flower cards of the deck. *)
Definition flowerIds : list string :=
  ["hua_1"; "hua_2"; "hua_3"; "hua_4"; "hua_5"; "hua_6"; "hua_7"; "hua_8"].

(** A flower card id whose wind is the seat's wind. *)
Definition ownFlower (feng : option string) (cardId : string) : bool :=
  let card := Game.getCardById cardId in
  Card.isFlower card
  && match Card.getFlowerFeng card, feng with
     | Some flowerFeng, Some playerFeng => String.eqb flowerFeng playerFeng
     | _, _ => false
     end.



(** The card ids a seat accounts for, and all the card ids of a game:
    the wall, then seat by seat the concealed hand, the exposed groups,
    the discard pile and the flower area. *)
Definition playerCards (p : Player.t) : list string :=
  Player.handCards p ++ concat (map Exposed.cards (Player.exposedCards p))
  ++ Player.discardedCards p ++ Player.flowerCards p.

Definition allCards (g : Game.t) : list string :=
  map Card.id (Game.deck g) ++ concat (map playerCards (Data.players (Game.data g))).

(** The users and the seats of the members of a room, in the order of
    its [players]. *)
Definition memberIds (room : Room.t) : list string :=
  map Member.userId (Room.players room).

Definition seatsTaken (room : Room.t) : list nat :=
  map Member.position (Room.players room).

(** A room in order: no user is a member twice, no seat is taken twice,
    every seat is below [maxPlayers] and the members are not more than
    [maxPlayers]. *)
Definition roomWf (room : Room.t) : Prop :=
  List.NoDup (memberIds room)
  /\ List.NoDup (seatsTaken room)
  /\ Forall (fun position => position < Room.maxPlayers room) (seatsTaken room)
  /\ length (Room.players room) <= Room.maxPlayers room.

(** One call of a method of [Room] that returns. *)
Inductive roomStep : Room.t -> Room.t -> Prop :=
| step_joinRoom (now : nat) (userId nickname avatar : string) (position : nat)
                (room room' : Room.t) :
    Room.joinRoom now userId nickname avatar room = (Ok position, room') ->
    roomStep room room'
| step_leaveRoom (now : nat) (userId : string) (room room' : Room.t) :
    Room.leaveRoom now userId room = (Ok tt, room') ->
    roomStep room room'
| step_playerReady (now : nat) (userId : string) (isReady allReady : bool)
                   (room room' : Room.t) :
    Room.playerReady now userId isReady room = (Ok allReady, room') ->
    roomStep room room'
| step_startGame (room room' : Room.t) :
    Room.startGame room = (Ok tt, room') ->
    roomStep room room'
| step_gameFinished (gameResult : GameResult.t) (room room' : Room.t) :
    Room.gameFinished gameResult room = (Ok tt, room') ->
    roomStep room room'
| step_updatePlayerActivity (now : nat) (userId : string) (room room' : Room.t) :
    Room.updatePlayerActivity now userId room = (Ok tt, room') ->
    roomStep room room'
| step_dissolveRoom (room room' : Room.t) :
    Room.dissolveRoom room = (Ok tt, room') ->
    roomStep room room'.

(** The rooms reached by such calls from a room without players, as
    [createRoom] makes it. *)
Inductive roomReachable : Room.t -> Prop :=
| reach_created (room : Room.t) :
    Room.players room = [] -> roomReachable room
| reach_step (room room' : Room.t) :
    roomReachable room -> roomStep room room' -> roomReachable room'.

End Props.

Import Props.

(** From [H : m g = (r, g')] to the game [g'] itself, without reducing it. *)
Ltac run_to H g' := apply (f_equal snd) in H; cbn [snd] in H; subst g'.

(* ===================================================================== *)
(** ** Cards and their ids *)
(* ===================================================================== *)

Section CardIdentity.

Lemma fromJSON_toJSON (c : Card.t) : Card.fromJSON (Card.toJSON c) = c.
Proof. destruct c as [ty v]. reflexivity. Qed.

Lemma equals_eq (c d : Card.t) : Card.equals c d = true -> c = d.
Proof.
  destruct c as [ty v], d as [ty' v']. unfold Card.equals. cbn.
  intros H. apply andb_prop in H as [Hty Hv].
  apply String.eqb_eq in Hty. subst ty'.
  destruct v as [|x|sx], v' as [|y|sy]; cbn in Hv; try discriminate.
  - apply Z.eqb_eq in Hv. now subst.
  - apply Bool.eqb_prop in Hv. now subst.
Qed.

Lemma equals_refl_int (ty : string) (z : Z) :
  Card.equals (Card.new ty (JS.Int z)) (Card.new ty (JS.Int z)) = true.
Proof. unfold Card.equals. cbn. now rewrite String.eqb_refl, Z.eqb_refl. Qed.

(** Every card of the deck is read back from its id. *)
Lemma deck_ids_parse :
  forallb (fun c => Card.equals (Game.getCardById (Card.id c)) c) CardDeck.initializeDeck
  = true.
Proof. vm_compute. reflexivity. Qed.

(** C10. For every card of the 144-card deck, [getCardById] applied to
    its id and [Card.fromJSON] applied to its [toJSON] both give back the
    card itself (same type and value, so [equals] holds); and two cards of
    the deck that are equal have the same id string. *)
Theorem card_identity_roundtrip (c d : Card.t) :
  In c CardDeck.initializeDeck ->
  In d CardDeck.initializeDeck ->
  Game.getCardById (Card.id c) = c
  /\ Card.equals (Game.getCardById (Card.id c)) c = true
  /\ Card.fromJSON (Card.toJSON c) = c
  /\ Card.equals (Card.fromJSON (Card.toJSON c)) c = true
  /\ (Card.equals c d = true -> Card.id c = Card.id d).
Proof.
  intros Hc Hd.
  pose proof deck_ids_parse as Hall.
  rewrite forallb_forall in Hall. specialize (Hall c Hc).
  pose proof (equals_eq _ _ Hall) as Heq.
  repeat split.
  - exact Heq.
  - exact Hall.
  - apply fromJSON_toJSON.
  - rewrite fromJSON_toJSON. rewrite Heq in Hall. exact Hall.
  - intros H. apply equals_eq in H. now subst.
Qed.

Lemma card_identity_roundtrip_witness :
  let c := Card.new "wan" (JS.Int 5) in
  Game.getCardById (Card.id c) = c
  /\ Card.equals (Game.getCardById (Card.id c)) c = true
  /\ Card.fromJSON (Card.toJSON c) = c
  /\ Card.equals (Card.fromJSON (Card.toJSON c)) c = true
  /\ (Card.equals c c = true -> Card.id c = Card.id c).
Proof.
  apply (card_identity_roundtrip (Card.new "wan" (JS.Int 5)) (Card.new "wan" (JS.Int 5)));
    vm_compute; tauto.
Defined.

End CardIdentity.

(* ===================================================================== *)
(** ** The win check *)
(* ===================================================================== *)

Section WinCheck.

Lemma completeHand_complete : Spec_complete (map Game.getCardById completeHand) 0.
Proof.
  exists (Card.new "wan" (JS.Int 9)).
  exists [ [Card.new "wan" (JS.Int 1); Card.new "wan" (JS.Int 1); Card.new "wan" (JS.Int 1)];
           [Card.new "wan" (JS.Int 2); Card.new "wan" (JS.Int (2 + 1));
            Card.new "wan" (JS.Int (2 + 2))];
           [Card.new "wan" (JS.Int 5); Card.new "wan" (JS.Int (5 + 1));
            Card.new "wan" (JS.Int (5 + 2))];
           [Card.new "wan" (JS.Int 8); Card.new "wan" (JS.Int 8); Card.new "wan" (JS.Int 8)] ].
  split; [reflexivity |]. split.
  - repeat constructor.
  - change (map Game.getCardById completeHand)
      with ([Card.new "wan" (JS.Int 1); Card.new "wan" (JS.Int 1); Card.new "wan" (JS.Int 1);
             Card.new "wan" (JS.Int 2); Card.new "wan" (JS.Int 3); Card.new "wan" (JS.Int 4);
             Card.new "wan" (JS.Int 5); Card.new "wan" (JS.Int 6); Card.new "wan" (JS.Int 7);
             Card.new "wan" (JS.Int 8); Card.new "wan" (JS.Int 8); Card.new "wan" (JS.Int 8)]
            ++ [Card.new "wan" (JS.Int 9); Card.new "wan" (JS.Int 9)]).
    apply Permutation_app_comm.
Qed.

(** Whatever the tiles, [isWinningHand] answers false. *)
Lemma isWinningHand_false (handCards : list string) (exposedCards : list Exposed.t) :
  Game.isWinningHand handCards exposedCards = false.
Proof. unfold Game.isWinningHand. now destruct (negb _). Qed.

Lemma canHu_false (pos : nat) (cardId : option string) (g : Game.t) (b : bool) (g' : Game.t) :
  Game.canHu pos cardId g = (Ok b, g') -> b = false /\ g' = g.
Proof.
  unfold Game.canHu. destruct (Data.players (Game.data g) !! pos); [| discriminate].
  rewrite isWinningHand_false. intros H. now inversion H.
Qed.

(** C2, at the spec's own example. The fourteen tiles 1-1-1, 2-3-4,
    5-6-7, 8-8-8, 9-9 of one suit form one pair plus four groups, yet
    [isWinningHand] returns false on them, directly and through [canHu]
    when the last 9 is the discard. *)
Theorem isWinningHand_rejects_complete_hand :
  Spec_complete (map Game.getCardById completeHand) 0
  /\ Game.isWinningHand completeHand [] = false
  /\ Game.canHu 1 (Some "wan_9") waitingGame = (Ok false, waitingGame).
Proof.
  split; [apply completeHand_complete |].
  split; reflexivity.
Qed.

End WinCheck.

(* ===================================================================== *)
(** ** Rejected discards *)
(* ===================================================================== *)

Section RejectedDiscard.

Lemma indexOf_None (l : list string) (x : string) :
  JS.indexOf l x = None <-> ~ In x l.
Proof.
  induction l as [|y l IH]; cbn.
  - tauto.
  - destruct (String.eqb_spec y x) as [-> | Hne].
    + split; [discriminate | intros H; exfalso; apply H; now left].
    + destruct (JS.indexOf l x); cbn.
      * split; [discriminate |]. intros H. exfalso. apply H. right.
        destruct IH as [_ IH]. destruct (in_dec string_dec x l) as [Hin | Hnin];
          [exact Hin | now specialize (IH Hnin)].
      * split; [| reflexivity]. intros _ [Heq | Hin]; [congruence |].
        now apply IH.
Qed.

Lemma indexOf_Some (l : list string) (x : string) (i : nat) :
  JS.indexOf l x = Some i -> l !! i = Some x.
Proof.
  revert i. induction l as [|y l IH]; cbn; intros i H; [discriminate |].
  destruct (String.eqb_spec y x) as [-> | Hne].
  - now inversion H.
  - destruct (JS.indexOf l x) as [j|]; cbn in H; [| discriminate].
    inversion H. subst i. cbn. now apply IH.
Qed.

Lemma state_eqb_PLAYING (s : GAME_STATES.t) :
  GAME_STATES.eqb s GAME_STATES.PLAYING = true <-> s = GAME_STATES.PLAYING.
Proof. destruct s; cbn; split; congruence. Qed.

Lemma playerDiscard_throws (now pos : nat) (cardId : string) (g : Game.t) :
  Data.state (Game.data g) <> GAME_STATES.PLAYING
  \/ Data.currentPlayer (Game.data g) <> pos
  \/ (forall player, Data.players (Game.data g) !! pos = Some player ->
                     ~ In cardId (Player.handCards player)) ->
  exists e, Game.playerDiscard now pos cardId g = (Throw e, g).
Proof.
  intros H. unfold Game.playerDiscard, bind, get, throw.
  destruct (GAME_STATES.eqb (Data.state (Game.data g)) GAME_STATES.PLAYING) eqn:Est; cbn.
  2: { eexists; reflexivity. }
  destruct (Nat.eqb_spec (Data.currentPlayer (Game.data g)) pos) as [Hcur | Hcur]; cbn.
  2: { eexists; reflexivity. }
  destruct H as [H | [H | H]].
  - exfalso. apply H. now apply state_eqb_PLAYING.
  - contradiction.
  - destruct (Data.players (Game.data g) !! pos) as [player|] eqn:Ep.
    2: { eexists; reflexivity. }
    specialize (H player eq_refl). apply indexOf_None in H. rewrite H.
    eexists; reflexivity.
Qed.

(** C9. A discard while the game is not in the playing state, from a seat
    that is not the current one, or of a card id that is not in the acting
    seat's hand throws, and the game object is exactly what it was. *)
Theorem playerDiscard_rejected_unchanged
  (now pos : nat) (cardId : string) (g : Game.t) :
  Data.state (Game.data g) <> GAME_STATES.PLAYING
  \/ Data.currentPlayer (Game.data g) <> pos
  \/ (forall player, Data.players (Game.data g) !! pos = Some player ->
                     ~ In cardId (Player.handCards player)) ->
  exists e, Game.playerDiscard now pos cardId g = (Throw e, g).
Proof. apply playerDiscard_throws. Qed.

Lemma playerDiscard_rejected_unchanged_witness :
  exists e, Game.playerDiscard 1 2 "wan_6" Scenario.dealt = (Throw e, Scenario.dealt).
Proof.
  apply (playerDiscard_rejected_unchanged 1 2 "wan_6" Scenario.dealt).
  right. left. vm_compute. lia.
Defined.

(** The handler answers such a discard with status 500 and saves
    nothing. *)
Lemma controller_playerDiscard_rejected
  (now : nat) (gameData : Data.t) (userId cardId : string) (player : Player.t) :
  GameController.findPlayer gameData userId = Some player ->
  Data.state gameData <> GAME_STATES.PLAYING
  \/ Data.currentPlayer gameData <> Player.position player
  \/ (forall p, Data.players gameData !! Player.position player = Some p ->
                ~ In cardId (Player.handCards p)) ->
  exists message,
    GameController.playerDiscard now (Some gameData) userId cardId
    = (GameController.Failure 500 message, None).
Proof.
  intros Hfind H. unfold GameController.playerDiscard. rewrite Hfind.
  destruct (playerDiscard_throws now (Player.position player) cardId
              (Game.new gameData) H) as [e He].
  rewrite He. eexists; reflexivity.
Qed.

End RejectedDiscard.

(* ===================================================================== *)
(** ** Collecting the claims on a discard *)
(* ===================================================================== *)

Section Claims.

Lemma set_player_same (i : nat) (p : Player.t) (g : Game.t) :
  Data.players (Game.data g) !! i = Some p -> Game.set_player i p g = g.
Proof.
  intros H. destruct g as [d cards]. destruct d. unfold Game.set_player, Game.set_data.
  cbn in *. unfold Data.set_players. cbn. now rewrite list_insert_id.
Qed.

Lemma set_players_same (g : Game.t) :
  Game.set_data (Data.set_players (Data.players (Game.data g))) g = g.
Proof. destruct g as [d cards]. now destruct d. Qed.

Lemma set_player_players (i : nat) (p : Player.t) (g : Game.t) :
  Data.players (Game.data (Game.set_player i p g)) = <[i := p]> (Data.players (Game.data g)).
Proof. reflexivity. Qed.

Lemma set_players_twice (l1 l2 : list Player.t) (g : Game.t) :
  Game.set_data (Data.set_players l2) (Game.set_data (Data.set_players l1) g)
  = Game.set_data (Data.set_players l2) g.
Proof. reflexivity. Qed.

Lemma set_player_as_players (i : nat) (p : Player.t) (g : Game.t) :
  Game.set_player i p g
  = Game.set_data (Data.set_players (<[i := p]> (Data.players (Game.data g)))) g.
Proof. reflexivity. Qed.

(** A [forEach] over the indices of the players whose callback rewrites
    the player at its index rewrites every player. *)
Lemma forEach_players (body : nat -> M Game.t unit) (f : nat -> Player.t -> Player.t) :
  (forall i g p, Data.players (Game.data g) !! i = Some p ->
                 body i g = (Ok tt, Game.set_player i (f i p) g)) ->
  forall n k g,
    k + n = length (Data.players (Game.data g)) ->
    forEach (seq k n) body g
    = (Ok tt,
       Game.set_data
         (Data.set_players (take k (Data.players (Game.data g))
                            ++ imap (fun j => f (k + j)) (drop k (Data.players (Game.data g)))))
         g).
Proof.
  intros Hbody. induction n as [|n IH]; intros k g Hlen.
  - cbn. unfold ret. f_equal.
    rewrite drop_ge by lia. rewrite take_ge by lia. cbn. rewrite app_nil_r.
    symmetry. apply set_players_same.
  - cbn [seq forEach]. unfold bind.
    destruct (lookup_lt_is_Some_2 (Data.players (Game.data g)) k) as [p Hp]; [lia |].
    rewrite (Hbody k g p Hp).
    rewrite IH by (rewrite set_player_players, length_insert; lia).
    f_equal. rewrite set_player_players, set_player_as_players, set_players_twice.
    f_equal. f_equal.
    rewrite (take_S_r _ _ (f k p)).
    2: { apply list_lookup_insert_eq. now apply lookup_lt_Some in Hp. }
    rewrite take_insert_ge by lia.
    rewrite drop_insert_lt by lia.
    rewrite (drop_S _ _ _ Hp). cbn [imap]. rewrite Nat.add_0_r.
    rewrite <- app_assoc. cbn. f_equal. f_equal.
    apply imap_ext. intros j x _. cbn. f_equal. lia.
Qed.

Lemma canChi_run (index : nat) (cardId : string) (g : Game.t) (p : Player.t) :
  Data.players (Game.data g) !! index = Some p ->
  Game.canChi index (Some cardId) g = (Ok (chiOf cardId p), g).
Proof.
  intros Hp. unfold Game.canChi, chiOf. rewrite Hp.
  now destruct (negb (Card.isNumber (Game.getCardById cardId))).
Qed.

Lemma checkPlayer_run (cur : nat) (cardId : string) (index : nat) (g : Game.t) (p : Player.t) :
  Data.players (Game.data g) !! index = Some p ->
  Game.checkPlayer cur cardId index g = (Ok tt, Game.set_player index (mark cur cardId index p) g).
Proof.
  intros Hp. unfold Game.checkPlayer, mark.
  destruct (index =? cur) eqn:Ecur.
  - unfold ret. now rewrite set_player_same.
  - unfold bind at 1. unfold Game.canHu at 1. rewrite Hp.
    unfold bind at 1. unfold Game.canGang at 1. rewrite Hp.
    unfold bind at 1. unfold Game.canPeng at 1. rewrite Hp.
    unfold bind at 1.
    assert (Hchi : (if index =? (cur + 1) mod 4
                    then Game.canChi index (Some cardId) else ret false) g
                   = (Ok ((index =? (cur + 1) mod 4) && chiOf cardId p), g)).
    { destruct (index =? (cur + 1) mod 4); [now apply canChi_run | reflexivity]. }
    rewrite Hchi. fold (huOf cardId p).
    destruct (0 <? length _) eqn:Elen.
    + unfold bind, get, modify. now rewrite Hp.
    + unfold ret. now rewrite set_player_same.
Qed.

Lemma filter_priorityOrder (g : Game.t) (discarder : nat) (cardId : string) (index : nat) :
  List.filter (eligible g discarder cardId index) priorityOrder
  = Game.actionsOf (eligible g discarder cardId index PLAYER_ACTIONS.HU)
                   (eligible g discarder cardId index PLAYER_ACTIONS.GANG)
                   (eligible g discarder cardId index PLAYER_ACTIONS.PENG)
                   (eligible g discarder cardId index PLAYER_ACTIONS.CHI).
Proof.
  unfold priorityOrder, Game.actionsOf. cbn [List.filter].
  destruct (eligible g discarder cardId index PLAYER_ACTIONS.HU),
           (eligible g discarder cardId index PLAYER_ACTIONS.GANG),
           (eligible g discarder cardId index PLAYER_ACTIONS.PENG),
           (eligible g discarder cardId index PLAYER_ACTIONS.CHI); reflexivity.
Qed.

Lemma marked_mark (g : Game.t) (cardId : string) (index : nat) (p : Player.t) :
  Data.players (Game.data g) !! index = Some p ->
  marked g cardId index p = mark (Data.currentPlayer (Game.data g)) cardId index p.
Proof.
  intros Hp. unfold marked, mark. destruct (index =? _); [reflexivity |].
  rewrite filter_priorityOrder. unfold eligible, answers.
  unfold Game.canHu, Game.canGang, Game.canPeng. rewrite (canChi_run _ _ _ _ Hp), Hp.
  cbn [fst]. fold (huOf cardId p).
  destruct (Game.actionsOf _ _ _ _); reflexivity.
Qed.

(** What [checkPlayerActions] leaves: every seat rewritten by [marked]. *)
Lemma checkPlayerActions_run (cardId : string) (g : Game.t) :
  Game.checkPlayerActions cardId g
  = (Ok tt,
     Game.set_data (Data.set_players (imap (marked g cardId) (Data.players (Game.data g)))) g).
Proof.
  unfold Game.checkPlayerActions, bind, get.
  rewrite (forEach_players _ (mark (Data.currentPlayer (Game.data g)) cardId)).
  - f_equal. rewrite take_0, drop_0. cbn. f_equal. f_equal.
    apply imap_ext. intros i x Hx. symmetry. now apply marked_mark.
  - intros i g0 p Hp. now apply checkPlayer_run.
  - reflexivity.
Qed.

(** C3, as the code has it. [checkPlayerActions] selects no seat: it
    leaves the discarder untouched and writes on every other seat the list
    of all the claims that seat is eligible for (Hu, Gang, Peng, Chi in
    this order, Chi for the seat after the discarder only); a seat's claim
    is kept whatever another seat may claim, and nothing else of the game
    changes. *)
Theorem checkPlayerActions_marks_every_eligible_claim (cardId : string) (g : Game.t) :
  Game.checkPlayerActions cardId g
  = (Ok tt,
     Game.set_data (Data.set_players (imap (marked g cardId) (Data.players (Game.data g)))) g).
Proof. apply checkPlayerActions_run. Qed.

(** C3, the claim as stated fails: after seat 0 discards its 5 of wan,
    seat 3 can gang and peng and seat 1 can chi; the chi of seat 1 and the
    peng of seat 3 are both still on offer beside the gang, and the turn
    has moved on to seat 1, which has drawn. *)
Lemma claims_not_arbitrated :
  let g := Scenario.afterDiscard in
  fst (Game.playerDiscard 1 0 "wan_5" Scenario.dealt) = Ok tt
  /\ (Player.availableActions <$> Data.players (Game.data g) !! 1)
     = Some (Some [PLAYER_ACTIONS.CHI])
  /\ (Player.availableActions <$> Data.players (Game.data g) !! 3)
     = Some (Some [PLAYER_ACTIONS.GANG; PLAYER_ACTIONS.PENG])
  /\ Data.currentPlayer (Game.data g) = 1
  /\ Data.state (Game.data g) = GAME_STATES.PLAYING
  /\ (length <$> (Player.handCards <$> Data.players (Game.data g) !! 1)) = Some 14.
Proof. vm_compute. repeat split; reflexivity. Qed.

End Claims.

(* ===================================================================== *)
(** ** An accepted discard and the advance of the turn *)
(* ===================================================================== *)

Section Turn.

Lemma playerDiscard_inv (now pos : nat) (cardId : string) (g g' : Game.t) (r : result unit) :
  Game.playerDiscard now pos cardId g = (r, g') ->
  (exists e, r = Throw e /\ g' = g)
  \/ exists player cardIndex,
       Data.state (Game.data g) = GAME_STATES.PLAYING
       /\ Data.currentPlayer (Game.data g) = pos
       /\ Data.players (Game.data g) !! pos = Some player
       /\ JS.indexOf (Player.handCards player) cardId = Some cardIndex
       /\ Game.nextPlayer (discarded now pos cardId g player cardIndex) = (r, g').
Proof.
  unfold Game.playerDiscard. unfold bind at 1. unfold get at 1.
  destruct (GAME_STATES.eqb (Data.state (Game.data g)) GAME_STATES.PLAYING) eqn:Est; cbn [negb].
  2: { unfold throw. intros H. inversion H. left. eauto. }
  destruct (Nat.eqb_spec (Data.currentPlayer (Game.data g)) pos) as [Hcur | Hcur]; cbn [negb].
  2: { unfold throw. intros H. inversion H. left. eauto. }
  destruct (Data.players (Game.data g) !! pos) as [player|] eqn:Ep.
  2: { unfold throw. intros H. inversion H. left. eauto. }
  destruct (JS.indexOf (Player.handCards player) cardId) as [cardIndex|] eqn:Ei.
  2: { unfold throw. intros H. inversion H. left. eauto. }
  unfold bind at 1. unfold modify at 1.
  unfold bind at 1. unfold modify at 1.
  unfold bind at 1. rewrite checkPlayerActions_run.
  intros H. right. exists player, cardIndex.
  split; [now apply state_eqb_PLAYING |]. repeat split; try assumption.
Qed.

Lemma marked_handCards (g : Game.t) (cardId : string) (i : nat) (p : Player.t) :
  Player.handCards (marked g cardId i p) = Player.handCards p.
Proof. unfold marked. destruct (i =? _); [reflexivity |]. now destruct (List.filter _ _). Qed.

Lemma marked_flowerCards (g : Game.t) (cardId : string) (i : nat) (p : Player.t) :
  Player.flowerCards (marked g cardId i p) = Player.flowerCards p.
Proof. unfold marked. destruct (i =? _); [reflexivity |]. now destruct (List.filter _ _). Qed.

Lemma marked_discardedCards (g : Game.t) (cardId : string) (i : nat) (p : Player.t) :
  Player.discardedCards (marked g cardId i p) = Player.discardedCards p.
Proof. unfold marked. destruct (i =? _); [reflexivity |]. now destruct (List.filter _ _). Qed.

Lemma marked_exposedCards (g : Game.t) (cardId : string) (i : nat) (p : Player.t) :
  Player.exposedCards (marked g cardId i p) = Player.exposedCards p.
Proof. unfold marked. destruct (i =? _); [reflexivity |]. now destruct (List.filter _ _). Qed.

Lemma discarded_players (now pos : nat) (cardId : string) (g : Game.t)
  (player : Player.t) (cardIndex : nat) (i : nat) :
  Data.players (Game.data (discarded now pos cardId g player cardIndex)) !! i
  = marked (Game.set_data
              (Data.set_discard cardId PLAYER_ACTIONS.DISCARD
                 (History.mk pos PLAYER_ACTIONS.DISCARD [cardId] now))
              (Game.set_player pos
                 (Player.set_discardedCards (Player.discardedCards player ++ [cardId])
                    (Player.set_handCards (delete cardIndex (Player.handCards player)) player))
                 g))
           cardId i
    <$> <[pos := Player.set_discardedCards (Player.discardedCards player ++ [cardId])
                   (Player.set_handCards (delete cardIndex (Player.handCards player)) player)]>
          (Data.players (Game.data g)) !! i.
Proof. unfold discarded. cbn. now rewrite list_lookup_imap. Qed.

Lemma discarded_handOf (now pos : nat) (cardId : string) (g : Game.t)
  (player : Player.t) (cardIndex : nat) (i : nat) :
  i <> pos ->
  handOf (discarded now pos cardId g player cardIndex) i = handOf g i.
Proof.
  intros Hne. unfold handOf. rewrite discarded_players.
  rewrite list_lookup_insert_ne by congruence.
  destruct (Data.players (Game.data g) !! i); cbn; [| reflexivity].
  now rewrite marked_handCards.
Qed.


Lemma next_seat_differs (pos : nat) : (pos + 1) mod 4 <> pos.
Proof.
  pose proof (Nat.mod_upper_bound (pos + 1) 4 ltac:(lia)) as Hlt.
  destruct (Nat.lt_ge_cases pos 4) as [Hpos | Hpos]; [| lia].
  destruct pos as [|[|[|[|pos]]]]; cbn; lia.
Qed.

Lemma hasCards_snoc (rest : CardDeck.t) (top : Card.t) :
  CardDeck.hasCards (rest ++ [top]) = true.
Proof. unfold CardDeck.hasCards. rewrite length_app. apply Nat.ltb_lt. cbn. lia. Qed.

Lemma drawCard_snoc (rest : CardDeck.t) (top : Card.t) :
  CardDeck.drawCard (rest ++ [top]) = (Some top, rest).
Proof.
  unfold CardDeck.drawCard, JS.pop. now rewrite last_snoc, removelast_last.
Qed.

Lemma hasCards_false (cards : CardDeck.t) : CardDeck.hasCards cards = false <-> cards = [].
Proof.
  unfold CardDeck.hasCards. destruct cards; cbn; split; congruence.
Qed.

Lemma nextPlayer_empty (g : Game.t) :
  Game.deck g = [] ->
  Game.nextPlayer g
  = (Ok tt, Game.set_data (Data.set_currentPlayer ((Data.currentPlayer (Game.data g) + 1) mod 4)) g).
Proof. intros H. unfold Game.nextPlayer. cbn. now rewrite H. Qed.

(** The draw and the sweep of [nextPlayer] when the wall has a card. *)
Lemma nextPlayer_draw (g g' : Game.t) (rest : CardDeck.t) (top : Card.t) :
  Game.deck g = rest ++ [top] ->
  Game.nextPlayer g = (Ok tt, g') ->
  let next := (Data.currentPlayer (Game.data g) + 1) mod 4 in
  Data.currentPlayer (Game.data g') = next
  /\ Data.state (Game.data g') = Data.state (Game.data g)
  /\ exists hand flowers,
       handOf g next = Some hand
       /\ flowersOf g next = Some flowers
       /\ if Card.isFlower top then
            flowersOf g' next = Some (flowers ++ [Card.id top])
            /\ match last rest with
               | Some supplement =>
                   handOf g' next = Some (hand ++ [Card.id supplement])
                   /\ Game.deck g' = removelast rest
               | None => handOf g' next = Some hand /\ Game.deck g' = []
               end
          else
            handOf g' next = Some (hand ++ [Card.id top])
            /\ flowersOf g' next = Some flowers
            /\ Game.deck g' = rest.
Proof.
  intros Hdeck. unfold Game.nextPlayer. cbn zeta.
  destruct g as [d cards]. cbn in Hdeck. subst cards.
  cbn [Game.deck Game.set_data Game.data].
  rewrite hasCards_snoc, drawCard_snoc.
  replace (Data.players (Data.set_currentPlayer ((Data.currentPlayer d + 1) mod 4) d))
    with (Data.players d) by reflexivity.
  set (next := (Data.currentPlayer d + 1) mod 4).
  destruct (Data.players d !! next) as [player|] eqn:Ep; [| discriminate].
  assert (Hlt : next < length (Data.players d)) by (now apply lookup_lt_Some in Ep).
  unfold handOf, flowersOf. cbn [Game.data]. rewrite Ep. cbn [fmap option_fmap option_map].
  destruct (Card.isFlower top) eqn:Efl.
  - destruct (CardDeck.hasCards rest) eqn:Ehas.
    + unfold CardDeck.drawCard, JS.pop.
      destruct (last rest) as [supplement|] eqn:El.
      2: { discriminate. }
      intros H. inversion H. subst g'. clear H. cbn.
      repeat split. exists (Player.handCards player), (Player.flowerCards player).
      repeat split; rewrite list_lookup_insert_eq by exact Hlt; cbn;
        now rewrite ?removelast_last.
    + apply hasCards_false in Ehas. subst rest. cbn [last].
      intros H. inversion H. subst g'. clear H. cbn.
      repeat split. exists (Player.handCards player), (Player.flowerCards player).
      repeat split; rewrite list_lookup_insert_eq by exact Hlt; cbn;
        now rewrite ?removelast_last.
  - intros H. inversion H. subst g'. clear H. cbn.
    repeat split. exists (Player.handCards player), (Player.flowerCards player).
    repeat split; now rewrite list_lookup_insert_eq by exact Hlt.
Qed.


Lemma discard_turn_empty (now pos : nat) (cardId : string) (g g' : Game.t) :
  Game.playerDiscard now pos cardId g = (Ok tt, g') ->
  Game.deck g = [] ->
  let next := (pos + 1) mod 4 in
  Data.currentPlayer (Game.data g') = next
  /\ Data.state (Game.data g') = GAME_STATES.PLAYING
  /\ Game.deck g' = []
  /\ Data.winner (Game.data g') = Data.winner (Game.data g)
  /\ Data.winType (Game.data g') = Data.winType (Game.data g)
  /\ Data.endTime (Game.data g') = Data.endTime (Game.data g)
  /\ handOf g' next = handOf g next.
Proof.
  intros Hrun Hdeck next.
  apply playerDiscard_inv in Hrun as [[e [He _]] | Hrun]; [discriminate |].
  destruct Hrun as (player & cardIndex & Hst & Hcur & Hp & Hidx & Hnext).
  rewrite nextPlayer_empty in Hnext by exact Hdeck.
  inversion Hnext as [Hg']. clear Hnext.
  pose proof (discarded_handOf now pos cardId g player cardIndex next
                (next_seat_differs pos)) as Hhand.
  destruct g as [d cards]. cbn in Hdeck, Hst, Hcur. subst cards.
  repeat split; try reflexivity; try assumption.
  cbn. now rewrite Hcur.
Qed.




(** C6, as the code has it. When a discard is accepted while the wall is
    empty, the current seat still moves to [(pos + 1) mod 4], that seat
    draws nothing, the wall stays empty, and the game stays in the playing
    state with the winner, win type and end time as they were. *)
Theorem discard_on_empty_wall_keeps_playing
  (now pos : nat) (cardId : string) (g g' : Game.t) :
  Game.playerDiscard now pos cardId g = (Ok tt, g') ->
  Game.deck g = [] ->
  let next := (pos + 1) mod 4 in
  Data.currentPlayer (Game.data g') = next
  /\ Data.state (Game.data g') = GAME_STATES.PLAYING
  /\ Game.deck g' = []
  /\ Data.winner (Game.data g') = Data.winner (Game.data g)
  /\ Data.winType (Game.data g') = Data.winType (Game.data g)
  /\ Data.endTime (Game.data g') = Data.endTime (Game.data g)
  /\ handOf g' next = handOf g next.
Proof. apply discard_turn_empty. Qed.

End Turn.

(* ===================================================================== *)
(** ** The round of [Scenario], step by step *)
(* ===================================================================== *)

Section PlayedRound.

Lemma initialized_run :
  Game.initialize Scenario.rnd Scenario.users GAME_MODES.YAO_BAN_SAN
                  (Game.new Scenario.emptyData)
  = (Ok tt, Scenario.initialized).
Proof. vm_compute. reflexivity. Qed.

Lemma dealt_run : Game.dealCards 9 Scenario.initialized = (Ok tt, Scenario.dealt).
Proof. vm_compute. reflexivity. Qed.

Lemma afterDiscard_run :
  Game.playerDiscard 1 0 "wan_5" Scenario.dealt = (Ok tt, Scenario.afterDiscard).
Proof. vm_compute. reflexivity. Qed.

Lemma wallEmpty_run : Scenario.play 86 Scenario.afterDiscard = (Ok tt, Scenario.wallEmpty).
Proof. vm_compute. reflexivity. Qed.

Lemma wallEmpty_wall : Game.deck Scenario.wallEmpty = [].
Proof. vm_compute. reflexivity. Qed.

Lemma lastDiscard_run :
  Game.playerDiscard 87 3 "tong_8" Scenario.wallEmpty
  = (Ok tt, Scenario.exec (Game.playerDiscard 87 3 "tong_8") Scenario.wallEmpty).
Proof. vm_compute. reflexivity. Qed.


Lemma discard_on_empty_wall_keeps_playing_witness :
  Data.state
    (Game.data (Scenario.exec (Game.playerDiscard 87 3 "tong_8") Scenario.wallEmpty))
  = GAME_STATES.PLAYING.
Proof.
  exact (proj1 (proj2 (discard_on_empty_wall_keeps_playing
                         87 3 "tong_8" Scenario.wallEmpty _
                         lastDiscard_run wallEmpty_wall))).
Defined.

(** C6, the claim as stated fails: in the round played out the wall is
    empty after 86 further discards with no winner; the next discard is
    accepted and leaves the game in the playing state, not finished, with
    no winner and no end time. *)
Lemma wall_exhausted_not_finished :
  Scenario.play 86 Scenario.afterDiscard = (Ok tt, Scenario.wallEmpty)
  /\ Game.deck Scenario.wallEmpty = []
  /\ Data.winner (Game.data Scenario.wallEmpty) = None
  /\ exists g',
       Game.playerDiscard 87 3 "tong_8" Scenario.wallEmpty = (Ok tt, g')
       /\ Data.state (Game.data g') = GAME_STATES.PLAYING
       /\ Data.state (Game.data g') <> GAME_STATES.FINISHED
       /\ Data.winner (Game.data g') = None
       /\ Data.endTime (Game.data g') = None.
Proof.
  split; [apply wallEmpty_run |]. split; [apply wallEmpty_wall |].
  split; [vm_compute; reflexivity |].
  eexists. split; [apply lastDiscard_run |].
  vm_compute. repeat split; congruence.
Qed.


(** Through the handler the same discard is made on [new Game(gameData)],
    whose wall is the full unshuffled deck: seat 1 draws the flower on top
    of it, keeps the next flower in its hand, and the answer reports 142
    cards left although 53 were dealt. *)
Lemma controller_discard_draws_from_new_deck :
  match GameController.playerDiscard 1 (Some (Game.data Scenario.dealt)) "u0" "wan_5" with
  | (GameController.Success snapshot, Some saved) =>
      Snapshot.remainingCards snapshot = 142
      /\ (Player.flowerCards <$> Data.players saved !! 1) = Some ["hua_8"]
      /\ (last <$> (Player.handCards <$> Data.players saved !! 1)) = Some (Some "hua_7")
      /\ length (Data.deck saved) = 144
  | _ => False
  end.
Proof. vm_compute. repeat split; reflexivity. Qed.

End PlayedRound.

(* ===================================================================== *)
(** ** What a snapshot shows *)
(* ===================================================================== *)

Section SnapshotView.

Lemma sameButHand_public (p q : Player.t) :
  sameButHand p q ->
  Snapshot.mkPlayer (Player.userId p) (Player.position p) (Player.feng p)
                    (length (Player.handCards p)) (Player.discardedCards p)
                    (Player.exposedCards p) (Player.flowerCards p) (Player.score p)
  = Snapshot.mkPlayer (Player.userId q) (Player.position q) (Player.feng q)
                      (length (Player.handCards q)) (Player.discardedCards q)
                      (Player.exposedCards q) (Player.flowerCards q) (Player.score q).
Proof.
  intros [Heq Hlen]. destruct p, q. cbn in *.
  unfold Player.set_handCards, Player.set_availableActions in Heq. cbn in Heq.
  inversion Heq. subst. now rewrite Hlen.
Qed.

Lemma sameForViewer_players (viewer : string) (l1 l2 : list Player.t) :
  Forall2 (fun p q => sameButHand p q
                      /\ (Player.userId p = viewer -> Player.handCards p = Player.handCards q))
          l1 l2 ->
  map (fun player =>
         Snapshot.mkPlayer (Player.userId player) (Player.position player)
                           (Player.feng player) (length (Player.handCards player))
                           (Player.discardedCards player) (Player.exposedCards player)
                           (Player.flowerCards player) (Player.score player)) l1
  = map (fun player =>
           Snapshot.mkPlayer (Player.userId player) (Player.position player)
                             (Player.feng player) (length (Player.handCards player))
                             (Player.discardedCards player) (Player.exposedCards player)
                             (Player.flowerCards player) (Player.score player)) l2.
Proof.
  induction 1 as [|p q l1 l2 [Hpq _] _ IH]; cbn; [reflexivity |].
  f_equal; [now apply sameButHand_public | exact IH].
Qed.

(** The seat found for the viewer is at the same place in both documents,
    with the same position and the same hand. *)
Lemma sameForViewer_find (viewer : string) (l1 l2 : list Player.t) :
  Forall2 (fun p q => sameButHand p q
                      /\ (Player.userId p = viewer -> Player.handCards p = Player.handCards q))
          l1 l2 ->
  match List.find (fun p => String.eqb (Player.userId p) viewer) l1,
        List.find (fun p => String.eqb (Player.userId p) viewer) l2 with
  | Some p, Some q =>
      Player.handCards p = Player.handCards q /\ Player.position p = Player.position q
  | None, None => True
  | _, _ => False
  end.
Proof.
  induction 1 as [|p q l1 l2 [[Hpq _] Hown] _ IH]; cbn; [exact I |].
  assert (Hid : Player.userId p = Player.userId q /\ Player.position p = Player.position q).
  { destruct p, q. unfold Player.set_handCards, Player.set_availableActions in Hpq.
    cbn in *. now inversion Hpq. }
  destruct Hid as [Hid Hpos]. rewrite <- Hid.
  destruct (String.eqb_spec (Player.userId p) viewer) as [Hv | Hv].
  - split; [exact (Hown Hv) | exact Hpos].
  - exact IH.
Qed.

Lemma getGameState_sameView (viewer : string) (g1 g2 : Game.t) :
  sameView viewer g1 g2 -> Game.getGameState g1 = Game.getGameState g2.
Proof.
  intros [(Hd & _ & Hps) Hlen]. unfold Game.getGameState, CardDeck.getRemainingCount.
  rewrite (sameForViewer_players _ _ _ Hps), Hlen.
  destruct g1 as [d1 c1], g2 as [d2 c2]. cbn in *. destruct d1, d2. cbn in *.
  unfold Data.set_deck, Data.set_players in Hd. cbn in Hd. now inversion Hd.
Qed.

Lemma controller_getGameState_sameForViewer (viewer : string) (d1 d2 : Data.t) :
  sameForViewer viewer d1 d2 ->
  GameController.getGameState (Some d1) viewer = GameController.getGameState (Some d2) viewer.
Proof.
  intros Hsame. unfold GameController.getGameState, GameController.findPlayer.
  pose proof Hsame as (Hd & _ & Hps).
  pose proof (sameForViewer_find _ _ _ Hps) as Hfind.
  destruct (List.find _ (Data.players d1)) as [p|],
           (List.find _ (Data.players d2)) as [q|]; try contradiction; [| reflexivity].
  destruct Hfind as [Hhand Hpos]. rewrite Hhand, Hpos.
  f_equal. f_equal.
  apply (getGameState_sameView viewer). split; [exact Hsame | reflexivity].
Qed.

(** What [Game.getGameState] shows of a game. *)
Lemma getGameState_shows (g : Game.t) : showsGame g (Game.getGameState g).
Proof.
  unfold showsGame, Game.getGameState, CardDeck.getRemainingCount.
  cbn [Snapshot.state Snapshot.currentPlayer Snapshot.lastDiscardedCard
       Snapshot.remainingCards Snapshot.players].
  repeat split.
  induction (Data.players (Game.data g)) as [|p l IH]; cbn [map]; constructor;
    [repeat split | exact IH].
Qed.

(** What the viewer gets from the handler: its own hand in full and the
    snapshot of the [Game] object the handler builds, whose deck is a new
    one of 144 cards. *)
Lemma controller_view (gameData : Data.t) (viewer : string) (player : Player.t) :
  GameController.findPlayer gameData viewer = Some player ->
  exists v,
    GameController.getGameState (Some gameData) viewer = GameController.Success v
    /\ GameController.myCards v = Player.handCards player
    /\ GameController.myPosition v = Player.position player
    /\ GameController.gameState v = Game.getGameState (Game.new gameData)
    /\ map Snapshot.handCardCount (Snapshot.players (GameController.gameState v))
       = map (fun p => length (Player.handCards p)) (Data.players gameData)
    /\ Snapshot.remainingCards (GameController.gameState v) = 144.
Proof.
  intros Hfind. unfold GameController.getGameState. rewrite Hfind.
  eexists. split; [reflexivity |]. cbn. repeat split.
  now rewrite map_map.
Qed.

(** C7. The snapshot [Game.getGameState] takes of a game shows the phase,
    the seat to move, the last discard, the size of the deck of the [Game]
    object and, of every seat, the discard pile, the exposed groups and the
    flowers in full and the concealed hand as a count; the handler adds
    the viewer's own hand and position to the snapshot of the [Game]
    object it builds from the document. Two games that differ only in the
    contents (not the size) of concealed hands other than the viewer's, in
    the contents (not the size) of the wall and in the actions marked on
    the seats give the same snapshot and the same answer of the handler to
    the viewer. *)
Theorem snapshot_hides_other_hands_and_wall
  (viewer : string) (g1 g2 : Game.t) (player : Player.t) :
  sameView viewer g1 g2 ->
  GameController.findPlayer (Game.data g1) viewer = Some player ->
  showsGame g1 (Game.getGameState g1)
  /\ (exists v,
        GameController.getGameState (Some (Game.data g1)) viewer = GameController.Success v
        /\ GameController.myCards v = Player.handCards player
        /\ GameController.myPosition v = Player.position player
        /\ showsGame (Game.new (Game.data g1)) (GameController.gameState v))
  /\ Game.getGameState g1 = Game.getGameState g2
  /\ GameController.getGameState (Some (Game.data g1)) viewer
     = GameController.getGameState (Some (Game.data g2)) viewer.
Proof.
  intros H Hfind. split; [apply getGameState_shows |]. split; [| split].
  - destruct (controller_view _ _ _ Hfind) as (v & Hv & Hcards & Hpos & Hstate & _).
    exists v. rewrite Hstate. repeat split; try assumption; apply getGameState_shows.
  - now apply (getGameState_sameView viewer).
  - apply controller_getGameState_sameForViewer. apply H.
Qed.

Lemma otherDeal_sameView : sameView "u0" Scenario.dealt otherDeal.
Proof.
  split; [split; [| split] |]; try (vm_compute; reflexivity).
  vm_compute.
  repeat constructor; try reflexivity; intros H; discriminate H.
Qed.

Lemma snapshot_hides_other_hands_and_wall_witness :
  showsGame Scenario.dealt (Game.getGameState Scenario.dealt)
  /\ (exists v,
        GameController.getGameState (Some (Game.data Scenario.dealt)) "u0"
        = GameController.Success v
        /\ GameController.myCards v = Player.handCards Scenario.seat0
        /\ GameController.myPosition v = Player.position Scenario.seat0
        /\ showsGame (Game.new (Game.data Scenario.dealt)) (GameController.gameState v))
  /\ Game.getGameState Scenario.dealt = Game.getGameState otherDeal
  /\ GameController.getGameState (Some (Game.data Scenario.dealt)) "u0"
     = GameController.getGameState (Some (Game.data otherDeal)) "u0".
Proof.
  apply (snapshot_hides_other_hands_and_wall "u0" Scenario.dealt otherDeal Scenario.seat0).
  - exact otherDeal_sameView.
  - vm_compute. reflexivity.
Defined.

(** The two games compared there are different games, also in the actions
    marked on a seat. *)
Lemma otherDeal_differs :
  handOf Scenario.dealt 2 <> handOf otherDeal 2
  /\ Game.deck Scenario.dealt <> Game.deck otherDeal
  /\ (Player.availableActions <$> Data.players (Game.data Scenario.dealt) !! 2)
     <> (Player.availableActions <$> Data.players (Game.data otherDeal) !! 2).
Proof. repeat split; vm_compute; intros H; discriminate H. Qed.

(** The count of remaining cards in the handler's answer is not the size
    of the wall of the game: for the document of the dealt game, whose
    wall has 91 cards, and for the one saved after a discard and a draw,
    when the wall has 89, the viewer is told 144. *)
Lemma controller_snapshot_reports_full_deck :
  Snapshot.remainingCards (Game.getGameState Scenario.dealt) = 91
  /\ Snapshot.remainingCards (Game.getGameState Scenario.afterDiscard) = 89
  /\ (exists v,
        GameController.getGameState (Some (Game.data Scenario.dealt)) "u0"
        = GameController.Success v
        /\ Snapshot.remainingCards (GameController.gameState v) = 144)
  /\ (exists v,
        GameController.getGameState
          (Some (Data.stored (Game.data Scenario.afterDiscard))) "u0"
        = GameController.Success v
        /\ Snapshot.remainingCards (GameController.gameState v) = 144).
Proof.
  split; [vm_compute; reflexivity |]. split; [vm_compute; reflexivity |].
  split; eexists; (split; [vm_compute; reflexivity | reflexivity]).
Qed.

End SnapshotView.

(* ===================================================================== *)
(** ** Counting the tiles *)
(* ===================================================================== *)

Section Conservation.

Lemma sum_insert {A : Type} (f : A -> nat) (l : list A) (i : nat) (x y : A) :
  l !! i = Some x ->
  sum_list_with f (<[i := y]> l) + f x = sum_list_with f l + f y.
Proof.
  revert i. induction l as [|a l IH]; intros i H; [discriminate |].
  destruct i as [|i]; simpl in *.
  - inversion H. subst. lia.
  - specialize (IH i H). lia.
Qed.

Lemma sum_imap_same {A : Type} (w : A -> nat) (f : nat -> A -> A) (l : list A) :
  (forall i x, w (f i x) = w x) ->
  sum_list_with w (imap f l) = sum_list_with w l.
Proof.
  revert f. induction l as [|a l IH]; intros f Hf; simpl; [reflexivity |].
  rewrite Hf, IH; [reflexivity |]. intros i x. apply Hf.
Qed.

Lemma swap_length (cards : CardDeck.t) (i j : nat) :
  length (CardDeck.swap cards i j) = length cards.
Proof.
  unfold CardDeck.swap. destruct (cards !! i), (cards !! j); try reflexivity.
  now rewrite !length_insert.
Qed.

Lemma shuffle_length (rnd : nat -> nat) (cards : CardDeck.t) :
  length (CardDeck.shuffle rnd cards) = length cards.
Proof.
  unfold CardDeck.shuffle. generalize (length cards - 1) as i. intros i.
  revert cards. induction i as [|i IH]; intros cards; cbn; [reflexivity |].
  now rewrite IH, swap_length.
Qed.

Lemma initializeDeck_length : length CardDeck.initializeDeck = 144.
Proof. reflexivity. Qed.

(** What [drawCards] returns and leaves: the drawn cards are the end of
    the wall in reverse, at most [count] of them. *)
Lemma drawCards_loop_spec (count : nat) (cards : CardDeck.t) (drawn drawn' : list Card.t)
  (rest : CardDeck.t) :
  CardDeck.drawCards_loop count cards drawn = (drawn', rest) ->
  exists d, drawn' = drawn ++ d /\ cards = rest ++ rev d /\ length d = Nat.min count (length cards).
Proof.
  revert cards drawn. induction count as [|n IH]; intros cards drawn H; cbn in H.
  - inversion H. subst. exists []. cbn. now rewrite !app_nil_r.
  - unfold CardDeck.drawCard, JS.pop in H.
    destruct (last cards) as [c|] eqn:El.
    + apply last_Some in El as [l' ->]. rewrite removelast_last in H.
      apply IH in H as (d & -> & -> & Hlen).
      exists (c :: d). split; [| split].
      * now rewrite <- app_assoc.
      * cbn [rev]. now rewrite app_assoc.
      * rewrite !length_app in *. cbn [length] in *. lia.
    + inversion H. subst. apply last_None in El. subst. exists []. cbn.
      now rewrite !app_nil_r.
Qed.

Lemma drawCards_spec (count : nat) (cards : CardDeck.t) (drawn : list Card.t)
  (rest : CardDeck.t) :
  CardDeck.drawCards count cards = (drawn, rest) ->
  cards = rest ++ rev drawn /\ length drawn = Nat.min count (length cards).
Proof.
  intros H. apply drawCards_loop_spec in H as (d & -> & -> & Hlen). now cbn.
Qed.

Lemma drawCards_length (count : nat) (cards : CardDeck.t) (drawn : list Card.t)
  (rest : CardDeck.t) :
  CardDeck.drawCards count cards = (drawn, rest) ->
  length drawn + length rest = length cards.
Proof.
  intros H. apply drawCards_spec in H as [-> _].
  rewrite length_app, length_rev. lia.
Qed.

Lemma totalTiles_update (g : Game.t) (i : nat) (p q : Player.t) (cards : CardDeck.t) :
  Data.players (Game.data g) !! i = Some p ->
  totalTiles (Game.mk (Game.data (Game.set_player i q g)) cards)
  + playerTiles p + length (Game.deck g)
  = totalTiles g + playerTiles q + length cards.
Proof.
  intros Hp. unfold totalTiles. cbn [Game.deck Game.data].
  rewrite set_player_players.
  pose proof (sum_insert playerTiles _ i p q Hp). lia.
Qed.

Lemma totalTiles_set_player (g : Game.t) (i : nat) (p q : Player.t) :
  Data.players (Game.data g) !! i = Some p ->
  playerTiles q = playerTiles p ->
  totalTiles (Game.set_player i q g) = totalTiles g.
Proof.
  intros Hp Hq.
  pose proof (totalTiles_update g i p q (Game.deck g) Hp) as H.
  replace (Game.mk (Game.data (Game.set_player i q g)) (Game.deck g))
    with (Game.set_player i q g) in H by reflexivity.
  lia.
Qed.

Lemma initialize_total (rnd : nat -> nat) (users : list string) (mode : string)
  (gameData : Data.t) (g0 : Game.t) :
  Game.initialize rnd users mode (Game.new gameData) = (Ok tt, g0) ->
  length (Game.deck g0) = 144
  /\ Forall (fun p => playerTiles p = 0) (Data.players (Game.data g0)).
Proof.
  intros H. apply (f_equal snd) in H. unfold Game.initialize in H.
  cbv beta zeta in H. cbn [snd] in H. subst g0.
  cbn [Game.deck Game.data Data.players Data.set_deck Data.set_currentPlayer
       Data.set_state Data.set_mode Data.set_players].
  split.
  - rewrite shuffle_length. apply initializeDeck_length.
  - apply Forall_forall. intros p Hin.
    apply elem_of_lookup_imap_1 in Hin as (i & u & -> & _). reflexivity.
Qed.

Lemma playerTiles_dealt (p : Player.t) (hand : list string) :
  playerTiles p = 0 -> playerTiles (Player.set_handCards hand p) = length hand.
Proof. unfold playerTiles, exposedCount. destruct p. cbn. lia. Qed.

Lemma deal_forEach_total (dealer index : nat) (ps ps' : list Player.t)
  (cards cards' : CardDeck.t) :
  Game.deal_forEach dealer index ps cards = (ps', cards') ->
  Forall (fun p => playerTiles p = 0) ps ->
  sum_list_with playerTiles ps' + length cards' = length cards.
Proof.
  revert index ps' cards cards'.
  induction ps as [|p ps IH]; intros index ps' cards cards' H Hzero; cbn in H.
  - inversion H. reflexivity.
  - destruct (CardDeck.drawCards _ cards) as [drawn cards1] eqn:Edraw.
    destruct (Game.deal_forEach dealer (S index) ps cards1) as [rest' cards2] eqn:Erest.
    inversion H. subst ps' cards'. clear H.
    inversion Hzero as [|? ? Hp Hps]. subst.
    apply IH in Erest; [| exact Hps].
    apply drawCards_length in Edraw.
    simpl. rewrite playerTiles_dealt by exact Hp. rewrite length_map. lia.
Qed.

Lemma sweepSeat_total (i : nat) (g g' : Game.t) (r : result bool) :
  Game.sweepSeat i g = (r, g') -> totalTiles g' = totalTiles g.
Proof.
  unfold Game.sweepSeat.
  destruct (Data.players (Game.data g) !! _) as [player|] eqn:Ep.
  2: { intros H. now inversion H. }
  destruct (List.partition Game.isFlowerId (Player.handCards player))
    as [flowerCards remainingCards] eqn:Epart.
  destruct (0 <? length flowerCards).
  2: { intros H. now inversion H. }
  destruct (CardDeck.drawCards (length flowerCards) (Game.deck g)) as [newCards cards1] eqn:Edraw.
  intros H. run_to H g'.
  match goal with
  | |- totalTiles (Game.mk (Game.data (Game.set_player ?i ?q g)) cards1) = _ =>
      pose proof (totalTiles_update g i player q cards1 Ep) as Hupd;
      assert (Hq : playerTiles q + length cards1 = playerTiles player + length (Game.deck g))
  end.
  { apply drawCards_length in Edraw. apply partition_length in Epart.
    unfold playerTiles, exposedCount. destruct player. cbn in *.
    rewrite !length_app, length_map. lia. }
  lia.
Qed.

Lemma sweepSeats_total (seats : list nat) (acc : bool) (g g' : Game.t) (r : result bool) :
  Game.sweepSeats seats acc g = (r, g') -> totalTiles g' = totalTiles g.
Proof.
  revert acc g. induction seats as [|i seats IH]; intros acc g H; cbn in H.
  - unfold ret in H. now inversion H.
  - unfold bind in H. destruct (Game.sweepSeat i g) as [[found| |] g1] eqn:Es.
    + apply IH in H. apply sweepSeat_total in Es. lia.
    + inversion H. subst. now apply sweepSeat_total in Es.
    + inversion H. subst. now apply sweepSeat_total in Es.
Qed.

Lemma handleFlowerCards_S (fuel : nat) (g : Game.t) :
  Game.handleFlowerCards (S fuel) g
  = match Game.sweepSeats [0; 1; 2; 3] false g with
    | (Ok true, g1) => Game.handleFlowerCards fuel g1
    | (Ok false, g1) => (Ok tt, g1)
    | (Throw e, g1) => (Throw e, g1)
    | (OutOfFuel, g1) => (OutOfFuel, g1)
    end.
Proof. reflexivity. Qed.

Lemma handleFlowerCards_total (fuel : nat) (g g' : Game.t) (r : result unit) :
  Game.handleFlowerCards fuel g = (r, g') -> totalTiles g' = totalTiles g.
Proof.
  revert g. induction fuel as [|fuel IH]; intros g H.
  - cbn in H. now inversion H.
  - rewrite handleFlowerCards_S in H. destruct (Game.sweepSeats [0; 1; 2; 3] false g) as [[[|] | |] g1] eqn:Es;
      apply sweepSeats_total in Es.
    + apply IH in H. lia.
    + inversion H. now subst.
    + inversion H. now subst.
    + inversion H. now subst.
Qed.

Lemma dealCards_total (fuel : nat) (g g' : Game.t) :
  Game.dealCards fuel g = (Ok tt, g') ->
  Forall (fun p => playerTiles p = 0) (Data.players (Game.data g)) ->
  totalTiles g' = length (Game.deck g).
Proof.
  unfold Game.dealCards. unfold bind at 1. unfold modify at 1.
  unfold bind at 1. unfold modify at 1.
  cbn [Game.data Game.deck Game.set_data].
  replace (Data.players (Data.set_state GAME_STATES.DEALING (Game.data g)))
    with (Data.players (Game.data g)) by reflexivity.
  replace (Data.dealer (Data.set_state GAME_STATES.DEALING (Game.data g)))
    with (Data.dealer (Game.data g)) by reflexivity.
  destruct (Game.deal_forEach _ 0 (Data.players (Game.data g)) (Game.deck g))
    as [ps cards] eqn:Edeal.
  unfold bind. intros H Hzero.
  match type of H with
  | context [Game.handleFlowerCards fuel ?g1] =>
      destruct (Game.handleFlowerCards fuel g1) as [[[]| |] g2] eqn:Eh; try discriminate
  end.
  unfold modify in H. inversion H. subst g'. clear H.
  apply handleFlowerCards_total in Eh.
  apply deal_forEach_total in Edeal; [| exact Hzero].
  unfold totalTiles in *. cbn in *. lia.
Qed.

Lemma nextPlayer_total (g g' : Game.t) :
  Game.nextPlayer g = (Ok tt, g') -> totalTiles g' = totalTiles g.
Proof.
  destruct (Game.deck g) as [|c0 cards0] eqn:Edeck.
  { rewrite nextPlayer_empty by exact Edeck. intros H. inversion H. reflexivity. }
  destruct (exists_last (l := Game.deck g)) as (rest & top & Hdeck); [congruence |].
  clear Edeck c0 cards0.
  unfold Game.nextPlayer. cbn zeta.
  destruct g as [d cards]. cbn in Hdeck. subst cards.
  cbn [Game.deck Game.set_data Game.data].
  rewrite hasCards_snoc, drawCard_snoc.
  replace (Data.players (Data.set_currentPlayer ((Data.currentPlayer d + 1) mod 4) d))
    with (Data.players d) by reflexivity.
  set (next := (Data.currentPlayer d + 1) mod 4).
  set (d1 := Data.set_currentPlayer next d).
  destruct (Data.players d !! next) as [player|] eqn:Ep; [| discriminate].
  assert (Ep1 : Data.players (Game.data (Game.mk d1 rest)) !! next = Some player) by exact Ep.
  assert (Hbase : totalTiles (Game.mk d (rest ++ [top])) = totalTiles (Game.mk d1 rest) + 1).
  { unfold totalTiles. cbn. rewrite length_app. cbn. lia. }
  rewrite Hbase.
  destruct (Card.isFlower top).
  - destruct (CardDeck.hasCards rest) eqn:Ehas.
    + unfold CardDeck.drawCard, JS.pop.
      destruct (last rest) as [supplement|] eqn:El; [| discriminate].
      apply last_Some in El as [rest2 ->]. rewrite removelast_last.
      intros H. run_to H g'.
      match goal with
      | |- totalTiles (Game.mk (Game.data (Game.set_player next ?q _)) rest2) = _ =>
          pose proof (totalTiles_update (Game.mk d1 (rest2 ++ [supplement])) next player q
                        rest2 Ep1) as Hupd;
          assert (Hq : playerTiles q = playerTiles player + 2)
      end.
      { unfold playerTiles, exposedCount. destruct player. cbn.
        rewrite removelast_last, !length_app. cbn. lia. }
      cbn [Game.deck] in Hupd. rewrite length_app in Hupd. cbn [length] in Hupd. lia.
    + intros H. run_to H g'.
      match goal with
      | |- totalTiles (Game.set_player next ?q _) = _ =>
          pose proof (totalTiles_update (Game.mk d1 rest) next player q rest Ep1) as Hupd;
          assert (Hq : playerTiles q = playerTiles player + 1)
      end.
      { unfold playerTiles, exposedCount. destruct player. cbn.
        rewrite removelast_last, !length_app. cbn. lia. }
      cbn [Game.deck] in Hupd.
      replace (Game.mk (Game.data (Game.set_player next _ (Game.mk d1 rest))) rest)
        with (Game.set_player next
                (Player.set_handCards
                   (snd (JS.pop (Player.handCards
                      (Player.set_handCards (Player.handCards player ++ [Card.id top]) player))))
                   (Player.set_flowerCards
                      (Player.flowerCards
                         (Player.set_handCards (Player.handCards player ++ [Card.id top]) player)
                       ++ [Card.id top])
                      (Player.set_handCards (Player.handCards player ++ [Card.id top]) player)))
                (Game.mk d1 rest)) in Hupd by reflexivity.
      lia.
  - intros H. run_to H g'.
    match goal with
    | |- totalTiles (Game.set_player next ?q _) = _ =>
        pose proof (totalTiles_update (Game.mk d1 rest) next player q rest Ep1) as Hupd;
        assert (Hq : playerTiles q = playerTiles player + 1)
    end.
    { unfold playerTiles, exposedCount. destruct player. cbn.
      rewrite !length_app. cbn. lia. }
    cbn [Game.deck] in Hupd.
    replace (Game.mk (Game.data (Game.set_player next _ (Game.mk d1 rest))) rest)
      with (Game.set_player next
              (Player.set_handCards (Player.handCards player ++ [Card.id top]) player)
              (Game.mk d1 rest)) in Hupd by reflexivity.
    lia.
Qed.

Lemma playerTiles_marked (g : Game.t) (cardId : string) (i : nat) (p : Player.t) :
  playerTiles (marked g cardId i p) = playerTiles p.
Proof.
  unfold playerTiles, exposedCount.
  now rewrite marked_handCards, marked_exposedCards, marked_discardedCards,
    marked_flowerCards.
Qed.

Lemma discarded_total (now pos : nat) (cardId : string) (g : Game.t)
  (player : Player.t) (cardIndex : nat) :
  Data.players (Game.data g) !! pos = Some player ->
  JS.indexOf (Player.handCards player) cardId = Some cardIndex ->
  totalTiles (discarded now pos cardId g player cardIndex) = totalTiles g.
Proof.
  intros Hp Hidx. unfold discarded, totalTiles.
  cbn [Game.deck Game.data Game.set_data Game.set_player Data.players Data.set_players
       Data.set_discard].
  f_equal. rewrite sum_imap_same by (intros; apply playerTiles_marked).
  pose proof (sum_insert playerTiles _ pos player
                (Player.set_discardedCards (Player.discardedCards player ++ [cardId])
                   (Player.set_handCards (delete cardIndex (Player.handCards player)) player))
                Hp) as Hsum.
  assert (Hq : playerTiles
                 (Player.set_discardedCards (Player.discardedCards player ++ [cardId])
                    (Player.set_handCards (delete cardIndex (Player.handCards player)) player))
               = playerTiles player).
  { apply indexOf_Some in Hidx. pose proof (lookup_lt_Some _ _ _ Hidx) as Hlt.
    unfold playerTiles, exposedCount. destruct player. cbn in *.
    rewrite length_app, length_delete by eauto. cbn. lia. }
  lia.
Qed.

Lemma playerDiscard_total (now pos : nat) (cardId : string) (g g' : Game.t) :
  Game.playerDiscard now pos cardId g = (Ok tt, g') -> totalTiles g' = totalTiles g.
Proof.
  intros Hrun.
  apply playerDiscard_inv in Hrun as [[e [He _]] | Hrun]; [discriminate |].
  destruct Hrun as (player & cardIndex & _ & _ & Hp & Hidx & Hnext).
  apply nextPlayer_total in Hnext. rewrite Hnext. now apply discarded_total.
Qed.

Lemma reachable_total (g : Game.t) : reachable g -> totalTiles g = 144.
Proof.
  induction 1 as [gameData rnd users mode fuel g0 g Hinit Hdeal | now pos cardId g g' _ IH Hrun].
  - apply initialize_total in Hinit as [Hlen Hzero].
    rewrite (dealCards_total _ _ _ Hdeal Hzero). exact Hlen.
  - rewrite (playerDiscard_total _ _ _ _ _ Hrun). exact IH.
Qed.

(** C1, as the code has it. In every game reached from a new [Game] by
    [initialize], [dealCards] (with its flower sweep) and any number of
    accepted discards (each followed by the advance of the turn, the draw
    and its flower replacement), the wall plus the concealed, exposed,
    discarded and flower tiles of all seats number 144. The chi, peng and
    gang executions of the controller are not covered. *)
Theorem reachable_conserves_tiles (g : Game.t) : reachable g -> totalTiles g = 144.
Proof. apply reachable_total. Qed.

Lemma dealt_reachable : reachable Scenario.dealt.
Proof. exact (reach_deal _ _ _ _ _ _ _ initialized_run dealt_run). Qed.

Lemma afterDiscard_reachable : reachable Scenario.afterDiscard.
Proof. exact (reach_discard _ _ _ _ _ dealt_reachable afterDiscard_run). Qed.

Lemma reachable_conserves_tiles_witness : totalTiles Scenario.afterDiscard = 144.
Proof. exact (reachable_conserves_tiles Scenario.afterDiscard afterDiscard_reachable). Defined.

(** C1, the claim as stated fails: from the reachable game in which seat
    0 has discarded its 5 of wan, the peng of seat 3 takes two cards out of
    the hand and throws before it exposes anything: 142 tiles are left in
    the game. The exposed gang of seat 3 leaves 141 and the chi of seat 1
    leaves 142 in the same way. The [Game] object a handler builds from
    the document of the dealt game has a new deck of 144 cards besides the
    53 cards dealt. *)
Lemma claims_break_conservation :
  reachable Scenario.afterDiscard
  /\ totalTiles Scenario.afterDiscard = 144
  /\ GameController.executePengAction 3 "wan_5" Scenario.afterDiscard
     = (Throw CastError, Scenario.afterPeng)
  /\ totalTiles Scenario.afterPeng = 142
  /\ (Player.exposedCards <$> Data.players (Game.data Scenario.afterPeng) !! 3) = Some []
  /\ GameController.executeGangAction 3 "ming" "wan_5" Scenario.afterDiscard
     = (Throw CastError, Scenario.afterGang)
  /\ totalTiles Scenario.afterGang = 141
  /\ GameController.executeChiAction 1 ["wan_4"; "wan_5"; "wan_6"] Scenario.afterDiscard
     = (Throw CastError, Scenario.afterChi)
  /\ totalTiles Scenario.afterChi = 142
  /\ totalTiles (Game.new (Game.data Scenario.dealt)) = 197.
Proof.
  split; [apply afterDiscard_reachable |].
  repeat split; vm_compute; reflexivity.
Qed.

End Conservation.

(* ===================================================================== *)
(** ** Flowers *)
(* ===================================================================== *)

Section Flowers.

Lemma filter_nil_Forall {A : Type} (f : A -> bool) (l : list A) :
  List.filter f l = [] -> Forall (fun x => f x = false) l.
Proof.
  induction l as [|a l IH]; cbn; intros H; [constructor |].
  destruct (f a) eqn:Ea; [discriminate |]. constructor; auto.
Qed.

Lemma sweepSeat_false (i : nat) (g g' : Game.t) :
  Game.sweepSeat i g = (Ok false, g') ->
  g' = g
  /\ exists p, Data.players (Game.data g) !! ((Data.dealer (Game.data g) + i) mod 4) = Some p
               /\ noFlower p.
Proof.
  unfold Game.sweepSeat.
  destruct (Data.players (Game.data g) !! _) as [player|] eqn:Ep; [| discriminate].
  rewrite partition_as_filter.
  destruct (0 <? length (List.filter Game.isFlowerId (Player.handCards player))) eqn:El.
  - destruct (CardDeck.drawCards _ _). discriminate.
  - intros H. split; [now inversion H |]. exists player. split; [reflexivity |].
    apply filter_nil_Forall. apply Nat.ltb_ge in El.
    destruct (List.filter _ _); [reflexivity | cbn in El; lia].
Qed.

Lemma sweepSeats_false (seats : list nat) (acc : bool) (g g' : Game.t) :
  Game.sweepSeats seats acc g = (Ok false, g') ->
  g' = g /\ acc = false
  /\ forall i, In i seats ->
       exists p, Data.players (Game.data g) !! ((Data.dealer (Game.data g) + i) mod 4) = Some p
                 /\ noFlower p.
Proof.
  revert acc g. induction seats as [|i seats IH]; intros acc g H; cbn [Game.sweepSeats] in H.
  - unfold ret in H. inversion H. repeat split. intros i [].
  - unfold bind in H. destruct (Game.sweepSeat i g) as [[found| |] g1] eqn:Es; try discriminate.
    apply IH in H as (-> & Hacc & Hall).
    apply orb_false_elim in Hacc as [-> ->].
    apply sweepSeat_false in Es as (-> & Hi).
    repeat split. intros j [<- | Hj]; [exact Hi | now apply Hall].
Qed.

(** When the sweep of [handleFlowerCards] returns, the four seats it
    visits hold no flower. *)
Lemma handleFlowerCards_swept (fuel : nat) (g g' : Game.t) :
  Game.handleFlowerCards fuel g = (Ok tt, g') ->
  forall i, In i [0; 1; 2; 3] ->
    exists p, Data.players (Game.data g') !! ((Data.dealer (Game.data g') + i) mod 4) = Some p
              /\ noFlower p.
Proof.
  revert g. induction fuel as [|fuel IH]; intros g H; [discriminate |].
  rewrite handleFlowerCards_S in H.
  destruct (Game.sweepSeats [0; 1; 2; 3] false g) as [[[|] | |] g1] eqn:Es; try discriminate.
  - exact (IH _ H).
  - inversion H. subst g1. apply sweepSeats_false in Es as (-> & _ & Hall). exact Hall.
Qed.

Lemma seat_visited (dealer seat : nat) :
  seat < 4 -> exists i, In i [0; 1; 2; 3] /\ (dealer + i) mod 4 = seat.
Proof.
  intros Hseat.
  pose proof (Nat.mod_upper_bound dealer 4 ltac:(lia)) as Hd.
  exists ((seat + 4 - dealer mod 4) mod 4).
  pose proof (Nat.mod_upper_bound (seat + 4 - dealer mod 4) 4 ltac:(lia)) as Hi.
  split.
  - cbn. lia.
  - rewrite <- Nat.Div0.add_mod_idemp_l.
    destruct (dealer mod 4) as [|[|[|[|?]]]]; [| | | | lia];
      destruct seat as [|[|[|[|?]]]]; try lia; reflexivity.
Qed.

(** The dealing sweep: after [dealCards] no hand of the four seats holds
    a card that reads as a flower. *)
Lemma dealCards_swept (fuel : nat) (g g' : Game.t) (seat : nat) :
  Game.dealCards fuel g = (Ok tt, g') ->
  seat < 4 ->
  exists p, Data.players (Game.data g') !! seat = Some p /\ noFlower p.
Proof.
  unfold Game.dealCards. unfold bind at 1. unfold modify at 1.
  unfold bind at 1. unfold modify at 1.
  unfold bind. intros H Hseat.
  match type of H with
  | context [Game.handleFlowerCards fuel ?g1] =>
      destruct (Game.handleFlowerCards fuel g1) as [[[]| |] g2] eqn:Eh; try discriminate
  end.
  unfold modify in H. apply (f_equal snd) in H. cbn [snd] in H. subst g'.
  destruct (seat_visited (Data.dealer (Game.data g2)) seat Hseat) as (i & Hi & Hmod).
  destruct (handleFlowerCards_swept _ _ _ Eh i Hi) as (p & Hp & Hno).
  rewrite Hmod in Hp. exists p. split; [exact Hp | exact Hno].
Qed.

Lemma filter_negb_filter {A : Type} (f : A -> bool) (l : list A) :
  List.filter f (List.filter (fun x => negb (f x)) l) = [].
Proof.
  induction l as [|a l IH]; cbn; [reflexivity |].
  destruct (f a) eqn:Ea; cbn; [exact IH |]. now rewrite Ea.
Qed.

(** A seat's sweep never adds a flower to the hands and the wall, and
    takes at least one away when it finds one. *)
Lemma sweepSeat_measure (i : nat) (g g' : Game.t) (found : bool) :
  Game.sweepSeat i g = (Ok found, g') ->
  flowersInPlay g' + (if found then 1 else 0) <= flowersInPlay g.
Proof.
  unfold Game.sweepSeat.
  destruct (Data.players (Game.data g) !! _) as [player|] eqn:Ep; [| discriminate].
  rewrite partition_as_filter.
  destruct (0 <? length (List.filter Game.isFlowerId (Player.handCards player))) eqn:El.
  - destruct (CardDeck.drawCards _ (Game.deck g)) as [newCards cards1] eqn:Edraw.
    intros H. assert (Hfound : found = true) by (now inversion H). subst found.
    run_to H g'. apply Nat.ltb_lt in El.
    apply drawCards_spec in Edraw as [Hdeck _].
    unfold flowersInPlay. cbn [Game.data Game.deck]. rewrite set_player_players.
    match goal with
    | |- context [<[?idx := ?q]> _] =>
        pose proof (sum_insert flowersInHand _ idx player q Ep) as Hsum;
        assert (Hq : flowersInHand q
                     = length (List.filter (fun c => Game.isFlowerId (Card.id c)) newCards))
    end.
    { unfold flowersInHand. cbn [Player.handCards Player.set_handCards].
      rewrite List.filter_app, filter_negb_filter, filter_map_swap, app_nil_l, length_map.
      reflexivity. }
    rewrite Hdeck, List.filter_app, filter_rev, length_app, length_rev.
    unfold flowersInHand at 2 in Hsum. lia.
  - intros H. inversion H. subst. lia.
Qed.

Lemma sweepSeats_measure (seats : list nat) (acc b : bool) (g g' : Game.t) :
  Game.sweepSeats seats acc g = (Ok b, g') ->
  flowersInPlay g' <= flowersInPlay g
  /\ (b = true -> acc = true \/ flowersInPlay g' < flowersInPlay g).
Proof.
  revert acc g. induction seats as [|i seats IH]; intros acc g H; cbn [Game.sweepSeats] in H.
  - unfold ret in H. inversion H. subst. split; [lia | intros ->; now left].
  - unfold bind in H. destruct (Game.sweepSeat i g) as [[found| |] g1] eqn:Es; try discriminate.
    apply IH in H as [Hle Hb]. apply sweepSeat_measure in Es.
    split; [lia |]. intros Htrue. destruct (Hb Htrue) as [Hor | Hlt]; [| right; lia].
    apply orb_true_iff in Hor as [-> | ->]; [now left | right; lia].
Qed.

(** The loop of [handleFlowerCards] ends: with more fuel than there are
    flowers in the hands and the wall it returns or throws. *)
Lemma handleFlowerCards_terminates (fuel : nat) (g : Game.t) :
  flowersInPlay g < fuel -> fst (Game.handleFlowerCards fuel g) <> OutOfFuel.
Proof.
  revert g. induction fuel as [|fuel IH]; intros g Hlt; [lia |].
  rewrite handleFlowerCards_S.
  destruct (Game.sweepSeats [0; 1; 2; 3] false g) as [[[|] | |] g1] eqn:Es; cbn [fst];
    try discriminate.
  - apply sweepSeats_measure in Es as [_ Hb].
    destruct (Hb eq_refl) as [Hacc | Hdec]; [discriminate |].
    apply IH. lia.
  - exfalso. revert Es. generalize false. generalize [0; 1; 2; 3]. clear.
    intros seats. revert g. induction seats as [|i seats IH]; intros g acc H;
      cbn [Game.sweepSeats] in H.
    + discriminate.
    + unfold bind in H. destruct (Game.sweepSeat i g) as [[found| |] g2] eqn:Es.
      * now apply IH in H.
      * discriminate.
      * unfold Game.sweepSeat in Es.
        destruct (Data.players (Game.data g) !! _); [| discriminate].
        destruct (List.partition _ _). destruct (0 <? _); [| discriminate].
        destruct (CardDeck.drawCards _ _). discriminate.
Qed.

(** [dealCards] ends as well: some amount of fuel is enough. *)
Lemma dealCards_terminates (g : Game.t) :
  exists fuel, fst (Game.dealCards fuel g) <> OutOfFuel.
Proof.
  unfold Game.dealCards. unfold bind at 1. unfold modify at 1.
  unfold bind at 1. unfold modify at 1.
  match goal with
  | |- exists fuel, fst (bind (Game.handleFlowerCards fuel) _ ?g1) <> _ =>
      exists (S (flowersInPlay g1));
      pose proof (handleFlowerCards_terminates (S (flowersInPlay g1)) g1 ltac:(lia)) as Hterm;
      unfold bind;
      destruct (Game.handleFlowerCards (S (flowersInPlay g1)) g1) as [[[]| |] g2]
  end; unfold modify; cbn [fst] in *; first [discriminate | contradiction].
Qed.

(** The game [nextPlayer] leaves when the two cards on top of the wall
    are flowers: the second one is in the hand of the seat that drew. *)
Lemma nextPlayer_keeps_second_flower (g g' : Game.t) (rest : CardDeck.t)
  (supplement top : Card.t) :
  Game.deck g = (rest ++ [supplement]) ++ [top] ->
  Card.isFlower top = true ->
  Game.nextPlayer g = (Ok tt, g') ->
  exists hand,
    handOf g' ((Data.currentPlayer (Game.data g) + 1) mod 4)
    = Some (hand ++ [Card.id supplement]).
Proof.
  intros Hdeck Hfl Hrun.
  destruct (nextPlayer_draw g g' _ top Hdeck Hrun) as (_ & _ & hand & flowers & _ & _ & H).
  rewrite Hfl, last_snoc in H. destruct H as (_ & Hhand & _). now exists hand.
Qed.

(** C4, where the code fails it. In the round played out, seat 1 draws a
    flower after the discard of seat 0; the flower goes to its flower area
    and the replacement, a flower too, is left in its concealed hand: the
    sweep after a draw does not repeat, as the sweep of the deal does. *)
Theorem flower_left_in_hand_after_draw :
  Game.playerDiscard 1 0 "wan_5" Scenario.dealt = (Ok tt, Scenario.afterDiscard)
  /\ flowersOf Scenario.afterDiscard 1 = Some ["hua_1"]
  /\ (last <$> handOf Scenario.afterDiscard 1) = Some (Some "hua_2")
  /\ Game.isFlowerId "hua_2" = true
  /\ (forall seat, seat < 4 ->
        exists p, Data.players (Game.data Scenario.dealt) !! seat = Some p /\ noFlower p).
Proof.
  split; [apply afterDiscard_run |].
  split; [vm_compute; reflexivity |].
  split; [vm_compute; reflexivity |].
  split; [vm_compute; reflexivity |].
  intros seat Hseat. exact (dealCards_swept _ _ _ seat dealt_run Hseat).
Qed.

End Flowers.

(* ===================================================================== *)
(** ** Chi *)
(* ===================================================================== *)

Section Chi.

(** Below [2^53] adding one is exact. *)
Lemma add1_safe (x : Z) :
  (Z.abs x < JS.MAX_SAFE)%Z -> JS.add1 (JS.Int x) = JS.Int (x + 1).
Proof.
  intros Hx. unfold JS.add1, JS.ofZ.
  destruct (Z.ltb_spec (x + 1) 0) as [Hneg | Hpos].
  - unfold JS.roundNat.
    destruct (Z.ltb_spec (- (x + 1)) JS.MAX_SAFE) as [_ | Hbig]; [| lia].
    cbn [JS.negate]. f_equal. lia.
  - destruct (Z.eq_dec (x + 1)%Z JS.MAX_SAFE) as [Heq | Hne].
    + rewrite Heq. vm_compute. reflexivity.
    + unfold JS.roundNat.
      destruct (Z.ltb_spec (x + 1) JS.MAX_SAFE) as [_ | Hbig]; [reflexivity | lia].
Qed.

(** On values that are safe, [canFormSequence] holds exactly for three
    numeric cards of one suit whose integer values are some [lo],
    [lo + 1] and [lo + 2]. *)
Lemma canFormSequence_spec (c c2 c3 : Card.t) :
  JS.isSafe (Card.value c) = true ->
  JS.isSafe (Card.value c2) = true ->
  JS.isSafe (Card.value c3) = true ->
  Card.canFormSequence c c2 c3 = true <->
  Card.isNumber c = true
  /\ Card.type c2 = Card.type c /\ Card.type c3 = Card.type c
  /\ exists x y z lo,
       Card.value c = JS.Int x /\ Card.value c2 = JS.Int y /\ Card.value c3 = JS.Int z
       /\ In lo [x; y; z] /\ In (lo + 1)%Z [x; y; z] /\ In (lo + 2)%Z [x; y; z].
Proof.
  unfold Card.canFormSequence. destruct c as [ty v], c2 as [ty2 v2], c3 as [ty3 v3].
  cbn [Card.type Card.value]. intros Hsx Hsy Hsz.
  destruct (Card.isNumber (Card.new ty v)) eqn:En; cbn [negb orb].
  2: { split; [discriminate | intros [H _]; discriminate]. }
  destruct (String.eqb_spec ty ty2) as [<- | Hne2].
  2: { destruct (Card.isNumber (Card.new ty2 v2)), (Card.isNumber (Card.new ty3 v3));
         cbn; (split; [discriminate | intros (_ & H & _); congruence]). }
  destruct (String.eqb_spec ty ty3) as [<- | Hne3].
  2: { destruct (Card.isNumber (Card.new ty v2)), (Card.isNumber (Card.new ty3 v3));
         cbn; (split; [discriminate | intros (_ & _ & H & _); congruence]). }
  replace (Card.isNumber (Card.new ty v2)) with true by (now rewrite <- En).
  replace (Card.isNumber (Card.new ty v3)) with true by (now rewrite <- En).
  cbn [negb orb]. unfold Card.sortedValues.
  destruct v as [|x|sx], v2 as [|y|sy], v3 as [|z|sz]; try discriminate;
    cbn [JS.isNaN orb];
    try (split; [discriminate | intros (_ & _ & _ & ? & ? & ? & ? & ? & ? & ? & _); discriminate]).
  cbn [JS.isSafe] in Hsx, Hsy, Hsz. apply Z.ltb_lt in Hsx, Hsy, Hsz.
  unfold JS.sortNumbers. cbn [fold_right JS.insertNumber JS.leb].
  split.
  - intros H. repeat split. exists x, y, z. revert H.
    repeat match goal with
           | |- context [(?a <=? ?b)%Z] =>
               destruct (Z.leb_spec a b); cbn [JS.insertNumber JS.leb]
           end;
      rewrite !add1_safe by assumption; cbn [JS.strict_eq];
      intros Hseq; apply andb_prop in Hseq as [Hv1 Hv2]; apply Z.eqb_eq in Hv1, Hv2;
      match type of Hv1 with
      | (_ = ?lo + 1)%Z => exists lo
      end; cbn [In]; repeat split; lia.
  - intros (_ & _ & _ & x' & y' & z' & lo & [= <-] & [= <-] & [= <-] & Hlo0 & Hlo1 & Hlo2).
    cbn [In] in Hlo0, Hlo1, Hlo2.
    repeat match goal with
           | |- context [(?a <=? ?b)%Z] =>
               destruct (Z.leb_spec a b); cbn [JS.insertNumber JS.leb]
           end;
      rewrite !add1_safe by assumption; cbn [JS.strict_eq];
      apply andb_true_intro; split; apply Z.eqb_eq; lia.
Qed.

(** The nested loops of [canChi] find a pair exactly when two cards at
    different places of the hand form a sequence with the card. *)
Lemma canChi_pairs_spec (card : Card.t) (hand : list Card.t) :
  Game.canChi_pairs card hand = true <->
  exists i j a b,
    i < j /\ hand !! i = Some a /\ hand !! j = Some b
    /\ Card.canFormSequence card a b = true.
Proof.
  induction hand as [|ci rest IH]; cbn [Game.canChi_pairs].
  - split; [discriminate | intros (i & j & a & b & _ & H & _); discriminate].
  - rewrite orb_true_iff, existsb_exists, IH. split.
    + intros [(cj & Hin & Hseq) | (i & j & a & b & Hlt & Ha & Hb & Hseq)].
      * rewrite <- list_elem_of_In in Hin. apply list_elem_of_lookup in Hin as [j Hj].
        exists 0, (S j), ci, cj. repeat split; [lia | exact Hj | exact Hseq].
      * exists (S i), (S j), a, b. repeat split; [lia | exact Ha | exact Hb | exact Hseq].
    + intros (i & j & a & b & Hlt & Ha & Hb & Hseq).
      destruct j as [|j]; [lia |]. destruct i as [|i].
      * left. cbn in Ha, Hb. inversion Ha. subst a. exists b. split; [| exact Hseq].
        rewrite <- list_elem_of_In. apply list_elem_of_lookup. now exists j.
      * right. exists i, j, a, b. repeat split; [lia | exact Ha | exact Hb | exact Hseq].
Qed.

(** [checkPlayerActions] puts a chi on offer only for the seat after the
    discarder, and only when [canChi] holds for it. *)
Lemma chi_offered_to_next_seat_only (g : Game.t) (cardId : string) (index : nat) :
  In PLAYER_ACTIONS.CHI
     (List.filter (eligible g (Data.currentPlayer (Game.data g)) cardId index) priorityOrder) ->
  index = (Data.currentPlayer (Game.data g) + 1) mod 4
  /\ answers (Game.canChi index (Some cardId)) g = true.
Proof.
  intros H. apply filter_In in H as [_ H]. cbn [eligible] in H.
  apply andb_prop in H as [Hidx Hchi]. apply Nat.eqb_eq in Hidx. now split.
Qed.

(** [canChi] is false on a discard that is not a numeric card. *)
Lemma canChi_number_only (pos : nat) (cardId : string) (g : Game.t) :
  Card.isNumber (Game.getCardById cardId) = false ->
  Game.canChi pos (Some cardId) g = (Ok false, g).
Proof. intros H. unfold Game.canChi. now rewrite H. Qed.









(** In the round played out the chi is on offer for seat 1, which holds
    a 4 and a 6 of wan, and not for seat 2, which holds a 6 and a 7; both
    are refused by the handler, seat 2 after [canChi] has let it through. *)
Lemma chi_in_the_round :
  (Player.availableActions <$> Data.players (Game.data Scenario.afterDiscard) !! 1)
  = Some (Some [PLAYER_ACTIONS.CHI])
  /\ (Player.availableActions <$> Data.players (Game.data Scenario.afterDiscard) !! 2)
     = Some None
  /\ GameController.playerChi (Some (Game.data Scenario.afterDiscard)) "u1"
       ["wan_4"; "wan_5"; "wan_6"]
     = (GameController.Failure 500 "CastError", None)
  /\ GameController.playerChi (Some (Game.data Scenario.afterDiscard)) "u2"
       ["wan_5"; "wan_6"; "wan_7"]
     = (GameController.Failure 500 "CastError", None)
  /\ GameController.playerChi (Some (Game.data Scenario.afterDiscard)) "u3"
       ["wan_5"; "wan_5"; "wan_5"]
     = (GameController.Failure 400 "无法吃牌", None).
Proof. vm_compute. repeat split; reflexivity. Qed.

End Chi.

(* ===================================================================== *)
(** ** The deck: drawing and shuffling *)
(* ===================================================================== *)

Section Deck.

(** X1. [drawCards(count)] never fails on a short deck: it returns the
    last [count] cards of the array, the top one first, or all of them
    when there are fewer, and leaves the cards below them in place. *)
Theorem drawCards_takes_the_top (count : nat) (cards : CardDeck.t) :
  CardDeck.drawCards count cards
  = (rev (drop (length cards - count) cards), take (length cards - count) cards).
Proof.
  destruct (CardDeck.drawCards count cards) as [drawn rest] eqn:E.
  apply drawCards_spec in E as [Hcards Hlen]. subst cards.
  replace (length (rest ++ rev drawn) - count) with (length rest)
    by (rewrite length_app, length_rev in *; lia).
  rewrite drop_app_length, take_app_length. now rewrite rev_involutive.
Qed.

Lemma swap_Permutation (cards : CardDeck.t) (i j : nat) :
  Permutation (CardDeck.swap cards i j) cards.
Proof.
  unfold CardDeck.swap.
  destruct (cards !! i) as [ci|] eqn:Ei; [| reflexivity].
  destruct (cards !! j) as [cj|] eqn:Ej; [| reflexivity].
  assert (Hswap : forall (l : list Card.t) a b x y,
             a < b -> l !! a = Some x -> l !! b = Some y ->
             Permutation (<[b := x]> (<[a := y]> l)) l
             /\ Permutation (<[a := y]> (<[b := x]> l)) l).
  { clear. intros l a b x y Hlt Ha Hb.
    pose proof (lookup_lt_Some _ _ _ Ha) as Hla.
    pose proof (lookup_lt_Some _ _ _ Hb) as Hlb.
    assert (Hl : l = take a l ++ x :: take (b - S a) (drop (S a) l)
                     ++ y :: drop (S b) l).
    { rewrite <- (take_drop a l) at 1. f_equal.
      rewrite (drop_S _ _ _ Ha). f_equal.
      rewrite <- (take_drop (b - S a) (drop (S a) l)) at 1. f_equal.
      rewrite drop_drop. replace (S a + (b - S a)) with b by lia.
      now rewrite (drop_S _ _ _ Hb). }
    set (l1 := take a l) in *. set (l2 := take (b - S a) (drop (S a) l)) in *.
    set (l3 := drop (S b) l) in *.
    assert (H1 : length l1 = a) by (unfold l1; rewrite length_take; lia).
    assert (H2 : length l2 = b - S a).
    { unfold l2. rewrite length_take, length_drop. lia. }
    assert (Hres : <[b := x]> (<[a := y]> l) = l1 ++ y :: l2 ++ x :: l3
                   /\ <[a := y]> (<[b := x]> l) = l1 ++ y :: l2 ++ x :: l3).
    { rewrite Hl. split.
      - rewrite (insert_app_r_alt l1 _ a) by lia.
        replace (a - length l1) with 0 by lia. cbn [insert list_insert].
        rewrite (insert_app_r_alt l1 _ b) by lia.
        replace (b - length l1) with (S (length l2)) by lia. cbn [insert list_insert].
        f_equal. f_equal.
        rewrite (insert_app_r_alt l2 _ (length l2)) by lia.
        now replace (length l2 - length l2) with 0 by lia.
      - rewrite (insert_app_r_alt l1 _ b) by lia.
        replace (b - length l1) with (S (length l2)) by lia. cbn [insert list_insert].
        rewrite (insert_app_r_alt l2 _ (length l2)) by lia.
        replace (length l2 - length l2) with 0 by lia. cbn [insert list_insert].
        rewrite (insert_app_r_alt l1 _ a) by lia.
        now replace (a - length l1) with 0 by lia. }
    destruct Hres as [-> ->].
    assert (Hp : Permutation (l1 ++ y :: l2 ++ x :: l3) (l1 ++ x :: l2 ++ y :: l3)).
    { apply Permutation_app_head.
      rewrite <- !(Permutation_middle l2). apply perm_swap. }
    split; (transitivity (l1 ++ x :: l2 ++ y :: l3); [exact Hp | now rewrite <- Hl]). }
  destruct (Nat.lt_trichotomy i j) as [Hlt | [-> | Hgt]].
  - apply (Hswap cards i j ci cj Hlt Ei Ej).
  - rewrite Ei in Ej. inversion Ej. subst cj.
    rewrite list_insert_insert_eq. now rewrite list_insert_id.
  - apply (Hswap cards j i cj ci Hgt Ej Ei).
Qed.

Lemma shuffle_Permutation (rnd : nat -> nat) (cards : CardDeck.t) :
  Permutation (CardDeck.shuffle rnd cards) cards.
Proof.
  unfold CardDeck.shuffle. generalize (length cards - 1). intros i. revert cards.
  induction i as [|i IH]; intros cards; cbn [CardDeck.shuffle_from]; [reflexivity |].
  rewrite IH. apply swap_Permutation.
Qed.

(** X2. Whatever the random source gives, [shuffle] only reorders the
    deck: the result is a permutation of the cards it started from. *)
Theorem shuffle_is_a_permutation (rnd : nat -> nat) (cards : CardDeck.t) :
  Permutation (CardDeck.shuffle rnd cards) cards.
Proof. apply shuffle_Permutation. Qed.

Lemma filter_length_Permutation {A : Type} (f : A -> bool) (l l' : list A) :
  Permutation l l' -> length (List.filter f l) = length (List.filter f l').
Proof.
  induction 1 as [| x l l' _ IH | x y l | l l' l'' _ IH1 _ IH2]; cbn.
  - reflexivity.
  - destruct (f x); cbn; now rewrite IH.
  - destruct (f x), (f y); reflexivity.
  - now rewrite IH1.
Qed.

Lemma initializeDeck_copies :
  forallb (fun c =>
             length (List.filter (Card.equals c) CardDeck.initializeDeck)
             =? (if Card.isFlower c then 1 else 4))
          CardDeck.initializeDeck = true.
Proof. vm_compute. reflexivity. Qed.

(** X3. A new deck, shuffled with any random source, has 144 cards, and
    each card in it occurs (by [equals]) four times, or once when it is a
    flower. *)
Theorem shuffled_new_deck_copies (rnd : nat -> nat) (c : Card.t) :
  In c (CardDeck.shuffle rnd CardDeck.initializeDeck) ->
  length (CardDeck.shuffle rnd CardDeck.initializeDeck) = 144
  /\ length (List.filter (Card.equals c) (CardDeck.shuffle rnd CardDeck.initializeDeck))
     = if Card.isFlower c then 1 else 4.
Proof.
  intros Hin. split; [rewrite shuffle_length; apply initializeDeck_length |].
  rewrite (filter_length_Permutation _ _ _ (shuffle_Permutation rnd _)).
  apply (Permutation_in _ (shuffle_Permutation rnd _)) in Hin.
  pose proof initializeDeck_copies as Hall. rewrite forallb_forall in Hall.
  apply Nat.eqb_eq. exact (Hall c Hin).
Qed.

Lemma shuffled_new_deck_copies_witness :
  length (CardDeck.shuffle Scenario.rnd CardDeck.initializeDeck) = 144
  /\ length (List.filter (Card.equals (Card.new "hua" (JS.Int 3)))
                         (CardDeck.shuffle Scenario.rnd CardDeck.initializeDeck))
     = if Card.isFlower (Card.new "hua" (JS.Int 3)) then 1 else 4.
Proof.
  apply (shuffled_new_deck_copies Scenario.rnd (Card.new "hua" (JS.Int 3))).
  apply (Permutation_in _ (Permutation_sym (shuffle_Permutation Scenario.rnd _))).
  vm_compute. tauto.
Defined.

End Deck.

(* ===================================================================== *)
(** ** Dealing *)
(* ===================================================================== *)

Section Dealing.

Lemma sweepSeat_cases (i : nat) (g g' : Game.t) (r : result bool) :
  Game.sweepSeat i g = (r, g') ->
  Data.dealer (Game.data g') = Data.dealer (Game.data g)
  /\ Data.state (Game.data g') = Data.state (Game.data g)
  /\ length (Data.players (Game.data g')) = length (Data.players (Game.data g))
  /\ match r with
     | Ok _ => (Data.dealer (Game.data g) + i) mod 4 < length (Data.players (Game.data g))
     | Throw e => e = TypeError
     | OutOfFuel => False
     end.
Proof.
  unfold Game.sweepSeat.
  destruct (Data.players (Game.data g) !! _) as [player|] eqn:Ep.
  2: { intros H. inversion H. subst. repeat split. }
  apply lookup_lt_Some in Ep.
  destruct (List.partition _ _) as [flowerCards remainingCards].
  destruct (0 <? length flowerCards).
  - destruct (CardDeck.drawCards _ _) as [newCards cards1].
    intros H. assert (Hr : r = Ok true) by (now inversion H). subst r.
    run_to H g'. cbn [Game.data]. rewrite set_player_players, length_insert.
    repeat split. exact Ep.
  - intros H. inversion H. subst. repeat split. exact Ep.
Qed.

Lemma sweepSeats_cases (seats : list nat) (acc : bool) (g g' : Game.t) (r : result bool) :
  Game.sweepSeats seats acc g = (r, g') ->
  Data.dealer (Game.data g') = Data.dealer (Game.data g)
  /\ Data.state (Game.data g') = Data.state (Game.data g)
  /\ length (Data.players (Game.data g')) = length (Data.players (Game.data g))
  /\ match r with
     | Ok _ => forall i, In i seats ->
                 (Data.dealer (Game.data g) + i) mod 4 < length (Data.players (Game.data g))
     | Throw e => e = TypeError
     | OutOfFuel => False
     end.
Proof.
  revert acc g. induction seats as [|i seats IH]; intros acc g H; cbn [Game.sweepSeats] in H.
  - unfold ret in H. inversion H. subst. repeat split. intros i [].
  - unfold bind in H. destruct (Game.sweepSeat i g) as [[found| |] g1] eqn:Es;
      apply sweepSeat_cases in Es as (Hd & Hs & Hl & Hr).
    + apply IH in H as (Hd' & Hs' & Hl' & Hr'). rewrite Hd', Hs', Hl', Hd, Hs, Hl.
      repeat split. destruct r; [| exact Hr' | exact Hr'].
      intros j [<- | Hj]; [exact Hr |]. rewrite <- Hd, <- Hl. now apply Hr'.
    + inversion H. subst. repeat split; assumption.
    + contradiction.
Qed.

Lemma handleFlowerCards_few_players (fuel : nat) (g : Game.t) :
  length (Data.players (Game.data g)) < 4 ->
  exists g', Game.handleFlowerCards (S fuel) g = (Throw TypeError, g')
             /\ Data.state (Game.data g') = Data.state (Game.data g).
Proof.
  intros Hfew. rewrite handleFlowerCards_S.
  destruct (Game.sweepSeats [0; 1; 2; 3] false g) as [r g1] eqn:Es.
  apply sweepSeats_cases in Es as (_ & Hs & _ & Hr).
  destruct r as [b | e |].
  - exfalso.
    destruct (seat_visited (Data.dealer (Game.data g)) (length (Data.players (Game.data g)))
                Hfew) as (i & Hi & Hmod).
    specialize (Hr i Hi). lia.
  - subst e. exists g1. split; [reflexivity | exact Hs].
  - contradiction.
Qed.

Lemma deal_forEach_length (dealer index : nat) (ps ps' : list Player.t)
  (cards cards' : CardDeck.t) :
  Game.deal_forEach dealer index ps cards = (ps', cards') -> length ps' = length ps.
Proof.
  revert index ps' cards cards'.
  induction ps as [|p ps IH]; intros index ps' cards cards' H; cbn in H.
  - now inversion H.
  - destruct (CardDeck.drawCards _ cards) as [drawn cards1].
    destruct (Game.deal_forEach dealer (S index) ps cards1) as [rest' cards2] eqn:Erest.
    inversion H. subst. cbn. f_equal. now apply IH in Erest.
Qed.

Lemma dealCards_few_players (fuel : nat) (g : Game.t) :
  length (Data.players (Game.data g)) < 4 ->
  exists g', Game.dealCards (S fuel) g = (Throw TypeError, g')
             /\ Data.state (Game.data g') = GAME_STATES.DEALING.
Proof.
  intros Hfew. unfold Game.dealCards. unfold bind at 1. unfold modify at 1.
  unfold bind at 1. unfold modify at 1.
  cbn [Game.data Game.deck Game.set_data].
  replace (Data.players (Data.set_state GAME_STATES.DEALING (Game.data g)))
    with (Data.players (Game.data g)) by reflexivity.
  destruct (Game.deal_forEach _ 0 (Data.players (Game.data g)) (Game.deck g))
    as [ps cards] eqn:Edeal.
  apply deal_forEach_length in Edeal.
  unfold bind.
  match goal with
  | |- context [Game.handleFlowerCards (S fuel) ?g1] =>
      destruct (handleFlowerCards_few_players fuel g1) as (g' & Hrun & Hstate);
      [cbn; lia |]; rewrite Hrun
  end.
  exists g'. split; [reflexivity | exact Hstate].
Qed.

(** X4. With fewer than four players [dealCards] cannot deal: the flower
    sweep reaches a seat that does not exist and throws a TypeError, and
    the game is left in the dealing state. *)
Theorem dealCards_needs_four_players (fuel : nat) (g : Game.t) :
  length (Data.players (Game.data g)) < 4 ->
  exists g', Game.dealCards (S fuel) g = (Throw TypeError, g')
             /\ Data.state (Game.data g') = GAME_STATES.DEALING.
Proof. apply dealCards_few_players. Qed.

Lemma dealCards_needs_four_players_witness :
  exists g',
    Game.dealCards 1
      (Scenario.exec (Game.initialize Scenario.rnd ["u0"; "u1"; "u2"] GAME_MODES.YAO_BAN_SAN)
                     (Game.new Scenario.emptyData))
    = (Throw TypeError, g')
    /\ Data.state (Game.data g') = GAME_STATES.DEALING.
Proof.
  apply (dealCards_needs_four_players 0). cbn. lia.
Defined.

Lemma sum_lookup_le {A : Type} (f : A -> nat) (l : list A) (i : nat) (x : A) :
  l !! i = Some x -> f x <= sum_list_with f l.
Proof.
  revert i. induction l as [|a l IH]; intros i H; [discriminate |].
  destruct i as [|i]; simpl in *.
  - inversion H. subst. lia.
  - specialize (IH i H). lia.
Qed.

Lemma deal_forEach_hands (dealer index : nat) (ps ps' : list Player.t)
  (cards cards' : CardDeck.t) :
  Game.deal_forEach dealer index ps cards = (ps', cards') ->
  14 * length ps <= length cards ->
  map (fun p => length (Player.handCards p)) ps'
  = map (fun i => if i =? dealer then 14 else 13) (seq index (length ps))
  /\ length cards - 14 * length ps <= length cards'.
Proof.
  revert index ps' cards cards'.
  induction ps as [|p ps IH]; intros index ps' cards cards' H Hlen; cbn [Game.deal_forEach] in H.
  - inversion H. subst. split; [reflexivity | cbn; lia].
  - destruct (CardDeck.drawCards _ cards) as [drawn cards1] eqn:Edraw.
    destruct (Game.deal_forEach dealer (S index) ps cards1) as [rest' cards2] eqn:Erest.
    inversion H. subst ps' cards'. clear H.
    pose proof (drawCards_length _ _ _ _ Edraw) as Hsum.
    apply drawCards_spec in Edraw as [_ Hdrawn].
    cbn [length] in Hlen.
    assert (Hcount : length drawn = if index =? dealer then 14 else 13).
    { rewrite Hdrawn. destruct (index =? dealer); lia. }
    apply IH in Erest as [Hmap Hrest].
    2: { destruct (index =? dealer); lia. }
    split.
    + cbn [map seq length Player.handCards Player.set_handCards].
      rewrite length_map, Hcount, Hmap. reflexivity.
    + cbn [length]. destruct (index =? dealer); lia.
Qed.

Lemma deal_forEach_flowers (dealer index : nat) (ps ps' : list Player.t)
  (cards cards' : CardDeck.t) :
  Game.deal_forEach dealer index ps cards = (ps', cards') ->
  sum_list_with flowersInHand ps'
  + length (List.filter (fun c => Game.isFlowerId (Card.id c)) cards')
  = length (List.filter (fun c => Game.isFlowerId (Card.id c)) cards).
Proof.
  revert index ps' cards cards'.
  induction ps as [|p ps IH]; intros index ps' cards cards' H; cbn [Game.deal_forEach] in H.
  - inversion H. reflexivity.
  - destruct (CardDeck.drawCards _ cards) as [drawn cards1] eqn:Edraw.
    destruct (Game.deal_forEach dealer (S index) ps cards1) as [rest' cards2] eqn:Erest.
    inversion H. subst ps' cards'. clear H.
    apply drawCards_spec in Edraw as [-> _]. apply IH in Erest.
    simpl. unfold flowersInHand at 1. cbn [Player.handCards Player.set_handCards].
    rewrite filter_map_swap, length_map.
    rewrite List.filter_app, filter_rev, length_app, length_rev. lia.
Qed.

(** While the wall has a card for every flower in play, a seat's sweep
    keeps that so and keeps the size of every hand. *)
Lemma sweepSeat_enough (i : nat) (g g' : Game.t) (found : bool) :
  flowersInPlay g <= length (Game.deck g) ->
  Game.sweepSeat i g = (Ok found, g') ->
  flowersInPlay g' <= length (Game.deck g')
  /\ map (fun p => length (Player.handCards p)) (Data.players (Game.data g'))
     = map (fun p => length (Player.handCards p)) (Data.players (Game.data g)).
Proof.
  intros Henough. unfold Game.sweepSeat.
  destruct (Data.players (Game.data g) !! _) as [player|] eqn:Ep; [| discriminate].
  destruct (List.partition Game.isFlowerId (Player.handCards player))
    as [flowerCards remainingCards] eqn:Epart.
  pose proof (partition_length _ _ Epart) as Hpart.
  rewrite partition_as_filter in Epart. inversion Epart as [[Hfl Hrem]].
  rewrite Hfl, Hrem.
  destruct (0 <? length flowerCards) eqn:El.
  2: { intros H. inversion H. subst. now split. }
  destruct (CardDeck.drawCards _ (Game.deck g)) as [newCards cards1] eqn:Edraw.
  intros H. run_to H g'.
  pose proof (sum_lookup_le flowersInHand _ _ _ Ep) as Hle.
  assert (Hk : length flowerCards <= length (Game.deck g)).
  { unfold flowersInPlay in Henough. unfold flowersInHand at 1 in Hle.
    rewrite Hfl in Hle. lia. }
  pose proof (drawCards_length _ _ _ _ Edraw) as Hsum.
  apply drawCards_spec in Edraw as [Hdeck Hnew].
  rewrite Nat.min_l in Hnew by exact Hk.
  split.
  - unfold flowersInPlay in *. cbn [Game.data Game.deck]. rewrite set_player_players.
    match goal with
    | |- context [<[?idx := ?q]> _] =>
        pose proof (sum_insert flowersInHand _ idx player q Ep) as Hins;
        assert (Hq : flowersInHand q
                     = length (List.filter (fun c => Game.isFlowerId (Card.id c)) newCards))
    end.
    { unfold flowersInHand. cbn [Player.handCards Player.set_handCards].
      rewrite List.filter_app, <- Hrem, filter_negb_filter, filter_map_swap, app_nil_l,
        length_map. reflexivity. }
    rewrite Hdeck in Henough.
    rewrite List.filter_app, filter_rev, !length_app, !length_rev in Henough.
    unfold flowersInHand at 2 in Hins. rewrite Hfl in Hins. lia.
  - cbn [Game.data]. rewrite set_player_players, list_fmap_insert.
    apply list_insert_id. rewrite list_lookup_fmap, Ep.
    cbn [fmap option_fmap option_map Player.handCards Player.set_handCards].
    f_equal. rewrite length_app, length_map. lia.
Qed.

Lemma sweepSeats_enough (seats : list nat) (acc b : bool) (g g' : Game.t) :
  flowersInPlay g <= length (Game.deck g) ->
  Game.sweepSeats seats acc g = (Ok b, g') ->
  flowersInPlay g' <= length (Game.deck g')
  /\ map (fun p => length (Player.handCards p)) (Data.players (Game.data g'))
     = map (fun p => length (Player.handCards p)) (Data.players (Game.data g)).
Proof.
  revert acc g. induction seats as [|i seats IH]; intros acc g Henough H;
    cbn [Game.sweepSeats] in H.
  - unfold ret in H. inversion H. subst. now split.
  - unfold bind in H. destruct (Game.sweepSeat i g) as [[found| |] g1] eqn:Es;
      try discriminate.
    apply (sweepSeat_enough _ _ _ _ Henough) in Es as [Henough1 Hmap1].
    apply (IH _ _ Henough1) in H as [Henough2 Hmap2].
    split; [exact Henough2 | now rewrite Hmap2].
Qed.

Lemma handleFlowerCards_enough (fuel : nat) (g g' : Game.t) :
  flowersInPlay g <= length (Game.deck g) ->
  Game.handleFlowerCards fuel g = (Ok tt, g') ->
  map (fun p => length (Player.handCards p)) (Data.players (Game.data g'))
  = map (fun p => length (Player.handCards p)) (Data.players (Game.data g)).
Proof.
  revert g. induction fuel as [|fuel IH]; intros g Henough H; [discriminate |].
  rewrite handleFlowerCards_S in H.
  destruct (Game.sweepSeats [0; 1; 2; 3] false g) as [[[|] | |] g1] eqn:Es; try discriminate.
  - apply (sweepSeats_enough _ _ _ _ _ Henough) in Es as [Henough1 Hmap1].
    rewrite (IH _ Henough1 H). exact Hmap1.
  - inversion H. subst g1.
    now apply (sweepSeats_enough _ _ _ _ _ Henough) in Es as [_ Hmap1].
Qed.

Lemma initializeDeck_flowers :
  length (List.filter (fun c => Game.isFlowerId (Card.id c)) CardDeck.initializeDeck) = 8.
Proof. vm_compute. reflexivity. Qed.

(** With four seats or more no sweep reaches a seat that does not exist,
    and a sweep that found a flower has taken one out of play: the loop
    returns within one round more than there are flowers in play. *)
Lemma sweepSeat_ok (i : nat) (g : Game.t) :
  4 <= length (Data.players (Game.data g)) ->
  exists found g', Game.sweepSeat i g = (Ok found, g').
Proof.
  intros Hfour. unfold Game.sweepSeat.
  destruct (Data.players (Game.data g) !! _) as [player|] eqn:Ep.
  2: { apply lookup_ge_None in Ep.
       pose proof (Nat.mod_upper_bound (Data.dealer (Game.data g) + i) 4). lia. }
  destruct (List.partition _ _) as [flowerCards remainingCards].
  destruct (0 <? length flowerCards).
  - destruct (CardDeck.drawCards _ _) as [newCards cards1]. eauto.
  - eauto.
Qed.

Lemma sweepSeats_ok (seats : list nat) (acc : bool) (g : Game.t) :
  4 <= length (Data.players (Game.data g)) ->
  exists b g', Game.sweepSeats seats acc g = (Ok b, g').
Proof.
  revert acc g. induction seats as [|i seats IH]; intros acc g Hfour; cbn [Game.sweepSeats].
  - unfold ret. eauto.
  - unfold bind. destruct (sweepSeat_ok i g Hfour) as (found & g1 & Es). rewrite Es.
    apply IH. apply sweepSeat_cases in Es as (_ & _ & Hl & _). lia.
Qed.

Lemma handleFlowerCards_ok (fuel : nat) (g : Game.t) :
  4 <= length (Data.players (Game.data g)) ->
  flowersInPlay g < fuel ->
  exists g', Game.handleFlowerCards fuel g = (Ok tt, g').
Proof.
  revert g. induction fuel as [|fuel IH]; intros g Hfour Hfuel; [lia |].
  rewrite handleFlowerCards_S.
  destruct (sweepSeats_ok [0; 1; 2; 3] false g Hfour) as (b & g1 & Es). rewrite Es.
  destruct b; [| eauto].
  apply IH.
  - apply sweepSeats_cases in Es as (_ & _ & Hl & _). lia.
  - apply sweepSeats_measure in Es as [_ Hb].
    destruct (Hb eq_refl) as [Hacc | Hlt]; [discriminate | lia].
Qed.

Lemma dealCards_ok (fuel : nat) (g : Game.t) :
  4 <= length (Data.players (Game.data g)) ->
  length (List.filter (fun c => Game.isFlowerId (Card.id c)) (Game.deck g)) < fuel ->
  exists g', Game.dealCards fuel g = (Ok tt, g').
Proof.
  intros Hfour Hfuel. unfold Game.dealCards. unfold bind at 1. unfold modify at 1.
  unfold bind at 1. unfold modify at 1.
  cbn [Game.data Game.deck Game.set_data].
  replace (Data.players (Data.set_state GAME_STATES.DEALING (Game.data g)))
    with (Data.players (Game.data g)) by reflexivity.
  destruct (Game.deal_forEach _ 0 (Data.players (Game.data g)) (Game.deck g))
    as [ps cards] eqn:Edeal.
  pose proof (deal_forEach_flowers _ _ _ _ _ _ Edeal) as Hfl.
  apply deal_forEach_length in Edeal.
  unfold bind.
  match goal with
  | |- context [Game.handleFlowerCards fuel ?g1] =>
      destruct (handleFlowerCards_ok fuel g1) as (g2 & Hrun)
  end.
  - cbn [Game.data Data.players Data.set_players]. lia.
  - unfold flowersInPlay. cbn [Game.data Game.deck Data.players Data.set_players]. lia.
  - rewrite Hrun. unfold modify. eauto.
Qed.

Lemma deal_hands
  (rnd : nat -> nat) (users : list string) (mode : string) (gameData : Data.t)
  (fuel : nat) (g0 g : Game.t) :
  length users = 4 ->
  Game.initialize rnd users mode (Game.new gameData) = (Ok tt, g0) ->
  Game.dealCards fuel g0 = (Ok tt, g) ->
  map (fun p => length (Player.handCards p)) (Data.players (Game.data g))
  = map (fun i => if i =? Data.dealer gameData then 14 else 13) [0; 1; 2; 3]
  /\ Forall noFlower (Data.players (Game.data g))
  /\ Data.state (Game.data g) = GAME_STATES.PLAYING.
Proof.
  intros Husers Hinit Hdeal.
  assert (Hg0 : length (Game.deck g0) = 144
                /\ length (List.filter (fun c => Game.isFlowerId (Card.id c)) (Game.deck g0)) = 8
                /\ length (Data.players (Game.data g0)) = 4
                /\ Data.dealer (Game.data g0) = Data.dealer gameData).
  { apply (f_equal snd) in Hinit. unfold Game.initialize in Hinit.
    cbv beta zeta in Hinit. cbn [snd] in Hinit. subst g0.
    cbn [Game.deck Game.data Data.players Data.dealer Data.set_deck Data.set_currentPlayer
         Data.set_state Data.set_mode Data.set_players].
    repeat split.
    - rewrite shuffle_length. apply initializeDeck_length.
    - rewrite (filter_length_Permutation _ _ _ (shuffle_Permutation rnd _)).
      apply initializeDeck_flowers.
    - now rewrite length_imap. }
  destruct Hg0 as (Hlen & Hflowers & Hplayers & Hdealer).
  assert (Hswept : forall seat, seat < 4 ->
             exists p, Data.players (Game.data g) !! seat = Some p /\ noFlower p)
    by (intros seat Hseat; exact (dealCards_swept _ _ _ seat Hdeal Hseat)).
  revert Hdeal. unfold Game.dealCards. unfold bind at 1. unfold modify at 1.
  unfold bind at 1. unfold modify at 1.
  cbn [Game.data Game.deck Game.set_data].
  replace (Data.players (Data.set_state GAME_STATES.DEALING (Game.data g0)))
    with (Data.players (Game.data g0)) by reflexivity.
  replace (Data.dealer (Data.set_state GAME_STATES.DEALING (Game.data g0)))
    with (Data.dealer (Game.data g0)) by reflexivity.
  destruct (Game.deal_forEach _ 0 (Data.players (Game.data g0)) (Game.deck g0))
    as [ps cards] eqn:Edeal.
  pose proof (deal_forEach_flowers _ _ _ _ _ _ Edeal) as Hfl.
  apply deal_forEach_hands in Edeal as [Hmap Hrest]; [| lia].
  unfold bind. intros Hdeal.
  match type of Hdeal with
  | context [Game.handleFlowerCards fuel ?g1] =>
      destruct (Game.handleFlowerCards fuel g1) as [[[]| |] g2] eqn:Eh; try discriminate;
      apply (handleFlowerCards_enough fuel g1) in Eh
  end.
  2: { unfold flowersInPlay. cbn [Game.data Game.deck Data.players Data.set_players]. lia. }
  unfold modify in Hdeal. run_to Hdeal g.
  split; [| split].
  - cbn [Game.data Game.set_data Data.players Data.set_state] in *.
    rewrite Eh. cbn [Data.players Data.set_players]. rewrite Hmap, Hplayers, Hdealer.
    reflexivity.
  - apply Forall_lookup_2. intros seat p Hp.
    assert (Hseat : seat < 4).
    { apply lookup_lt_Some in Hp. apply (f_equal (@length nat)) in Eh.
      rewrite !length_map in Eh.
      cbn [Game.data Game.set_data Data.players Data.set_state Data.set_players] in *.
      apply (f_equal (@length nat)) in Hmap. rewrite !length_map, length_seq in Hmap. lia. }
    destruct (Hswept seat Hseat) as (p' & Hp' & Hno).
    cbn [Game.data Game.set_data Data.players Data.set_state] in *. congruence.
  - reflexivity.
Qed.

(** A new game of four players is dealt within nine rounds of the flower
    sweep, whatever the shuffle. *)
Lemma deal_four_players
  (rnd : nat -> nat) (users : list string) (mode : string) (gameData : Data.t) (fuel : nat) :
  length users = 4 ->
  8 < fuel ->
  exists g0 g,
    Game.initialize rnd users mode (Game.new gameData) = (Ok tt, g0)
    /\ Game.dealCards fuel g0 = (Ok tt, g)
    /\ map (fun p => length (Player.handCards p)) (Data.players (Game.data g))
       = map (fun i => if i =? Data.dealer gameData then 14 else 13) [0; 1; 2; 3]
    /\ Forall noFlower (Data.players (Game.data g))
    /\ Data.state (Game.data g) = GAME_STATES.PLAYING.
Proof.
  intros Husers Hfuel.
  destruct (Game.initialize rnd users mode (Game.new gameData)) as [r g0] eqn:Hinit.
  assert (Hr : r = Ok tt) by (apply (f_equal fst) in Hinit; cbn in Hinit; congruence).
  subst r.
  destruct (dealCards_ok fuel g0) as (g & Hdeal).
  - apply (f_equal snd) in Hinit. unfold Game.initialize in Hinit.
    cbv beta zeta in Hinit. cbn [snd] in Hinit. subst g0.
    cbn [Game.data Data.players Data.set_deck Data.set_currentPlayer Data.set_state
         Data.set_mode Data.set_players].
    rewrite length_imap. lia.
  - apply (f_equal snd) in Hinit. unfold Game.initialize in Hinit.
    cbv beta zeta in Hinit. cbn [snd] in Hinit. subst g0. cbn [Game.deck].
    rewrite (filter_length_Permutation _ _ _ (shuffle_Permutation rnd _)).
    cbn [Game.deck Game.new]. rewrite initializeDeck_flowers. exact Hfuel.
  - exists g0, g. split; [reflexivity |]. split; [exact Hdeal |].
    exact (deal_hands rnd users mode gameData fuel g0 g Husers Hinit Hdeal).
Qed.

(** X5. A new game of four players is initialized and dealt whatever the
    shuffle, the flower sweep returning within nine rounds: the seat whose
    index is the dealer has 14 cards and every other seat 13, no hand
    holds a flower (each was replaced from the wall) and the game is in
    the playing state. *)
Theorem deal_gives_thirteen_cards_each
  (rnd : nat -> nat) (users : list string) (mode : string) (gameData : Data.t) (fuel : nat) :
  length users = 4 ->
  8 < fuel ->
  exists g0 g,
    Game.initialize rnd users mode (Game.new gameData) = (Ok tt, g0)
    /\ Game.dealCards fuel g0 = (Ok tt, g)
    /\ map (fun p => length (Player.handCards p)) (Data.players (Game.data g))
       = map (fun i => if i =? Data.dealer gameData then 14 else 13) [0; 1; 2; 3]
    /\ Forall noFlower (Data.players (Game.data g))
    /\ Data.state (Game.data g) = GAME_STATES.PLAYING.
Proof. apply deal_four_players. Qed.

Lemma deal_gives_thirteen_cards_each_witness :
  exists g0 g,
    Game.initialize Scenario.rnd Scenario.users GAME_MODES.YAO_BAN_SAN
      (Game.new Scenario.emptyData) = (Ok tt, g0)
    /\ Game.dealCards 9 g0 = (Ok tt, g)
    /\ map (fun p => length (Player.handCards p)) (Data.players (Game.data g))
       = map (fun i => if i =? Data.dealer Scenario.emptyData then 14 else 13) [0; 1; 2; 3]
    /\ Forall noFlower (Data.players (Game.data g))
    /\ Data.state (Game.data g) = GAME_STATES.PLAYING.
Proof.
  apply (deal_gives_thirteen_cards_each
           Scenario.rnd Scenario.users GAME_MODES.YAO_BAN_SAN Scenario.emptyData 9).
  - reflexivity.
  - lia.
Defined.

End Dealing.

(* ===================================================================== *)
(** ** The flower sweep, the discard and the chi check as a whole *)
(* ===================================================================== *)

Section Playing.

(** X6. The [while] loop of [handleFlowerCards] ends, also when the
    replacement cards are flowers: run with one more unit of fuel than
    there are flower ids in the hands and the wall it returns or throws,
    the number of tiles is what it was, and when it returns none of the
    four seats it visits holds a flower. *)
Theorem flower_sweep_ends_without_flowers (g : Game.t) :
  exists r g',
    Game.handleFlowerCards (S (flowersInPlay g)) g = (r, g')
    /\ r <> OutOfFuel
    /\ totalTiles g' = totalTiles g
    /\ match r with
       | Ok _ =>
           Forall (fun i =>
                     exists p, Data.players (Game.data g')
                                 !! ((Data.dealer (Game.data g') + i) mod 4) = Some p
                               /\ noFlower p)
                  [0; 1; 2; 3]
       | _ => True
       end.
Proof.
  destruct (Game.handleFlowerCards (S (flowersInPlay g)) g) as [r g'] eqn:E.
  exists r, g'. split; [reflexivity |]. split; [| split].
  - pose proof (handleFlowerCards_terminates (S (flowersInPlay g)) g ltac:(lia)) as H.
    now rewrite E in H.
  - now apply handleFlowerCards_total in E.
  - destruct r as [[] | |]; [| exact I | exact I].
    pose proof (handleFlowerCards_swept _ _ _ E) as H.
    repeat constructor; apply H; cbn; tauto.
Qed.

Lemma indexOf_first (l : list string) (x : string) (i : nat) :
  JS.indexOf l x = Some i ->
  l !! i = Some x /\ forall j, j < i -> l !! j <> Some x.
Proof.
  revert i. induction l as [|y l IH]; cbn; intros i H; [discriminate |].
  destruct (String.eqb_spec y x) as [-> | Hne].
  - inversion H. subst i. split; [reflexivity | intros j Hj; lia].
  - destruct (JS.indexOf l x) as [k|]; cbn in H; [| discriminate].
    inversion H. subst i. destruct (IH k eq_refl) as [Hk Hfirst]. split; [exact Hk |].
    intros [|j] Hj; cbn; [congruence | apply Hfirst; lia].
Qed.

(** What [nextPlayer] can change: the current seat, the wall and the
    seat that becomes current. *)
Lemma nextPlayer_frame (g g' : Game.t) :
  Game.nextPlayer g = (Ok tt, g') ->
  let next := (Data.currentPlayer (Game.data g) + 1) mod 4 in
  Data.lastDiscardedCard (Game.data g') = Data.lastDiscardedCard (Game.data g)
  /\ Data.lastAction (Game.data g') = Data.lastAction (Game.data g)
  /\ Data.gameHistory (Game.data g') = Data.gameHistory (Game.data g)
  /\ forall i, i <> next ->
       Data.players (Game.data g') !! i = Data.players (Game.data g) !! i.
Proof.
  unfold Game.nextPlayer. cbn zeta.
  set (next := (Data.currentPlayer (Game.data g) + 1) mod 4).
  destruct (CardDeck.hasCards _).
  2: { intros H. run_to H g'. repeat split. }
  destruct (CardDeck.drawCard _) as [[newCard|] cards1]; [| discriminate].
  cbn [Game.data Game.set_data].
  replace (Data.players (Data.set_currentPlayer next (Game.data g)))
    with (Data.players (Game.data g)) by reflexivity.
  destruct (Data.players (Game.data g) !! next) as [player|]; [| discriminate].
  destruct (Card.isFlower newCard).
  - destruct (CardDeck.hasCards cards1).
    + destruct (CardDeck.drawCard cards1) as [[supplementCard|] cards2]; [| discriminate].
      intros H. run_to H g'. repeat split. intros i Hi.
      cbn [Game.data Game.set_player Game.set_data Data.players Data.set_players
           Data.set_currentPlayer].
      now rewrite list_lookup_insert_ne by (intros Heq; apply Hi; now rewrite Heq).
    + intros H. run_to H g'. repeat split. intros i Hi.
      cbn [Game.data Game.set_player Game.set_data Data.players Data.set_players
           Data.set_currentPlayer].
      now rewrite list_lookup_insert_ne by (intros Heq; apply Hi; now rewrite Heq).
  - intros H. run_to H g'. repeat split. intros i Hi.
    cbn [Game.data Game.set_player Game.set_data Data.players Data.set_players
         Data.set_currentPlayer].
    now rewrite list_lookup_insert_ne by (intros Heq; apply Hi; now rewrite Heq).
Qed.

(** X7. An accepted discard moves exactly one card: the first card of the
    seat's hand equal to the id given leaves the hand (later copies stay),
    it becomes the last card of the seat's discard pile and the
    [lastDiscardedCard], and one entry is added to the history. *)
Theorem discard_moves_first_copy (now pos : nat) (cardId : string) (g g' : Game.t) :
  Game.playerDiscard now pos cardId g = (Ok tt, g') ->
  exists player player' i,
    Data.players (Game.data g) !! pos = Some player
    /\ Data.players (Game.data g') !! pos = Some player'
    /\ Player.handCards player !! i = Some cardId
    /\ (forall j, j < i -> Player.handCards player !! j <> Some cardId)
    /\ Player.handCards player' = delete i (Player.handCards player)
    /\ Player.discardedCards player' = Player.discardedCards player ++ [cardId]
    /\ Player.exposedCards player' = Player.exposedCards player
    /\ Player.flowerCards player' = Player.flowerCards player
    /\ Data.lastDiscardedCard (Game.data g') = Some cardId
    /\ Data.lastAction (Game.data g') = Some PLAYER_ACTIONS.DISCARD
    /\ Data.gameHistory (Game.data g')
       = Data.gameHistory (Game.data g)
         ++ [History.mk pos PLAYER_ACTIONS.DISCARD [cardId] now].
Proof.
  intros Hrun.
  apply playerDiscard_inv in Hrun as [[e [He _]] | Hrun]; [discriminate |].
  destruct Hrun as (player & cardIndex & Hst & Hcur & Hp & Hidx & Hnext).
  apply nextPlayer_frame in Hnext as (Hlast & Hact & Hhist & Hother).
  specialize (Hother pos).
  replace (Data.currentPlayer (Game.data (discarded now pos cardId g player cardIndex)))
    with pos in Hother by (destruct g as [d cards]; cbn in *; congruence).
  specialize (Hother (fun H => next_seat_differs pos (eq_sym H))).
  rewrite discarded_players in Hother.
  rewrite list_lookup_insert_eq in Hother by (now apply lookup_lt_Some in Hp).
  cbn [fmap option_fmap option_map] in Hother.
  destruct (indexOf_first _ _ _ Hidx) as [Hi Hfirst].
  eexists player, _, cardIndex.
  split; [exact Hp |]. split; [exact Hother |].
  split; [exact Hi |]. split; [exact Hfirst |].
  rewrite marked_handCards, marked_discardedCards, marked_exposedCards, marked_flowerCards.
  rewrite Hlast, Hact, Hhist. repeat split.
Qed.

Lemma discard_moves_first_copy_witness :
  exists player player' i,
    Data.players (Game.data Scenario.dealt) !! 0 = Some player
    /\ Data.players (Game.data Scenario.afterDiscard) !! 0 = Some player'
    /\ Player.handCards player !! i = Some "wan_5"
    /\ (forall j, j < i -> Player.handCards player !! j <> Some "wan_5")
    /\ Player.handCards player' = delete i (Player.handCards player)
    /\ Player.discardedCards player' = Player.discardedCards player ++ ["wan_5"]
    /\ Player.exposedCards player' = Player.exposedCards player
    /\ Player.flowerCards player' = Player.flowerCards player
    /\ Data.lastDiscardedCard (Game.data Scenario.afterDiscard) = Some "wan_5"
    /\ Data.lastAction (Game.data Scenario.afterDiscard) = Some PLAYER_ACTIONS.DISCARD
    /\ Data.gameHistory (Game.data Scenario.afterDiscard)
       = Data.gameHistory (Game.data Scenario.dealt)
         ++ [History.mk 0 PLAYER_ACTIONS.DISCARD ["wan_5"] 1].
Proof.
  exact (discard_moves_first_copy 1 0 "wan_5" Scenario.dealt Scenario.afterDiscard
           afterDiscard_run).
Defined.

(** X8. For three cards whose values are NaN or integers below 2^53 in
    absolute value (every card of the deck is such), [canFormSequence]
    holds exactly when the card is a numeric card (wan, tong or suo), the
    two others have its type and the three values are integers that are
    some [lo], [lo + 1] and [lo + 2] in any order; a NaN value, a honor or
    a flower among the three makes it false. *)
Theorem canFormSequence_characterised (c c2 c3 : Card.t) :
  JS.isSafe (Card.value c) = true ->
  JS.isSafe (Card.value c2) = true ->
  JS.isSafe (Card.value c3) = true ->
  Card.canFormSequence c c2 c3 = true <->
  Card.isNumber c = true
  /\ Card.type c2 = Card.type c /\ Card.type c3 = Card.type c
  /\ exists x y z lo,
       Card.value c = JS.Int x /\ Card.value c2 = JS.Int y /\ Card.value c3 = JS.Int z
       /\ In lo [x; y; z] /\ In (lo + 1)%Z [x; y; z] /\ In (lo + 2)%Z [x; y; z].
Proof. apply canFormSequence_spec. Qed.

Lemma canFormSequence_characterised_witness :
  Card.canFormSequence (Card.new "wan" (JS.Int 5)) (Card.new "wan" (JS.Int 6))
    (Card.new "wan" (JS.Int 4)) = true <->
  Card.isNumber (Card.new "wan" (JS.Int 5)) = true
  /\ "wan" = "wan" /\ "wan" = "wan"
  /\ exists x y z lo,
       JS.Int 5 = JS.Int x /\ JS.Int 6 = JS.Int y /\ JS.Int 4 = JS.Int z
       /\ In lo [x; y; z] /\ In (lo + 1)%Z [x; y; z] /\ In (lo + 2)%Z [x; y; z].
Proof.
  apply (canFormSequence_characterised (Card.new "wan" (JS.Int 5))
           (Card.new "wan" (JS.Int 6)) (Card.new "wan" (JS.Int 4)));
    reflexivity.
Defined.

(** Beyond 2^53 the addition of 1 rounds: three cards of value 2^53 pass
    [canFormSequence], and so do three of value Infinity; 2^53, 2^53 and
    2^53 + 2 do not. *)
Lemma canFormSequence_beyond_safe :
  Card.canFormSequence (Card.new "wan" (JS.Int (2 ^ 53))) (Card.new "wan" (JS.Int (2 ^ 53)))
    (Card.new "wan" (JS.Int (2 ^ 53))) = true
  /\ Card.canFormSequence (Card.new "wan" (JS.Int (2 ^ 53)))
       (Card.new "wan" (JS.Int (2 ^ 53))) (Card.new "wan" (JS.Int (2 ^ 53 + 2))) = false
  /\ Card.canFormSequence (Card.new "wan" (JS.Inf false)) (Card.new "wan" (JS.Inf false))
       (Card.new "wan" (JS.Inf false)) = true.
Proof. vm_compute. repeat split; reflexivity. Qed.

(** X9. [canChi] reads the game and changes nothing; for a seat that
    exists it answers true exactly when the discard is a numeric card and
    two cards at different places of the seat's hand form a sequence with
    it. *)
Theorem canChi_characterised (pos : nat) (cardId : string) (g : Game.t) (p : Player.t) :
  Data.players (Game.data g) !! pos = Some p ->
  exists b,
    Game.canChi pos (Some cardId) g = (Ok b, g)
    /\ (b = true <->
        Card.isNumber (Game.getCardById cardId) = true
        /\ exists i j a c,
             i < j
             /\ Player.handCards p !! i = Some a
             /\ Player.handCards p !! j = Some c
             /\ Card.canFormSequence (Game.getCardById cardId)
                  (Game.getCardById a) (Game.getCardById c) = true).
Proof.
  intros Hp. exists (chiOf cardId p). split; [now apply canChi_run |].
  unfold chiOf. destruct (Card.isNumber (Game.getCardById cardId)); cbn [negb].
  2: { split; [discriminate | intros [H _]; discriminate]. }
  rewrite canChi_pairs_spec. split.
  - intros (i & j & a & c & Hlt & Ha & Hc & Hseq). split; [reflexivity |].
    rewrite list_lookup_fmap in Ha, Hc.
    destruct (Player.handCards p !! i) as [ia|] eqn:Eia; [| discriminate].
    destruct (Player.handCards p !! j) as [ic|] eqn:Eic; [| discriminate].
    cbn in Ha, Hc. inversion Ha. inversion Hc. subst a c.
    exists i, j, ia, ic. repeat split; assumption.
  - intros (_ & i & j & a & c & Hlt & Ha & Hc & Hseq).
    exists i, j, (Game.getCardById a), (Game.getCardById c).
    rewrite !list_lookup_fmap, Ha, Hc. repeat split; assumption.
Qed.

Lemma canChi_characterised_witness :
  exists b,
    Game.canChi 1 (Some "wan_5") Scenario.dealt = (Ok b, Scenario.dealt)
    /\ (b = true <->
        Card.isNumber (Game.getCardById "wan_5") = true
        /\ exists i j a c,
             i < j
             /\ Scenario.hand1 !! i = Some a
             /\ Scenario.hand1 !! j = Some c
             /\ Card.canFormSequence (Game.getCardById "wan_5")
                  (Game.getCardById a) (Game.getCardById c) = true).
Proof.
  apply (canChi_characterised 1 "wan_5" Scenario.dealt Scenario.seat1).
  vm_compute. reflexivity.
Defined.

End Playing.

(* ===================================================================== *)
(** ** Peng, gang and hu through the controller *)
(* ===================================================================== *)

Section Melds.

Lemma removeFirst_zero (c : string) (l : list string) : removeFirst 0 c l = l.
Proof. induction l as [|x l IH]; cbn; [reflexivity | now rewrite IH]. Qed.

Lemma removeFirst_otherIds (k : nat) (c : string) (l : list string) :
  otherIds c (removeFirst k c l) = otherIds c l.
Proof.
  unfold otherIds. revert k. induction l as [|x l IH]; intros k; [reflexivity |].
  cbn [removeFirst]. destruct k as [|k].
  - change (0 <? 0) with false. cbn [andb List.filter].
    destruct (negb (String.eqb x c)); now rewrite IH.
  - change (0 <? S k) with true. cbn [andb]. destruct (String.eqb x c) eqn:E.
    + rewrite IH. cbn [List.filter]. now rewrite E.
    + cbn [List.filter]. rewrite E. cbn [negb]. now rewrite IH.
Qed.

Lemma removeFirst_countId (k : nat) (c : string) (l : list string) :
  countId c (removeFirst k c l) = countId c l - k.
Proof.
  unfold countId. revert k. induction l as [|x l IH]; intros k; [reflexivity |].
  cbn [removeFirst]. destruct k as [|k].
  - change (0 <? 0) with false. cbn [andb List.filter].
    destruct (String.eqb x c); cbn [length]; rewrite IH; lia.
  - change (0 <? S k) with true. cbn [andb]. destruct (String.eqb x c) eqn:E.
    + rewrite IH. cbn [List.filter]. rewrite E. cbn [length]. lia.
    + cbn [List.filter]. rewrite E. apply IH.
Qed.

(** The loop from the last index down removes the last [limit - removed]
    copies found in the part of the hand it runs through. *)
Lemma removeLoop_spec (limit removed : nat) (c : string) (pre post : list string) :
  GameController.removeLoop (length pre) limit removed c (pre ++ post)
  = rev (removeFirst (limit - removed) c (rev pre)) ++ post.
Proof.
  revert removed post. induction pre as [|x pre IH] using rev_ind; intros removed post.
  - cbn. reflexivity.
  - rewrite length_app. cbn [length]. rewrite Nat.add_1_r.
    cbn [GameController.removeLoop]. rewrite rev_app_distr. cbn [rev app removeFirst].
    destruct (removed <? limit) eqn:Elt.
    + apply Nat.ltb_lt in Elt.
      replace (0 <? limit - removed) with true by (symmetry; apply Nat.ltb_lt; lia).
      cbn [andb]. rewrite <- app_assoc. cbn [app].
      rewrite list_lookup_middle by reflexivity.
      destruct (String.eqb x c).
      * replace (delete (length pre) (pre ++ x :: post)) with (pre ++ post).
        2: { rewrite delete_middle. reflexivity. }
        rewrite IH. now replace (limit - S removed) with (limit - removed - 1) by lia.
      * rewrite IH. cbn [rev]. now rewrite <- app_assoc.
    + apply Nat.ltb_ge in Elt. replace (limit - removed) with 0 by lia.
      cbn [Nat.ltb Nat.leb andb]. rewrite removeFirst_zero. cbn [rev].
      now rewrite rev_involutive.
Qed.

Lemma removeLoop_hand (limit : nat) (c : string) (hand : list string) :
  countId c (GameController.removeLoop (length hand) limit 0 c hand) = countId c hand - limit
  /\ otherIds c (GameController.removeLoop (length hand) limit 0 c hand) = otherIds c hand.
Proof.
  pose proof (removeLoop_spec limit 0 c hand []) as H. rewrite !app_nil_r in H.
  rewrite H, Nat.sub_0_r. split.
  - unfold countId. rewrite filter_rev, length_rev.
    fold (countId c (removeFirst limit c (rev hand))).
    rewrite removeFirst_countId. unfold countId. now rewrite filter_rev, length_rev.
  - unfold otherIds. rewrite filter_rev.
    fold (otherIds c (removeFirst limit c (rev hand))).
    rewrite removeFirst_otherIds. unfold otherIds. now rewrite filter_rev, rev_involutive.
Qed.

Lemma peng_core (pos : nat) (cardId : string) (g : Game.t) (player : Player.t) :
  Data.players (Game.data g) !! pos = Some player ->
  exists player',
    GameController.executePengAction pos cardId g
    = (Throw CastError, Game.set_player pos player' g)
    /\ countId cardId (Player.handCards player')
       = countId cardId (Player.handCards player) - 2
    /\ otherIds cardId (Player.handCards player') = otherIds cardId (Player.handCards player)
    /\ Player.exposedCards player' = Player.exposedCards player
    /\ Player.discardedCards player' = Player.discardedCards player
    /\ Player.flowerCards player' = Player.flowerCards player.
Proof.
  intros Hp. unfold GameController.executePengAction. rewrite Hp.
  eexists. split; [reflexivity |].
  cbn [Player.handCards Player.set_handCards Player.exposedCards
       Player.discardedCards Player.flowerCards].
  destruct (removeLoop_hand 2 cardId (Player.handCards player)) as [Hc Ho].
  repeat split; assumption.
Qed.

(** X10. [executePengAction] checks nothing itself and does not complete
    on a document of the game model: for any seat that exists it removes
    the copies of the card it finds in the hand, two at most and never
    another card, and then throws the CastError of the push of a group
    onto [exposedCards], an array of strings. Nothing is exposed, the
    discard piles and the flowers are as they were and the current seat is
    not changed. *)
Theorem peng_removes_at_most_two (pos : nat) (cardId : string) (g : Game.t) (player : Player.t) :
  Data.players (Game.data g) !! pos = Some player ->
  exists player',
    GameController.executePengAction pos cardId g
    = (Throw CastError, Game.set_player pos player' g)
    /\ countId cardId (Player.handCards player')
       = countId cardId (Player.handCards player) - 2
    /\ otherIds cardId (Player.handCards player') = otherIds cardId (Player.handCards player)
    /\ Player.exposedCards player' = Player.exposedCards player
    /\ Player.discardedCards player' = Player.discardedCards player
    /\ Player.flowerCards player' = Player.flowerCards player
    /\ Data.currentPlayer (Game.data (Game.set_player pos player' g))
       = Data.currentPlayer (Game.data g).
Proof.
  intros Hp. destruct (peng_core pos cardId g player Hp) as (player' & H).
  exists player'. repeat split; try apply H.
Qed.

Lemma peng_removes_at_most_two_witness :
  exists player',
    GameController.executePengAction 1 "wan_4" Scenario.dealt
    = (Throw CastError, Game.set_player 1 player' Scenario.dealt)
    /\ countId "wan_4" (Player.handCards player') = countId "wan_4" Scenario.hand1 - 2
    /\ otherIds "wan_4" (Player.handCards player') = otherIds "wan_4" Scenario.hand1
    /\ Player.exposedCards player' = []
    /\ Player.discardedCards player' = []
    /\ Player.flowerCards player' = []
    /\ Data.currentPlayer (Game.data (Game.set_player 1 player' Scenario.dealt))
       = Data.currentPlayer (Game.data Scenario.dealt).
Proof.
  apply (peng_removes_at_most_two 1 "wan_4" Scenario.dealt Scenario.seat1).
  vm_compute. reflexivity.
Defined.

Lemma deck_ids_equal_table :
  forallb (fun a => forallb (fun b =>
             Bool.eqb (Card.equals (Game.getCardById a) (Game.getCardById b)) (String.eqb a b))
             deckIds) deckIds = true.
Proof. vm_compute. reflexivity. Qed.

Lemma deck_ids_equal (a b : string) :
  isDeckId a = true -> isDeckId b = true ->
  Card.equals (Game.getCardById a) (Game.getCardById b) = String.eqb a b.
Proof.
  unfold isDeckId. rewrite !existsb_exists.
  intros (a' & Ha & Ea) (b' & Hb & Eb).
  apply String.eqb_eq in Ea, Eb. subst a' b'.
  pose proof deck_ids_equal_table as H. rewrite forallb_forall in H.
  specialize (H a Ha). rewrite forallb_forall in H. specialize (H b Hb).
  now apply Bool.eqb_prop in H.
Qed.

Lemma sameCards_deck (hand : list string) (c : string) :
  Forall (fun h => isDeckId h = true) hand -> isDeckId c = true ->
  length (Game.sameCards hand c) = countId c hand.
Proof.
  intros Hhand Hc. unfold Game.sameCards, countId. f_equal.
  induction Hhand as [|h hand Hh _ IH]; cbn; [reflexivity |].
  rewrite (deck_ids_equal h c Hh Hc), IH. reflexivity.
Qed.

(** The handler [playerPeng] never answers with a success. *)
Lemma playerPeng_refused (found : option Data.t) (userId : string) :
  exists status message,
    GameController.playerPeng found userId = (GameController.Failure status message, None).
Proof.
  unfold GameController.playerPeng.
  destruct found as [gameData|]; [| eauto].
  destruct (GameController.findPlayer gameData userId) as [player|]; [| eauto].
  destruct (Data.lastDiscardedCard gameData) as [cardId|]; [| eauto].
  destruct (Game.canPeng _ _ _) as [[[|] | e |] game1]; eauto.
  unfold GameController.executePengAction.
  destruct (Data.players (Game.data game1) !! Player.position player); eauto.
Qed.

(** X11. [playerPeng] lets no peng through. For a seat holding cards of
    the deck and a discard of the deck it answers by the number of copies
    of the discard in the hand: with fewer than two it answers 400; with
    two or more [canPeng] passes and [executePengAction] throws, so the
    answer is 500 with the message of the CastError. Nothing is saved in
    either case, and whatever the stored game and the user, the answer is
    a failure with nothing saved. *)
Theorem playerPeng_needs_two_copies
  (gameData : Data.t) (userId cardId : string) (player p : Player.t) :
  GameController.findPlayer gameData userId = Some player ->
  Data.players gameData !! Player.position player = Some p ->
  Data.lastDiscardedCard gameData = Some cardId ->
  isDeckId cardId = true ->
  Forall (fun h => isDeckId h = true) (Player.handCards p) ->
  GameController.playerPeng (Some gameData) userId
  = (if 2 <=? countId cardId (Player.handCards p)
     then (GameController.Failure 500 "CastError", None)
     else (GameController.Failure 400 "无法碰牌", None))
  /\ forall found user,
       exists status message,
         GameController.playerPeng found user = (GameController.Failure status message, None).
Proof.
  intros Hfind Hp Hlast Hc Hhand. split; [| apply playerPeng_refused].
  unfold GameController.playerPeng. rewrite Hfind, Hlast.
  unfold Game.canPeng.
  replace (Data.players (Game.data (Game.new gameData))) with (Data.players gameData)
    by reflexivity.
  rewrite Hp, (sameCards_deck _ _ Hhand Hc).
  destruct (2 <=? countId cardId (Player.handCards p)); [| reflexivity].
  destruct (peng_core (Player.position player) cardId (Game.new gameData) p Hp)
    as (p' & Hrun & _).
  rewrite Hrun. reflexivity.
Qed.

Lemma playerPeng_needs_two_copies_witness :
  GameController.playerPeng (Some (Game.data Scenario.afterDiscard)) "u3"
  = (if 2 <=? countId "wan_5" (Player.handCards Scenario.seat3)
     then (GameController.Failure 500 "CastError", None)
     else (GameController.Failure 400 "无法碰牌", None))
  /\ forall found user,
       exists status message,
         GameController.playerPeng found user = (GameController.Failure status message, None).
Proof.
  apply (playerPeng_needs_two_copies (Game.data Scenario.afterDiscard) "u3" "wan_5"
           Scenario.seat3 Scenario.seat3).
  - vm_compute. reflexivity.
  - vm_compute. reflexivity.
  - vm_compute. reflexivity.
  - vm_compute. reflexivity.
  - repeat constructor.
Defined.

Lemma new_deck_hasCards : CardDeck.hasCards CardDeck.initializeDeck = true.
Proof. vm_compute. reflexivity. Qed.

Lemma new_deck_draw :
  CardDeck.drawCard CardDeck.initializeDeck
  = (Some (Card.new "hua" (JS.Int 8)), removelast CardDeck.initializeDeck).
Proof. vm_compute. reflexivity. Qed.

Lemma new_deck_rest : length (removelast CardDeck.initializeDeck) = 143.
Proof. vm_compute. reflexivity. Qed.

(** X12. [playerGang] asks [canGang] for the type ['ming'] only: a gang
    request of any other type from a seat of the game is always accepted,
    whatever the hand and whoever is to move. The seat is given the top
    card of the new deck the handler builds (the last flower), its hand and
    exposed groups are otherwise untouched, and it becomes the current
    seat. *)
Theorem playerGang_other_types_always_accepted
  (gameData : Data.t) (userId gangType : string) (player p : Player.t) :
  GameController.findPlayer gameData userId = Some player ->
  Data.players gameData !! Player.position player = Some p ->
  gangType <> "ming" ->
  exists answer saved,
    GameController.playerGang (Some gameData) userId gangType
    = (GameController.Success answer, Some saved)
    /\ Data.currentPlayer saved = Player.position player
    /\ Data.players saved !! Player.position player
       = Some (Player.set_handCards (Player.handCards p ++ ["hua_8"]) p)
    /\ Snapshot.remainingCards (GameController.gang_gameState answer) = 143.
Proof.
  intros Hfind Hp Htype. unfold GameController.playerGang. rewrite Hfind.
  apply String.eqb_neq in Htype. rewrite Htype.
  unfold GameController.executeGangAction.
  replace (Data.players (Game.data (Game.new gameData))) with (Data.players gameData)
    by reflexivity.
  replace (Game.deck (Game.new gameData)) with CardDeck.initializeDeck by reflexivity.
  rewrite Hp, Htype, new_deck_hasCards, new_deck_draw.
  eexists. eexists. split; [reflexivity |].
  cbn [Game.data Game.deck Game.set_player Game.set_data Game.new Game.getGameState
       Data.players Data.set_players Data.currentPlayer Data.set_currentPlayer
       Snapshot.remainingCards GameController.gang_gameState CardDeck.getRemainingCount].
  split; [reflexivity |]. split; [| apply new_deck_rest].
  apply list_lookup_insert_eq. now apply lookup_lt_Some in Hp.
Qed.

Lemma playerGang_other_types_always_accepted_witness :
  exists answer saved,
    GameController.playerGang (Some (Game.data Scenario.dealt)) "u1" "an"
    = (GameController.Success answer, Some saved)
    /\ Data.currentPlayer saved = Player.position Scenario.seat1
    /\ Data.players saved !! Player.position Scenario.seat1
       = Some (Player.set_handCards (Player.handCards Scenario.seat1 ++ ["hua_8"])
                                    Scenario.seat1)
    /\ Snapshot.remainingCards (GameController.gang_gameState answer) = 143.
Proof.
  apply (playerGang_other_types_always_accepted (Game.data Scenario.dealt) "u1" "an"
           Scenario.seat1 Scenario.seat1).
  - vm_compute. reflexivity.
  - vm_compute. reflexivity.
  - intros H. discriminate H.
Defined.

(** X13. [playerHu] never lets a seat win: whatever the game, the room
    and the user, it answers with a failure and saves neither the game
    nor the room: 404 without a game, 403 for a user who is not in it, 400
    for a seat of the game, 500 when the seat of the user's position does
    not exist. *)
Theorem playerHu_is_always_refused
  (now : nat) (found : option Data.t) (room : option Room.t) (gameId userId : string) :
  GameController.playerHu now found room gameId userId
  = match found with
    | None => (GameController.Failure 404 "游戏不存在", None, None)
    | Some gameData =>
        match GameController.findPlayer gameData userId with
        | None => (GameController.Failure 403 "您不在此游戏中", None, None)
        | Some player =>
            match Data.players gameData !! Player.position player with
            | Some _ => (GameController.Failure 400 "无法胡牌", None, None)
            | None => (GameController.Failure 500 "TypeError", None, None)
            end
        end
    end.
Proof.
  unfold GameController.playerHu.
  destruct found as [gameData|]; [| reflexivity].
  destruct (GameController.findPlayer gameData userId) as [player|]; [| reflexivity].
  unfold Game.canHu.
  replace (Data.players (Game.data (Game.new gameData))) with (Data.players gameData)
    by reflexivity.
  destruct (Data.players gameData !! Player.position player); [| reflexivity].
  now rewrite isWinningHand_false.
Qed.

End Melds.

(* ===================================================================== *)
(** ** The flower fan *)
(* ===================================================================== *)

Section FlowerFan.

Lemma fold_count {A : Type} (f : A -> bool) (step : nat -> A -> nat) (l : list A) (n : nat) :
  (forall k x, step k x = if f x then k + 1 else k) ->
  fold_left step l n = n + length (List.filter f l).
Proof.
  intros Hstep. revert n. induction l as [|x l IH]; intros n;
    cbn [fold_left List.filter]; [cbn; lia |].
  rewrite IH, Hstep. destruct (f x); cbn [length]; lia.
Qed.

Lemma flowerFanOf_split (p : Player.t) :
  exists bonus,
    bonus <= 2
    /\ Game.flowerFanOf p
       = length (List.filter (ownFlower (Player.feng p)) (Player.flowerCards p)) + bonus.
Proof.
  unfold Game.flowerFanOf.
  rewrite (fold_count (ownFlower (Player.feng p))).
  2: { intros k x. unfold ownFlower.
       destruct (Card.isFlower (Game.getCardById x)); cbn [andb]; [| reflexivity].
       destruct (Card.getFlowerFeng (Game.getCardById x)); [| reflexivity].
       destruct (Player.feng p); reflexivity. }
  cbn [Nat.add].
  destruct (_ || _); [exists 2 | exists 0]; split; lia.
Qed.

Lemma flower_cards_table :
  map Game.getCardById flowerIds
  = map (fun v => Card.new "hua" (JS.Int v)) [1; 2; 3; 4; 5; 6; 7; 8]%Z.
Proof. vm_compute. reflexivity. Qed.

Lemma ownFlower_at_most_two (feng : option string) :
  length (List.filter (ownFlower feng) flowerIds) <= 2.
Proof.
  replace (List.filter (ownFlower feng) flowerIds)
    with (List.filter (fun c => ownFlower feng c) flowerIds) by reflexivity.
  unfold ownFlower.
  rewrite <- (length_map Game.getCardById).
  rewrite <- (filter_map_swap
                (fun card => Card.isFlower card
                             && match Card.getFlowerFeng card, feng with
                                | Some flowerFeng, Some playerFeng =>
                                    String.eqb flowerFeng playerFeng
                                | _, _ => false
                                end) Game.getCardById).
  rewrite flower_cards_table.
  destruct feng as [f|]; [| cbn; lia].
  cbn [map List.filter].
  repeat match goal with
         | |- context [Card.getFlowerFeng ?c] =>
             let v := eval vm_compute in (Card.getFlowerFeng c) in
             change (Card.getFlowerFeng c) with v
         end.
  repeat match goal with
         | |- context [Card.isFlower ?c] =>
             let v := eval vm_compute in (Card.isFlower c) in
             change (Card.isFlower c) with v
         end.
  cbn [andb].
  destruct (String.eqb_spec "dong" f) as [<- | Hd].
  - vm_compute. lia.
  - destruct (String.eqb_spec "nan" f) as [<- | Hn].
    + vm_compute. lia.
    + destruct (String.eqb_spec "xi" f) as [<- | Hx].
      * vm_compute. lia.
      * destruct (String.eqb_spec "bei" f) as [<- | Hb]; [vm_compute; lia |].
        cbn [length]. lia.
Qed.

(** X14. A seat that holds each flower of the deck at most once gets at
    most four fan from [calculateFlowerFan]: one for each flower of its own
    wind, of which there are two, and two more, once, for a full set of
    seasons or of plants. *)
Theorem flower_fan_at_most_four (pos : nat) (g : Game.t) (p : Player.t) :
  Data.players (Game.data g) !! pos = Some p ->
  NoDup (Player.flowerCards p) ->
  Forall (fun cardId => In cardId flowerIds) (Player.flowerCards p) ->
  exists fan, Game.calculateFlowerFan pos g = (Ok fan, g) /\ fan <= 4.
Proof.
  intros Hp Hnodup Hflowers. unfold Game.calculateFlowerFan. rewrite Hp.
  eexists. split; [reflexivity |].
  destruct (flowerFanOf_split p) as (bonus & Hbonus & ->).
  pose proof (ownFlower_at_most_two (Player.feng p)) as Htwo.
  assert (Hle : length (List.filter (ownFlower (Player.feng p)) (Player.flowerCards p))
                <= length (List.filter (ownFlower (Player.feng p)) flowerIds)).
  { apply NoDup_incl_length.
    - apply List.NoDup_filter. now apply NoDup_ListNoDup.
    - intros x Hx. apply filter_In in Hx as [Hin Hown]. apply filter_In. split; [| exact Hown].
      rewrite Forall_forall in Hflowers. apply Hflowers. now apply list_elem_of_In. }
  lia.
Qed.

Lemma flower_fan_at_most_four_witness :
  exists fan, Game.calculateFlowerFan 1 Scenario.afterDiscard = (Ok fan, Scenario.afterDiscard)
              /\ fan <= 4.
Proof.
  apply (flower_fan_at_most_four 1 Scenario.afterDiscard Scenario.seat1Drawn).
  - vm_compute. reflexivity.
  - apply NoDup_singleton.
  - repeat constructor.
Defined.

End FlowerFan.

(* ===================================================================== *)
(** ** Rooms *)
(* ===================================================================== *)

Section Rooms.

Lemma findIndex_Some (l : list Member.t) (userId : string) (i : nat) :
  Room.findIndex l userId = Some i ->
  exists p, l !! i = Some p /\ Room.findMember l userId = Some p
            /\ Member.userId p = userId.
Proof.
  revert i. induction l as [|q l IH]; intros i H; cbn [Room.findIndex] in H; [discriminate |].
  unfold Room.findMember. cbn [List.find].
  destruct (String.eqb_spec (Member.userId q) userId) as [Heq | Hne].
  - inversion H. subst i. exists q. repeat split; auto.
  - destruct (Room.findIndex l userId) as [j|] eqn:Ej; [| discriminate].
    cbn in H. inversion H. subst i. destruct (IH j eq_refl) as (p & Hp & Hf & Hu).
    exists p. repeat split; auto.
Qed.

Lemma findIndex_None (l : list Member.t) (userId : string) :
  Room.findIndex l userId = None -> ~ In userId (map Member.userId l).
Proof.
  induction l as [|q l IH]; intros H; cbn [Room.findIndex] in H; [intros [] |].
  destruct (String.eqb_spec (Member.userId q) userId) as [Heq | Hne]; [discriminate |].
  destruct (Room.findIndex l userId) as [j|] eqn:Ej; [discriminate |].
  intros [Hin | Hin]; [contradiction | now apply IH].
Qed.

Lemma hasPlayer_In (room : Room.t) (userId : string) :
  Room.hasPlayer room userId = true <-> In userId (memberIds room).
Proof.
  unfold Room.hasPlayer, memberIds. rewrite existsb_exists, in_map_iff.
  split; intros (p & H1 & H2).
  - exists p. apply String.eqb_eq in H2. now split.
  - exists p. split; [exact H2 | now apply String.eqb_eq].
Qed.

Lemma hasPlayer_findIndex (room : Room.t) (userId : string) :
  Room.hasPlayer room userId = true ->
  exists i, Room.findIndex (Room.players room) userId = Some i.
Proof.
  intros H. apply hasPlayer_In in H.
  destruct (Room.findIndex (Room.players room) userId) as [i|] eqn:Ei; [now exists i |].
  now apply findIndex_None in Ei.
Qed.

Lemma hasPlayer_false (room : Room.t) (userId : string) :
  Room.hasPlayer room userId = false ->
  Room.findIndex (Room.players room) userId = None.
Proof.
  intros H. destruct (Room.findIndex (Room.players room) userId) as [i|] eqn:Ei; [| reflexivity].
  apply findIndex_Some in Ei as (p & Hp & _ & Hu).
  assert (Hin : Room.hasPlayer room userId = true).
  { apply hasPlayer_In. unfold memberIds. apply in_map_iff. exists p. split; [exact Hu |].
    apply list_elem_of_In. now apply list_elem_of_lookup_2 in Hp. }
  congruence.
Qed.

(** *** The free seat *)

Lemma occupied_In (position : nat) (occupiedPositions : list nat) :
  existsb (Nat.eqb position) occupiedPositions = true <-> In position occupiedPositions.
Proof.
  rewrite existsb_exists. split.
  - intros (x & Hin & Heq). apply Nat.eqb_eq in Heq. now subst.
  - intros Hin. exists position. split; [exact Hin | apply Nat.eqb_refl].
Qed.

Lemma findPosition_Some (fuel : nat) (occupiedPositions : list nat) (position q : nat) :
  Room.findPosition fuel occupiedPositions position = Some q ->
  ~ In q occupiedPositions
  /\ position <= q
  /\ forall r, position <= r < q -> In r occupiedPositions.
Proof.
  revert position. induction fuel as [|fuel IH]; intros position H; [discriminate |].
  cbn [Room.findPosition] in H.
  destruct (existsb (Nat.eqb position) occupiedPositions) eqn:Eocc.
  - apply IH in H as (Hfree & Hle & Hbelow). split; [exact Hfree |]. split; [lia |].
    intros r Hr. destruct (Nat.eq_dec r position) as [-> | Hne].
    + now apply occupied_In.
    + apply Hbelow. lia.
  - inversion H. subst q. split; [| split; [lia | intros r Hr; lia]].
    intros Hin. apply occupied_In in Hin. congruence.
Qed.

Lemma findPosition_None (fuel : nat) (occupiedPositions : list nat) (position : nat) :
  Room.findPosition fuel occupiedPositions position = None ->
  forall r, position <= r < position + fuel -> In r occupiedPositions.
Proof.
  revert position. induction fuel as [|fuel IH]; intros position H r Hr; [lia |].
  cbn [Room.findPosition] in H.
  destruct (existsb (Nat.eqb position) occupiedPositions) eqn:Eocc; [| discriminate].
  destruct (Nat.eq_dec r position) as [-> | Hne].
  - now apply occupied_In.
  - apply (IH _ H). lia.
Qed.

(** A list that holds every number below [n] has at least [n]
    elements. *)
Lemma below_length (n : nat) (l : list nat) :
  (forall r, r < n -> In r l) -> n <= length l.
Proof.
  intros H. rewrite <- (length_seq n 0) at 1.
  apply NoDup_incl_length; [apply seq_NoDup |].
  intros r Hr. apply in_seq in Hr. apply H. lia.
Qed.

(** The loop of [joinRoom] ends within [length + 1] tests, on the lowest
    seat that is not taken. *)
Lemma findPosition_free (occupiedPositions : list nat) :
  exists q,
    Room.findPosition (S (length occupiedPositions)) occupiedPositions 0 = Some q
    /\ ~ In q occupiedPositions
    /\ (forall r, r < q -> In r occupiedPositions)
    /\ q <= length occupiedPositions.
Proof.
  destruct (Room.findPosition (S (length occupiedPositions)) occupiedPositions 0)
    as [q|] eqn:Ef.
  - apply findPosition_Some in Ef as (Hfree & _ & Hbelow). exists q.
    assert (Hall : forall r, r < q -> In r occupiedPositions)
      by (intros r Hr; apply Hbelow; lia).
    repeat split; auto. now apply below_length.
  - exfalso. pose proof (findPosition_None _ _ _ Ef) as Hall.
    assert (Hlen : S (length occupiedPositions) <= length occupiedPositions).
    { apply below_length. intros r Hr. apply Hall. lia. }
    lia.
Qed.

(** *** [joinRoom] *)

Lemma state_eqb_playing (s : ROOM_STATES.t) :
  ROOM_STATES.eqb s ROOM_STATES.PLAYING = true <-> s = ROOM_STATES.PLAYING.
Proof. destruct s; cbn; split; congruence. Qed.

Lemma joinRoom_newcomer (now : nat) (userId nickname avatar : string) (room : Room.t) :
  Room.hasPlayer room userId = false ->
  length (Room.players room) < Room.maxPlayers room ->
  Room.state room <> ROOM_STATES.PLAYING ->
  exists position,
    Room.joinRoom now userId nickname avatar room
    = (Ok position,
       Room.set_players
         (Room.players room
          ++ [Member.mk userId nickname avatar position false true now now]) room)
    /\ ~ In position (seatsTaken room)
    /\ (forall q, q < position -> In q (seatsTaken room))
    /\ position <= length (Room.players room).
Proof.
  intros Hnew Hroom Hstate. unfold Room.joinRoom.
  destruct (Nat.leb_spec (Room.maxPlayers room) (length (Room.players room))); [lia |].
  destruct (ROOM_STATES.eqb (Room.state room) ROOM_STATES.PLAYING) eqn:Es.
  { now apply state_eqb_playing in Es. }
  rewrite (hasPlayer_false _ _ Hnew). cbv zeta.
  destruct (findPosition_free (map Member.position (Room.players room)))
    as (q & Hq & Hfree & Hbelow & Hle).
  rewrite Hq. exists q. rewrite length_map in Hle. repeat split; auto.
Qed.

Lemma joinRoom_member (now : nat) (userId nickname avatar : string) (room : Room.t) :
  Room.hasPlayer room userId = true ->
  length (Room.players room) < Room.maxPlayers room ->
  Room.state room <> ROOM_STATES.PLAYING ->
  exists i p,
    Room.players room !! i = Some p
    /\ Member.userId p = userId
    /\ Room.joinRoom now userId nickname avatar room
       = (Ok (Member.position p),
          Room.set_players (<[i := Member.set_online true now p]> (Room.players room)) room).
Proof.
  intros Hold Hroom Hstate. unfold Room.joinRoom.
  destruct (Nat.leb_spec (Room.maxPlayers room) (length (Room.players room))); [lia |].
  destruct (ROOM_STATES.eqb (Room.state room) ROOM_STATES.PLAYING) eqn:Es.
  { now apply state_eqb_playing in Es. }
  destruct (hasPlayer_findIndex _ _ Hold) as (i & Hi). rewrite Hi.
  apply findIndex_Some in Hi as (p & Hp & Hf & Hu). rewrite Hf.
  exists i, p. repeat split; auto.
Qed.

(** What a call of [joinRoom] that returns has done. *)
Lemma joinRoom_Ok (now : nat) (userId nickname avatar : string) (room room' : Room.t)
  (position : nat) :
  Room.joinRoom now userId nickname avatar room = (Ok position, room') ->
  length (Room.players room) < Room.maxPlayers room
  /\ ((exists i p, Room.players room !! i = Some p
                   /\ room' = Room.set_players
                                (<[i := Member.set_online true now p]> (Room.players room)) room)
      \/ (Room.hasPlayer room userId = false
          /\ ~ In position (seatsTaken room)
          /\ position <= length (Room.players room)
          /\ room' = Room.set_players
                       (Room.players room
                        ++ [Member.mk userId nickname avatar position false true now now])
                       room)).
Proof.
  intros H.
  assert (Hroom : length (Room.players room) < Room.maxPlayers room).
  { unfold Room.joinRoom in H.
    destruct (Nat.leb_spec (Room.maxPlayers room) (length (Room.players room)));
      [discriminate | assumption]. }
  assert (Hstate : Room.state room <> ROOM_STATES.PLAYING).
  { unfold Room.joinRoom in H.
    destruct (Room.maxPlayers room <=? length (Room.players room)); [discriminate |].
    destruct (ROOM_STATES.eqb (Room.state room) ROOM_STATES.PLAYING) eqn:Es; [discriminate |].
    intros Hs. apply state_eqb_playing in Hs. congruence. }
  split; [exact Hroom |].
  destruct (Room.hasPlayer room userId) eqn:Ehas.
  - left. destruct (joinRoom_member now userId nickname avatar room Ehas Hroom Hstate)
      as (i & p & Hp & _ & Hrun).
    rewrite Hrun in H. exists i, p. split; [exact Hp |]. now inversion H.
  - right. destruct (joinRoom_newcomer now userId nickname avatar room Ehas Hroom Hstate)
      as (q & Hrun & Hfree & _ & Hle).
    rewrite Hrun in H. inversion H. subst. repeat split; auto.
Qed.

(** X15. A user who is not a member and joins a room that is neither
    full nor playing is added at the end of the members, not ready and
    online, on the lowest seat nobody has; that seat is at most the number
    of members before. The search for the seat always ends. *)
Theorem joinRoom_takes_lowest_free_seat
  (now : nat) (userId nickname avatar : string) (room : Room.t) :
  Room.hasPlayer room userId = false ->
  length (Room.players room) < Room.maxPlayers room ->
  Room.state room <> ROOM_STATES.PLAYING ->
  exists position,
    Room.joinRoom now userId nickname avatar room
    = (Ok position,
       Room.set_players
         (Room.players room
          ++ [Member.mk userId nickname avatar position false true now now]) room)
    /\ ~ In position (seatsTaken room)
    /\ (forall q, q < position -> In q (seatsTaken room))
    /\ position <= length (Room.players room).
Proof. apply joinRoom_newcomer. Qed.

Lemma joinRoom_takes_lowest_free_seat_witness :
  exists position,
    Room.joinRoom 9 "u9" "nine" EmptyString Scenario.table3Left
    = (Ok position,
       Room.set_players
         (Room.players Scenario.table3Left
          ++ [Member.mk "u9" "nine" EmptyString position false true 9 9])
         Scenario.table3Left)
    /\ ~ In position (seatsTaken Scenario.table3Left)
    /\ (forall q, q < position -> In q (seatsTaken Scenario.table3Left))
    /\ position <= length (Room.players Scenario.table3Left).
Proof.
  apply (joinRoom_takes_lowest_free_seat 9 "u9" "nine" EmptyString Scenario.table3Left).
  - reflexivity.
  - vm_compute. lia.
  - vm_compute. discriminate.
Defined.

(** *** The members of a room stay distinct *)

Lemma map_insert_same {A B : Type} (f : A -> B) (l : list A) (i : nat) (p q : A) :
  l !! i = Some p -> f q = f p -> map f (<[i := q]> l) = map f l.
Proof.
  intros Hp Hf. rewrite list_fmap_insert. apply list_insert_id.
  rewrite list_lookup_fmap, Hp. cbn. now rewrite Hf.
Qed.

Lemma NoDup_delete {A : Type} (l : list A) (i : nat) :
  List.NoDup l -> List.NoDup (delete i l).
Proof.
  intros H. apply NoDup_ListNoDup. apply NoDup_ListNoDup in H.
  exact (sublist_NoDup _ _ H (sublist_delete l i)).
Qed.

Lemma NoDup_snoc {A : Type} (l : list A) (x : A) :
  ~ In x l -> List.NoDup l -> List.NoDup (l ++ [x]).
Proof.
  intros Hx Hl. apply List.NoDup_app; [exact Hl | repeat constructor; intros [] |].
  intros a Ha [<- | []]. contradiction.
Qed.

Lemma In_delete {A : Type} (l : list A) (i : nat) (x : A) :
  In x (delete i l) -> In x l.
Proof.
  intros H. apply list_elem_of_In. apply list_elem_of_In in H.
  exact (elem_of_sublist _ _ _ H (sublist_delete l i)).
Qed.

Lemma roomWf_players (room : Room.t) (l : list Member.t) :
  roomWf room ->
  map Member.userId l = memberIds room ->
  map Member.position l = seatsTaken room ->
  roomWf (Room.set_players l room).
Proof.
  intros (Hu & Hp & Hs & Hl) Hids Hseats.
  unfold roomWf, memberIds, seatsTaken. cbn [Room.players Room.set_players Room.maxPlayers].
  rewrite Hids, Hseats. repeat split; auto.
  apply (f_equal (@length string)) in Hids. unfold memberIds in Hids.
  rewrite !length_map in Hids. lia.
Qed.

Lemma roomWf_insert (room : Room.t) (i : nat) (p q : Member.t) :
  roomWf room ->
  Room.players room !! i = Some p ->
  Member.userId q = Member.userId p ->
  Member.position q = Member.position p ->
  roomWf (Room.set_players (<[i := q]> (Room.players room)) room).
Proof.
  intros Hwf Hp Hu Hs. apply roomWf_players; [exact Hwf | |];
    now apply map_insert_same with (p := p).
Qed.

Lemma roomWf_delete (room : Room.t) (i : nat) :
  roomWf room -> roomWf (Room.set_players (delete i (Room.players room)) room).
Proof.
  intros (Hu & Hp & Hs & Hl).
  unfold roomWf, memberIds, seatsTaken in *.
  cbn [Room.players Room.set_players Room.maxPlayers].
  rewrite !list_fmap_delete. repeat split.
  - now apply NoDup_delete.
  - now apply NoDup_delete.
  - apply Forall_forall. intros x Hx. apply list_elem_of_In, In_delete in Hx.
    rewrite Forall_forall in Hs. apply Hs. now apply list_elem_of_In.
  - pose proof (sublist_length _ _ (sublist_delete (Room.players room) i)). lia.
Qed.

Lemma roomWf_frame (room room' : Room.t) :
  roomWf room ->
  Room.players room' = Room.players room ->
  Room.maxPlayers room' = Room.maxPlayers room ->
  roomWf room'.
Proof.
  unfold roomWf, memberIds, seatsTaken. intros H Hp Hm. now rewrite Hp, Hm.
Qed.

Lemma roomWf_unready (room : Room.t) :
  roomWf room ->
  roomWf (Room.set_players (map (Member.set_isReady false) (Room.players room)) room).
Proof.
  intros Hwf. apply roomWf_players; [exact Hwf | |];
    rewrite map_map; reflexivity.
Qed.

Lemma roomStep_wf (room room' : Room.t) :
  roomStep room room' -> roomWf room -> roomWf room'.
Proof.
  intros Hstep Hwf. destruct Hstep as
    [now userId nickname avatar position room room' H
    | now userId room room' H
    | now userId isReady allReady room room' H
    | room room' H
    | gameResult room room' H
    | now userId room room' H
    | room room' H].
  - apply joinRoom_Ok in H as (Hroom & [(i & p & Hp & ->) | (Hnew & Hfree & Hle & ->)]).
    + now apply roomWf_insert with (p := p).
    + destruct Hwf as (Hu & Hp & Hs & Hl).
      unfold roomWf, memberIds, seatsTaken in *.
      cbn [Room.players Room.set_players Room.maxPlayers].
      rewrite !map_app, length_app. cbn [map length Member.userId Member.position].
      repeat split.
      * apply NoDup_snoc; [| exact Hu]. intros Hin.
        apply (proj2 (hasPlayer_In room userId)) in Hin. congruence.
      * apply NoDup_snoc; [exact Hfree | exact Hp].
      * apply Forall_app. split; [exact Hs |]. apply Forall_singleton. lia.
      * lia.
  - unfold Room.leaveRoom in H.
    destruct (Room.findIndex (Room.players room) userId) as [i|] eqn:Ei; [| discriminate].
    destruct (ROOM_STATES.eqb (Room.state room) ROOM_STATES.PLAYING).
    + destruct (Room.players room !! i) as [p|] eqn:Ep; [| discriminate].
      run_to H room'. now apply roomWf_insert with (p := p).
    + run_to H room'. pose proof (roomWf_delete room i Hwf) as Hwf1.
      match goal with
      | |- roomWf (if _ then Room.set_isActive false ?r2 else ?r2) =>
          assert (Hwf2 : roomWf r2)
      end.
      { destruct (Room.players (Room.set_players _ room)) as [|first rest]; [exact Hwf1 |].
        destruct (String.eqb _ userId); [| exact Hwf1].
        now apply (roomWf_frame _ _ Hwf1). }
      match goal with
      | |- roomWf (if ?c then _ else _) => destruct c; [| exact Hwf2]
      end.
      now apply (roomWf_frame _ _ Hwf2).
  - unfold Room.playerReady in H.
    destruct (Room.findIndex (Room.players room) userId) as [i|] eqn:Ei; [| discriminate].
    apply findIndex_Some in Ei as (p & Hp & Hf & _). rewrite Hf in H.
    run_to H room'.
    apply (roomWf_frame (Room.set_players
                           (<[i := Member.set_lastActiveTime now
                                     (Member.set_isReady isReady p)]> (Room.players room))
                           room)); [| reflexivity | reflexivity].
    now apply roomWf_insert with (p := p).
  - unfold Room.startGame in H.
    destruct (negb _); [discriminate |]. destruct (_ <? 2); [discriminate |].
    run_to H room'.
    apply (roomWf_frame (Room.set_players (map (Member.set_isReady false) (Room.players room))
                           room)); [| reflexivity | reflexivity].
    now apply roomWf_unready.
  - unfold Room.gameFinished in H. run_to H room'.
    apply (roomWf_frame (Room.set_players (map (Member.set_isReady false) (Room.players room))
                           room)); [| reflexivity | reflexivity].
    now apply roomWf_unready.
  - unfold Room.updatePlayerActivity in H.
    destruct (Room.findIndex (Room.players room) userId) as [i|] eqn:Ei.
    + apply findIndex_Some in Ei as (p & Hp & Hf & _). rewrite Hf in H.
      run_to H room'. now apply roomWf_insert with (p := p).
    + run_to H room'. exact Hwf.
  - unfold Room.dissolveRoom in H. destruct (negb _); [discriminate |].
    run_to H room'. now apply (roomWf_frame _ _ Hwf).
Qed.

Lemma roomReachable_wf (room : Room.t) : roomReachable room -> roomWf room.
Proof.
  induction 1 as [room Hnil | room room' _ IH Hstep].
  - unfold roomWf, memberIds, seatsTaken. rewrite Hnil. cbn.
    repeat split; try constructor. lia.
  - exact (roomStep_wf _ _ Hstep IH).
Qed.

(** X16. In every room reached from a room without players by calls of
    [joinRoom], [leaveRoom], [playerReady], [startGame], [gameFinished],
    [updatePlayerActivity] and [dissolveRoom] that return, no user is a
    member twice, no two members have the same seat, every seat is below
    [maxPlayers] and there are at most [maxPlayers] members. *)
Theorem reachable_room_members_distinct (room : Room.t) :
  roomReachable room -> roomWf room.
Proof. apply roomReachable_wf. Qed.

Lemma table3_reachable : roomReachable Scenario.table3.
Proof.
  pose (r1 := Scenario.execRoom (Scenario.join 1 "u0") Scenario.lobby).
  pose (r2 := Scenario.execRoom (Scenario.join 2 "u1") r1).
  apply (reach_step r2); [apply (reach_step r1); [apply (reach_step Scenario.lobby) |] |].
  - apply reach_created. reflexivity.
  - apply (step_joinRoom 1 "u0" "u0" EmptyString 0). reflexivity.
  - apply (step_joinRoom 2 "u1" "u1" EmptyString 1). reflexivity.
  - apply (step_joinRoom 3 "u2" "u2" EmptyString 2). reflexivity.
Defined.

Lemma reachable_room_members_distinct_witness : roomWf Scenario.table3.
Proof. exact (reachable_room_members_distinct Scenario.table3 table3_reachable). Defined.

(** *** [leaveRoom] *)

Lemma delete_not_In {A B : Type} (f : A -> B) (l : list A) (i : nat) (p : A) :
  List.NoDup (map f l) -> l !! i = Some p -> ~ In (f p) (map f (delete i l)).
Proof.
  intros Hnd Hp. rewrite delete_take_drop, map_app.
  rewrite <- (take_drop_middle l i p Hp), map_app in Hnd. cbn [map] in Hnd.
  now apply NoDup_remove_2 in Hnd.
Qed.

Lemma delete_In_other {A B : Type} (f : A -> B) (l : list A) (i : nat) (p : A) (y : B) :
  l !! i = Some p -> y <> f p -> In y (map f (delete i l)) <-> In y (map f l).
Proof.
  intros Hp Hy. rewrite delete_take_drop.
  rewrite <- (take_drop_middle l i p Hp) at 3.
  rewrite !map_app, !in_app_iff. cbn [map In]. split; [tauto |].
  intros [H | [H | H]]; [tauto | congruence | tauto].
Qed.

Lemma leaveRoom_waiting (now : nat) (userId : string) (room : Room.t) :
  Room.hasPlayer room userId = true ->
  Room.state room <> ROOM_STATES.PLAYING ->
  exists i p room',
    Room.players room !! i = Some p
    /\ Member.userId p = userId
    /\ Room.leaveRoom now userId room = (Ok tt, room')
    /\ Room.players room' = delete i (Room.players room)
    /\ Room.owner room'
       = (if Room.isOwner room userId
          then match delete i (Room.players room) with
               | first :: _ => Member.userId first
               | [] => Room.owner room
               end
          else Room.owner room)
    /\ Room.isActive room'
       = (if length (Room.players room) =? 1 then false else Room.isActive room)
    /\ Room.state room' = Room.state room
    /\ Room.maxPlayers room' = Room.maxPlayers room.
Proof.
  intros Hold Hstate. unfold Room.leaveRoom.
  destruct (hasPlayer_findIndex _ _ Hold) as (i & Hi). rewrite Hi.
  apply findIndex_Some in Hi as (p & Hp & _ & Hu).
  destruct (ROOM_STATES.eqb (Room.state room) ROOM_STATES.PLAYING) eqn:Es.
  { now apply state_eqb_playing in Es. }
  exists i, p. eexists. split; [exact Hp |]. split; [exact Hu |]. split; [reflexivity |].
  assert (Hlen : length (delete i (Room.players room)) = length (Room.players room) - 1).
  { apply length_delete. eauto. }
  cbv zeta. cbn [Room.players Room.set_players Room.owner]. unfold Room.isOwner.
  destruct (delete i (Room.players room)) as [|first rest] eqn:Edel.
  - cbn [Room.players Room.set_players length Nat.eqb Room.set_isActive Room.isActive
         Room.owner Room.state Room.maxPlayers].
    cbn [length] in Hlen.
    assert (H1 : length (Room.players room) = 1).
    { apply lookup_lt_Some in Hp. lia. }
    rewrite H1. cbn. destruct (String.eqb _ _); repeat split.
  - cbn [length] in Hlen.
    assert (H1 : (length (Room.players room) =? 1) = false) by (apply Nat.eqb_neq; lia).
    rewrite H1.
    destruct (String.eqb (Room.owner room) userId);
      cbn [Room.players Room.set_players Room.set_owner length Nat.eqb Room.set_isActive
           Room.isActive Room.owner Room.state Room.maxPlayers];
      repeat split.
Qed.

(** X17. In a room that is not playing, [leaveRoom] of a member takes
    exactly that member out: the others keep their order, seats and
    flags, the user is no member any more and everybody else is a member
    as before. If the owner leaves and somebody remains, the first
    remaining member becomes the owner; if the last member leaves, the
    room is marked inactive. The state of the room is not changed. *)
Theorem leaveRoom_takes_the_member_out (now : nat) (userId : string) (room : Room.t) :
  roomWf room ->
  Room.hasPlayer room userId = true ->
  Room.state room <> ROOM_STATES.PLAYING ->
  exists i p room',
    Room.players room !! i = Some p
    /\ Member.userId p = userId
    /\ Room.leaveRoom now userId room = (Ok tt, room')
    /\ Room.players room' = delete i (Room.players room)
    /\ Room.hasPlayer room' userId = false
    /\ (forall other, other <> userId ->
          Room.hasPlayer room' other = Room.hasPlayer room other)
    /\ Room.owner room'
       = (if Room.isOwner room userId
          then match Room.players room' with
               | first :: _ => Member.userId first
               | [] => Room.owner room
               end
          else Room.owner room)
    /\ Room.isActive room'
       = (if length (Room.players room) =? 1 then false else Room.isActive room)
    /\ Room.state room' = Room.state room
    /\ roomWf room'.
Proof.
  intros Hwf Hold Hstate.
  destruct (leaveRoom_waiting now userId room Hold Hstate)
    as (i & p & room' & Hp & Hu & Hrun & Hplayers & Howner & Hactive & Hst & Hmax).
  exists i, p, room'. rewrite Hplayers.
  split; [exact Hp |]. split; [exact Hu |]. split; [exact Hrun |]. split; [reflexivity |].
  split; [| split; [| split; [exact Howner | split; [exact Hactive | split; [exact Hst |]]]]].
  - destruct (Room.hasPlayer room' userId) eqn:Ehas; [| reflexivity].
    apply hasPlayer_In in Ehas. unfold memberIds in Ehas. rewrite Hplayers, <- Hu in Ehas.
    destruct Hwf as (Hnd & _). now apply (delete_not_In Member.userId _ _ _ Hnd Hp) in Ehas.
  - intros other Hother.
    destruct (Room.hasPlayer room other) eqn:Ehas.
    + apply hasPlayer_In. apply hasPlayer_In in Ehas. unfold memberIds in *.
      rewrite Hplayers. apply (delete_In_other Member.userId _ _ _ _ Hp); congruence.
    + destruct (Room.hasPlayer room' other) eqn:Ehas'; [| reflexivity].
      apply hasPlayer_In in Ehas'. unfold memberIds in Ehas'. rewrite Hplayers in Ehas'.
      apply (delete_In_other Member.userId _ _ _ _ Hp) in Ehas'; [| congruence].
      apply (proj2 (hasPlayer_In room other)) in Ehas'. congruence.
  - apply (roomWf_frame (Room.set_players (delete i (Room.players room)) room));
      [now apply roomWf_delete | exact Hplayers | exact Hmax].
Qed.

Lemma leaveRoom_takes_the_member_out_witness :
  exists i p room',
    Room.players Scenario.table3 !! i = Some p
    /\ Member.userId p = "u0"
    /\ Room.leaveRoom 5 "u0" Scenario.table3 = (Ok tt, room')
    /\ Room.players room' = delete i (Room.players Scenario.table3)
    /\ Room.hasPlayer room' "u0" = false
    /\ (forall other, other <> "u0" ->
          Room.hasPlayer room' other = Room.hasPlayer Scenario.table3 other)
    /\ Room.owner room'
       = (if Room.isOwner Scenario.table3 "u0"
          then match Room.players room' with
               | first :: _ => Member.userId first
               | [] => Room.owner Scenario.table3
               end
          else Room.owner Scenario.table3)
    /\ Room.isActive room'
       = (if length (Room.players Scenario.table3) =? 1 then false
          else Room.isActive Scenario.table3)
    /\ Room.state room' = Room.state Scenario.table3
    /\ roomWf room'.
Proof.
  apply (leaveRoom_takes_the_member_out 5 "u0" Scenario.table3).
  - exact (roomReachable_wf _ table3_reachable).
  - reflexivity.
  - vm_compute. discriminate.
Defined.

Lemma joinRoom_playing (now : nat) (userId nickname avatar : string) (room : Room.t) :
  Room.state room = ROOM_STATES.PLAYING ->
  exists e, Room.joinRoom now userId nickname avatar room = (Throw e, room).
Proof.
  intros Hs. unfold Room.joinRoom. destruct (_ <=? _); [eauto |].
  rewrite Hs. cbn. eauto.
Qed.

(** X18. While the room is playing, [leaveRoom] keeps the member and
    its seat and only marks it offline, and a [joinRoom] of that user
    afterwards throws and changes nothing: the branch of [joinRoom] for a
    member who comes back is not reached during a game. *)
Theorem leaving_a_running_game_cannot_rejoin
  (now later : nat) (userId nickname avatar : string) (room : Room.t) :
  Room.state room = ROOM_STATES.PLAYING ->
  Room.hasPlayer room userId = true ->
  exists i p room' e,
    Room.players room !! i = Some p
    /\ Member.userId p = userId
    /\ Room.leaveRoom now userId room = (Ok tt, room')
    /\ room' = Room.set_players
                 (<[i := Member.set_online false now p]> (Room.players room)) room
    /\ memberIds room' = memberIds room
    /\ seatsTaken room' = seatsTaken room
    /\ Room.joinRoom later userId nickname avatar room' = (Throw e, room').
Proof.
  intros Hs Hold. unfold Room.leaveRoom.
  destruct (hasPlayer_findIndex _ _ Hold) as (i & Hi). rewrite Hi.
  apply findIndex_Some in Hi as (p & Hp & _ & Hu).
  rewrite Hs, Hp. cbn [ROOM_STATES.eqb].
  destruct (joinRoom_playing later userId nickname avatar
              (Room.set_players (<[i := Member.set_online false now p]> (Room.players room))
                 room) Hs) as (e & Hjoin).
  exists i, p. eexists. exists e. repeat split; try eassumption.
  - unfold memberIds. cbn [Room.players Room.set_players].
    now apply map_insert_same with (p := p).
  - unfold seatsTaken. cbn [Room.players Room.set_players].
    now apply map_insert_same with (p := p).
Qed.

Lemma leaving_a_running_game_cannot_rejoin_witness :
  exists i p room' e,
    Room.players Scenario.table4Playing !! i = Some p
    /\ Member.userId p = "u2"
    /\ Room.leaveRoom 8 "u2" Scenario.table4Playing = (Ok tt, room')
    /\ room' = Room.set_players
                 (<[i := Member.set_online false 8 p]> (Room.players Scenario.table4Playing))
                 Scenario.table4Playing
    /\ memberIds room' = memberIds Scenario.table4Playing
    /\ seatsTaken room' = seatsTaken Scenario.table4Playing
    /\ Room.joinRoom 9 "u2" "u2" EmptyString room' = (Throw e, room').
Proof.
  apply (leaving_a_running_game_cannot_rejoin 8 9 "u2" "u2" EmptyString
           Scenario.table4Playing); reflexivity.
Defined.

(** *** [playerReady] and [startGame] *)

Lemma forallb_Forall_true {A : Type} (f : A -> bool) (l : list A) :
  forallb f l = true <-> Forall (fun x => f x = true) l.
Proof.
  rewrite forallb_forall, Forall_forall. split; intros H x Hx; apply H.
  - now apply list_elem_of_In.
  - now apply list_elem_of_In.
Qed.

Lemma playerReady_Ok (now : nat) (userId : string) (isReady allReady : bool)
  (room room' : Room.t) :
  Room.playerReady now userId isReady room = (Ok allReady, room') ->
  exists i p,
    Room.players room !! i = Some p
    /\ Member.userId p = userId
    /\ Room.players room'
       = <[i := Member.set_lastActiveTime now (Member.set_isReady isReady p)]>
           (Room.players room)
    /\ allReady = (2 <=? length (Room.players room')) && forallb Member.isReady (Room.players room')
    /\ room' = Room.set_state (if allReady then ROOM_STATES.READY else ROOM_STATES.WAITING)
                 (Room.set_players (Room.players room') room).
Proof.
  unfold Room.playerReady.
  destruct (Room.findIndex (Room.players room) userId) as [i|] eqn:Ei; [| discriminate].
  apply findIndex_Some in Ei as (p & Hp & Hf & Hu). rewrite Hf. cbv zeta.
  intros H. exists i, p.
  assert (Hall : allReady
                 = (2 <=? length (<[i := Member.set_lastActiveTime now
                                           (Member.set_isReady isReady p)]> (Room.players room)))
                   && forallb Member.isReady
                        (<[i := Member.set_lastActiveTime now (Member.set_isReady isReady p)]>
                           (Room.players room))) by (inversion H; reflexivity).
  run_to H room'. cbn [Room.players Room.set_players Room.set_state].
  repeat split; try assumption. now rewrite <- Hall.
Qed.

(** X19. [playerReady] of a member answers true exactly when, with the
    member's new flag, the room has at least two members and every one is
    ready; whatever the state was before, the room is then ready and
    [startGame] puts it into the playing state with every member not ready
    again. When it answers false the room is waiting and [startGame]
    refuses. Members and seats are as before. *)
Theorem playerReady_decides_whether_game_starts
  (now : nat) (userId : string) (isReady allReady : bool) (room room' : Room.t) :
  Room.playerReady now userId isReady room = (Ok allReady, room') ->
  (allReady = true <->
   2 <= length (Room.players room')
   /\ Forall (fun p => Member.isReady p = true) (Room.players room'))
  /\ memberIds room' = memberIds room
  /\ seatsTaken room' = seatsTaken room
  /\ if allReady then
       Room.state room' = ROOM_STATES.READY
       /\ Room.startGame room'
          = (Ok tt,
             Room.set_players (map (Member.set_isReady false) (Room.players room'))
               (Room.set_state ROOM_STATES.PLAYING room'))
     else
       Room.state room' = ROOM_STATES.WAITING
       /\ Room.startGame room' = (Throw (Error "房间状态不允许开始游戏"), room').
Proof.
  intros H. apply playerReady_Ok in H as (i & p & Hp & Hu & Hplayers & Hall & Hroom').
  split; [| split; [| split]].
  - rewrite Hall, andb_true_iff, Nat.leb_le, forallb_Forall_true. reflexivity.
  - unfold memberIds. rewrite Hplayers. now apply map_insert_same with (p := p).
  - unfold seatsTaken. rewrite Hplayers. now apply map_insert_same with (p := p).
  - destruct allReady.
    + symmetry in Hall. apply andb_true_iff in Hall as [Hlen _]. apply Nat.leb_le in Hlen.
      split; [now rewrite Hroom' |].
      unfold Room.startGame.
      replace (Room.state room') with ROOM_STATES.READY by (now rewrite Hroom').
      cbn [ROOM_STATES.eqb negb].
      destruct (Nat.ltb_spec (length (Room.players room')) 2); [lia | reflexivity].
    + split; [now rewrite Hroom' |].
      unfold Room.startGame.
      replace (Room.state room') with ROOM_STATES.WAITING by (now rewrite Hroom').
      reflexivity.
Qed.

Lemma playerReady_decides_whether_game_starts_witness :
  (true = true <->
   2 <= length (Room.players Scenario.table4Ready)
   /\ Forall (fun p => Member.isReady p = true) (Room.players Scenario.table4Ready))
  /\ memberIds Scenario.table4Ready
     = memberIds (Scenario.execRoom (Room.playerReady 6 "u3" false) Scenario.table4Ready)
  /\ seatsTaken Scenario.table4Ready
     = seatsTaken (Scenario.execRoom (Room.playerReady 6 "u3" false) Scenario.table4Ready)
  /\ Room.state Scenario.table4Ready = ROOM_STATES.READY
  /\ Room.startGame Scenario.table4Ready
     = (Ok tt,
        Room.set_players (map (Member.set_isReady false) (Room.players Scenario.table4Ready))
          (Room.set_state ROOM_STATES.PLAYING Scenario.table4Ready)).
Proof.
  exact (playerReady_decides_whether_game_starts 6 "u3" true true
           (Scenario.execRoom (Room.playerReady 6 "u3" false) Scenario.table4Ready)
           Scenario.table4Ready eq_refl).
Defined.

Lemma startGame_Ok (room room' : Room.t) :
  Room.startGame room = (Ok tt, room') ->
  Room.state room = ROOM_STATES.READY
  /\ 2 <= length (Room.players room)
  /\ room' = Room.set_players (map (Member.set_isReady false) (Room.players room))
               (Room.set_state ROOM_STATES.PLAYING room).
Proof.
  unfold Room.startGame.
  destruct (Room.state room) eqn:Es; cbn [ROOM_STATES.eqb negb]; try discriminate.
  destruct (Nat.ltb_spec (length (Room.players room)) 2) as [Hlt | Hge]; [discriminate |].
  intros H. run_to H room'. repeat split. lia.
Qed.

(** With two members or more, none of them ready, the members are not
    all ready after one of them has changed. *)
Lemma one_ready_is_not_all (l : list Member.t) (i : nat) (q : Member.t) :
  2 <= length l ->
  Forall (fun p => Member.isReady p = false) l ->
  forallb Member.isReady (<[i := q]> l) = false.
Proof.
  intros Hlen Hall.
  destruct (forallb Member.isReady (<[i := q]> l)) eqn:E; [| reflexivity].
  rewrite forallb_Forall_true in E.
  pose (j := if i =? 0 then 1 else 0).
  assert (Hj : j < length l /\ j <> i).
  { unfold j. destruct (Nat.eqb_spec i 0); lia. }
  destruct Hj as [Hj Hne].
  destruct (lookup_lt_is_Some_2 l j Hj) as [p Hp].
  pose proof (Forall_lookup_1 _ _ _ _ Hall Hp) as Hfalse.
  assert (Hp' : <[i := q]> l !! j = Some p) by (rewrite list_lookup_insert_ne; auto).
  pose proof (Forall_lookup_1 _ _ _ _ E Hp') as Htrue. cbn in *. congruence.
Qed.

(** X20. Once [startGame] has returned, a [playerReady] call of any
    member, with either flag, answers false and puts the room from the
    playing state back into the waiting state, while [currentGame] stays
    as it is; the room can then be dissolved. *)
Theorem playerReady_during_game_leaves_playing_state
  (now : nat) (userId : string) (isReady : bool) (room playing : Room.t) :
  Room.startGame room = (Ok tt, playing) ->
  Room.hasPlayer playing userId = true ->
  Room.state playing = ROOM_STATES.PLAYING
  /\ Room.canDissolve playing = false
  /\ exists room',
       Room.playerReady now userId isReady playing = (Ok false, room')
       /\ Room.state room' = ROOM_STATES.WAITING
       /\ Room.currentGame room' = Room.currentGame room
       /\ Room.canDissolve room' = true.
Proof.
  intros Hstart Hold. apply startGame_Ok in Hstart as (Hs & Hlen & ->).
  split; [reflexivity |]. split; [reflexivity |].
  destruct (hasPlayer_findIndex _ _ Hold) as (i & Hi).
  unfold Room.playerReady. rewrite Hi.
  apply findIndex_Some in Hi as (p & Hp & Hf & Hu). rewrite Hf. cbv zeta.
  rewrite one_ready_is_not_all.
  - rewrite andb_false_r. eexists. repeat split.
  - cbn [Room.players Room.set_players]. now rewrite length_map.
  - cbn [Room.players Room.set_players]. apply Forall_forall. intros x Hx.
    apply list_elem_of_In, in_map_iff in Hx as (y & <- & _). reflexivity.
Qed.

Lemma playerReady_during_game_leaves_playing_state_witness :
  Room.state Scenario.table4Playing = ROOM_STATES.PLAYING
  /\ Room.canDissolve Scenario.table4Playing = false
  /\ exists room',
       Room.playerReady 9 "u1" true Scenario.table4Playing = (Ok false, room')
       /\ Room.state room' = ROOM_STATES.WAITING
       /\ Room.currentGame room' = Room.currentGame Scenario.table4Ready
       /\ Room.canDissolve room' = true.
Proof.
  apply (playerReady_during_game_leaves_playing_state 9 "u1" true Scenario.table4Ready
           Scenario.table4Playing); reflexivity.
Defined.

End Rooms.

(* ===================================================================== *)
(** ** Every tile once *)
(* ===================================================================== *)

Section Multiset.

Variable x : string.

Local Abbreviation cnt := (countId x).

Lemma countId_app (l1 l2 : list string) : cnt (l1 ++ l2) = cnt l1 + cnt l2.
Proof. unfold countId. now rewrite List.filter_app, length_app. Qed.

Lemma countId_rev (l : list string) : cnt (rev l) = cnt l.
Proof. unfold countId. now rewrite filter_rev, length_rev. Qed.

Lemma countId_cons (y : string) (l : list string) : cnt (y :: l) = cnt [y] + cnt l.
Proof. exact (countId_app [y] l). Qed.

Lemma countId_partition (f : string -> bool) (l fl rem : list string) :
  List.partition f l = (fl, rem) -> cnt l = cnt fl + cnt rem.
Proof.
  revert fl rem. induction l as [|a l IH]; intros fl rem H; cbn [List.partition] in H.
  - inversion H. reflexivity.
  - destruct (List.partition f l) as [l1 l2]. specialize (IH _ _ eq_refl).
    rewrite (countId_cons a l).
    destruct (f a); inversion H; subst;
      [rewrite (countId_cons a l1) | rewrite (countId_cons a l2)]; lia.
Qed.

Lemma countId_delete (l : list string) (i : nat) (y : string) :
  l !! i = Some y -> cnt (delete i l) + cnt [y] = cnt l.
Proof.
  revert i. induction l as [|a l IH]; intros i H; [discriminate |].
  destruct i as [|i].
  - change (delete 0 (a :: l)) with l. inversion H. subst.
    rewrite (countId_cons _ l). lia.
  - change (delete (S i) (a :: l)) with (a :: delete i l). specialize (IH i H).
    rewrite (countId_cons a l), (countId_cons a (delete i l)). lia.
Qed.

Lemma countId_concat {A : Type} (f : A -> list string) (l : list A) :
  cnt (concat (map f l)) = sum_list_with (fun a => cnt (f a)) l.
Proof.
  induction l as [|a l IH]; [reflexivity |].
  cbn [map concat]. rewrite countId_app, IH. reflexivity.
Qed.

Lemma playerCards_count (p : Player.t) :
  cnt (playerCards p)
  = cnt (Player.handCards p) + cnt (concat (map Exposed.cards (Player.exposedCards p)))
    + cnt (Player.discardedCards p) + cnt (Player.flowerCards p).
Proof. unfold playerCards. rewrite !countId_app. lia. Qed.

Lemma allCards_count (g : Game.t) :
  cnt (allCards g)
  = cnt (map Card.id (Game.deck g))
    + sum_list_with (fun p => cnt (playerCards p)) (Data.players (Game.data g)).
Proof. unfold allCards. now rewrite countId_app, countId_concat. Qed.

Lemma allCards_update (g : Game.t) (i : nat) (p q : Player.t) (cards : CardDeck.t) :
  Data.players (Game.data g) !! i = Some p ->
  cnt (allCards (Game.mk (Game.data (Game.set_player i q g)) cards))
  + cnt (playerCards p) + cnt (map Card.id (Game.deck g))
  = cnt (allCards g) + cnt (playerCards q) + cnt (map Card.id cards).
Proof.
  intros Hp. rewrite !allCards_count. cbn [Game.deck Game.data].
  rewrite set_player_players.
  pose proof (sum_insert (fun p => cnt (playerCards p)) _ i p q Hp). lia.
Qed.

Lemma drawCards_count (count : nat) (cards : CardDeck.t) (drawn : list Card.t)
  (rest : CardDeck.t) :
  CardDeck.drawCards count cards = (drawn, rest) ->
  cnt (map Card.id cards) = cnt (map Card.id rest) + cnt (map Card.id drawn).
Proof.
  intros H. apply drawCards_spec in H as [-> _].
  now rewrite map_app, map_rev, countId_app, countId_rev.
Qed.

Lemma initialize_count (rnd : nat -> nat) (users : list string) (mode : string)
  (gameData : Data.t) (g0 : Game.t) :
  Game.initialize rnd users mode (Game.new gameData) = (Ok tt, g0) ->
  cnt (map Card.id (Game.deck g0)) = cnt deckIds
  /\ Forall (fun p => cnt (playerCards p) = 0) (Data.players (Game.data g0)).
Proof.
  intros H. apply (f_equal snd) in H. unfold Game.initialize in H.
  cbv beta zeta in H. cbn [snd] in H. subst g0.
  cbn [Game.deck Game.data Data.players Data.set_deck Data.set_currentPlayer
       Data.set_state Data.set_mode Data.set_players Game.new].
  split.
  - unfold countId, deckIds. apply filter_length_Permutation.
    apply Permutation_map. apply shuffle_Permutation.
  - apply Forall_forall. intros p Hin.
    apply elem_of_lookup_imap_1 in Hin as (i & u & -> & _). reflexivity.
Qed.

Lemma playerCards_dealt (p : Player.t) (hand : list string) :
  cnt (playerCards p) = 0 -> cnt (playerCards (Player.set_handCards hand p)) = cnt hand.
Proof.
  rewrite !playerCards_count. destruct p.
  cbn [Player.handCards Player.exposedCards Player.discardedCards Player.flowerCards
       Player.set_handCards]. lia.
Qed.

Lemma deal_forEach_count (dealer index : nat) (ps ps' : list Player.t)
  (cards cards' : CardDeck.t) :
  Game.deal_forEach dealer index ps cards = (ps', cards') ->
  Forall (fun p => cnt (playerCards p) = 0) ps ->
  sum_list_with (fun p => cnt (playerCards p)) ps' + cnt (map Card.id cards')
  = cnt (map Card.id cards).
Proof.
  revert index ps' cards cards'.
  induction ps as [|p ps IH]; intros index ps' cards cards' H Hzero;
    cbn [Game.deal_forEach] in H.
  - inversion H. reflexivity.
  - destruct (CardDeck.drawCards _ cards) as [drawn cards1] eqn:Edraw.
    destruct (Game.deal_forEach dealer (S index) ps cards1) as [rest' cards2] eqn:Erest.
    inversion H. subst ps' cards'. clear H.
    inversion Hzero as [|? ? Hp Hps]. subst.
    apply IH in Erest; [| exact Hps].
    apply drawCards_count in Edraw.
    simpl. rewrite playerCards_dealt by exact Hp. lia.
Qed.

Lemma sweepSeat_count (i : nat) (g g' : Game.t) (r : result bool) :
  Game.sweepSeat i g = (r, g') -> cnt (allCards g') = cnt (allCards g).
Proof.
  unfold Game.sweepSeat.
  destruct (Data.players (Game.data g) !! _) as [player|] eqn:Ep.
  2: { intros H. now inversion H. }
  destruct (List.partition Game.isFlowerId (Player.handCards player))
    as [flowerCards remainingCards] eqn:Epart.
  destruct (0 <? length flowerCards).
  2: { intros H. now inversion H. }
  destruct (CardDeck.drawCards (length flowerCards) (Game.deck g)) as [newCards cards1] eqn:Edraw.
  intros H. run_to H g'.
  match goal with
  | |- cnt (allCards (Game.mk (Game.data (Game.set_player ?i ?q g)) cards1)) = _ =>
      pose proof (allCards_update g i player q cards1 Ep) as Hupd;
      assert (Hq : cnt (playerCards q) + cnt (map Card.id cards1)
                   = cnt (playerCards player) + cnt (map Card.id (Game.deck g)))
  end.
  { apply drawCards_count in Edraw. apply countId_partition in Epart.
    rewrite !playerCards_count. destruct player.
    cbn [Player.handCards Player.exposedCards Player.discardedCards Player.flowerCards
         Player.set_handCards Player.set_flowerCards] in *.
    rewrite !countId_app. lia. }
  lia.
Qed.

Lemma sweepSeats_count (seats : list nat) (acc : bool) (g g' : Game.t) (r : result bool) :
  Game.sweepSeats seats acc g = (r, g') -> cnt (allCards g') = cnt (allCards g).
Proof.
  revert acc g. induction seats as [|i seats IH]; intros acc g H; cbn [Game.sweepSeats] in H.
  - unfold ret in H. now inversion H.
  - unfold bind in H. destruct (Game.sweepSeat i g) as [[found| |] g1] eqn:Es.
    + apply IH in H. apply sweepSeat_count in Es. lia.
    + inversion H. subst. now apply sweepSeat_count in Es.
    + inversion H. subst. now apply sweepSeat_count in Es.
Qed.

Lemma handleFlowerCards_count (fuel : nat) (g g' : Game.t) (r : result unit) :
  Game.handleFlowerCards fuel g = (r, g') -> cnt (allCards g') = cnt (allCards g).
Proof.
  revert g. induction fuel as [|fuel IH]; intros g H.
  - cbn in H. now inversion H.
  - rewrite handleFlowerCards_S in H.
    destruct (Game.sweepSeats [0; 1; 2; 3] false g) as [[[|] | |] g1] eqn:Es;
      apply sweepSeats_count in Es.
    + apply IH in H. lia.
    + inversion H. now subst.
    + inversion H. now subst.
    + inversion H. now subst.
Qed.

Lemma dealCards_count (fuel : nat) (g g' : Game.t) :
  Game.dealCards fuel g = (Ok tt, g') ->
  Forall (fun p => cnt (playerCards p) = 0) (Data.players (Game.data g)) ->
  cnt (allCards g') = cnt (map Card.id (Game.deck g)).
Proof.
  unfold Game.dealCards. unfold bind at 1. unfold modify at 1.
  unfold bind at 1. unfold modify at 1.
  cbn [Game.data Game.deck Game.set_data].
  replace (Data.players (Data.set_state GAME_STATES.DEALING (Game.data g)))
    with (Data.players (Game.data g)) by reflexivity.
  replace (Data.dealer (Data.set_state GAME_STATES.DEALING (Game.data g)))
    with (Data.dealer (Game.data g)) by reflexivity.
  destruct (Game.deal_forEach _ 0 (Data.players (Game.data g)) (Game.deck g))
    as [ps cards] eqn:Edeal.
  unfold bind. intros H Hzero.
  match type of H with
  | context [Game.handleFlowerCards fuel ?g1] =>
      destruct (Game.handleFlowerCards fuel g1) as [[[]| |] g2] eqn:Eh; try discriminate
  end.
  unfold modify in H. run_to H g'.
  apply handleFlowerCards_count in Eh.
  apply deal_forEach_count in Edeal; [| exact Hzero].
  rewrite !allCards_count in Eh. rewrite allCards_count.
  cbn [Game.data Game.deck Game.set_data Data.players Data.set_state Data.set_players] in *.
  lia.
Qed.

Lemma nextPlayer_count (g g' : Game.t) :
  Game.nextPlayer g = (Ok tt, g') -> cnt (allCards g') = cnt (allCards g).
Proof.
  destruct (Game.deck g) as [|c0 cards0] eqn:Edeck.
  { rewrite nextPlayer_empty by exact Edeck. intros H. inversion H. reflexivity. }
  destruct (exists_last (l := Game.deck g)) as (rest & top & Hdeck); [congruence |].
  clear Edeck c0 cards0.
  unfold Game.nextPlayer. cbn zeta.
  destruct g as [d cards]. cbn [Game.deck] in Hdeck. subst cards.
  cbn [Game.deck Game.set_data Game.data].
  rewrite hasCards_snoc, drawCard_snoc.
  replace (Data.players (Data.set_currentPlayer ((Data.currentPlayer d + 1) mod 4) d))
    with (Data.players d) by reflexivity.
  set (next := (Data.currentPlayer d + 1) mod 4).
  set (d1 := Data.set_currentPlayer next d).
  destruct (Data.players d !! next) as [player|] eqn:Ep; [| discriminate].
  assert (Ep1 : Data.players (Game.data (Game.mk d1 rest)) !! next = Some player) by exact Ep.
  assert (Hbase : cnt (allCards (Game.mk d (rest ++ [top])))
                  = cnt (allCards (Game.mk d1 rest)) + cnt [Card.id top]).
  { rewrite !allCards_count. cbn [Game.deck Game.data].
    replace (Data.players d1) with (Data.players d) by reflexivity.
    rewrite map_app, countId_app. cbn [map]. lia. }
  rewrite Hbase.
  destruct (Card.isFlower top).
  - destruct (CardDeck.hasCards rest) eqn:Ehas.
    + unfold CardDeck.drawCard, JS.pop.
      destruct (last rest) as [supplement|] eqn:El; [| discriminate].
      apply last_Some in El as [rest2 ->]. rewrite removelast_last.
      intros H. run_to H g'.
      match goal with
      | |- cnt (allCards (Game.mk (Game.data (Game.set_player next ?q _)) rest2)) = _ =>
          pose proof (allCards_update (Game.mk d1 (rest2 ++ [supplement])) next player q
                        rest2 Ep1) as Hupd;
          assert (Hq : cnt (playerCards q)
                       = cnt (playerCards player) + cnt [Card.id top]
                         + cnt [Card.id supplement])
      end.
      { rewrite !playerCards_count. destruct player.
        cbn [Player.handCards Player.exposedCards Player.discardedCards Player.flowerCards
             Player.set_handCards Player.set_flowerCards JS.pop snd].
        rewrite removelast_last, !countId_app. lia. }
      cbn [Game.deck] in Hupd. rewrite map_app, countId_app in Hupd. cbn [map] in Hupd. lia.
    + intros H. run_to H g'.
      match goal with
      | |- cnt (allCards (Game.set_player next ?q _)) = _ =>
          pose proof (allCards_update (Game.mk d1 rest) next player q rest Ep1) as Hupd;
          assert (Hq : cnt (playerCards q) = cnt (playerCards player) + cnt [Card.id top])
      end.
      { rewrite !playerCards_count. destruct player.
        cbn [Player.handCards Player.exposedCards Player.discardedCards Player.flowerCards
             Player.set_handCards Player.set_flowerCards JS.pop snd].
        rewrite removelast_last, !countId_app. lia. }
      cbn [Game.deck] in Hupd.
      replace (Game.mk (Game.data (Game.set_player next _ (Game.mk d1 rest))) rest)
        with (Game.set_player next
                (Player.set_handCards
                   (snd (JS.pop (Player.handCards
                      (Player.set_handCards (Player.handCards player ++ [Card.id top]) player))))
                   (Player.set_flowerCards
                      (Player.flowerCards
                         (Player.set_handCards (Player.handCards player ++ [Card.id top]) player)
                       ++ [Card.id top])
                      (Player.set_handCards (Player.handCards player ++ [Card.id top]) player)))
                (Game.mk d1 rest)) in Hupd by reflexivity.
      lia.
  - intros H. run_to H g'.
    match goal with
    | |- cnt (allCards (Game.set_player next ?q _)) = _ =>
        pose proof (allCards_update (Game.mk d1 rest) next player q rest Ep1) as Hupd;
        assert (Hq : cnt (playerCards q) = cnt (playerCards player) + cnt [Card.id top])
    end.
    { rewrite !playerCards_count. destruct player.
      cbn [Player.handCards Player.exposedCards Player.discardedCards Player.flowerCards
           Player.set_handCards Player.set_flowerCards].
      rewrite !countId_app. lia. }
    cbn [Game.deck] in Hupd.
    replace (Game.mk (Game.data (Game.set_player next _ (Game.mk d1 rest))) rest)
      with (Game.set_player next
              (Player.set_handCards (Player.handCards player ++ [Card.id top]) player)
              (Game.mk d1 rest)) in Hupd by reflexivity.
    lia.
Qed.

Lemma playerCards_marked (g : Game.t) (cardId : string) (i : nat) (p : Player.t) :
  playerCards (marked g cardId i p) = playerCards p.
Proof.
  unfold playerCards.
  now rewrite marked_handCards, marked_exposedCards, marked_discardedCards,
    marked_flowerCards.
Qed.

Lemma discarded_count (now pos : nat) (cardId : string) (g : Game.t)
  (player : Player.t) (cardIndex : nat) :
  Data.players (Game.data g) !! pos = Some player ->
  JS.indexOf (Player.handCards player) cardId = Some cardIndex ->
  cnt (allCards (discarded now pos cardId g player cardIndex)) = cnt (allCards g).
Proof.
  intros Hp Hidx. rewrite !allCards_count. unfold discarded.
  cbn [Game.deck Game.data Game.set_data Game.set_player Data.players Data.set_players
       Data.set_discard].
  f_equal.
  rewrite sum_imap_same by (intros; now rewrite playerCards_marked).
  pose proof (sum_insert (fun p => cnt (playerCards p)) _ pos player
                (Player.set_discardedCards (Player.discardedCards player ++ [cardId])
                   (Player.set_handCards (delete cardIndex (Player.handCards player)) player))
                Hp) as Hsum.
  assert (Hq : cnt (playerCards
                 (Player.set_discardedCards (Player.discardedCards player ++ [cardId])
                    (Player.set_handCards (delete cardIndex (Player.handCards player)) player)))
               = cnt (playerCards player)).
  { apply indexOf_Some in Hidx. apply countId_delete in Hidx.
    rewrite !playerCards_count. destruct player.
    cbn [Player.handCards Player.exposedCards Player.discardedCards Player.flowerCards
         Player.set_handCards Player.set_discardedCards] in *.
    rewrite countId_app. lia. }
  lia.
Qed.

Lemma playerDiscard_count (now pos : nat) (cardId : string) (g g' : Game.t) :
  Game.playerDiscard now pos cardId g = (Ok tt, g') -> cnt (allCards g') = cnt (allCards g).
Proof.
  intros Hrun.
  apply playerDiscard_inv in Hrun as [[e [He _]] | Hrun]; [discriminate |].
  destruct Hrun as (player & cardIndex & _ & _ & Hp & Hidx & Hnext).
  apply nextPlayer_count in Hnext. rewrite Hnext. now apply discarded_count.
Qed.

Lemma reachable_count (g : Game.t) : reachable g -> cnt (allCards g) = cnt deckIds.
Proof.
  induction 1 as [gameData rnd users mode fuel g0 g Hinit Hdeal | now pos cardId g g' _ IH Hrun].
  - apply initialize_count in Hinit as [Hlen Hzero].
    rewrite (dealCards_count _ _ _ Hdeal Hzero). exact Hlen.
  - rewrite (playerDiscard_count _ _ _ _ _ Hrun). exact IH.
Qed.

End Multiset.

Section EveryTile.

Lemma countId_count_occ (cardId : string) (l : list string) :
  countId cardId l = count_occ string_dec l cardId.
Proof.
  unfold countId. induction l as [|a l IH]; [reflexivity |].
  cbn [List.filter count_occ].
  destruct (String.eqb_spec a cardId) as [Heq | Hne], (string_dec a cardId) as [Heq' | Hne'];
    try contradiction; cbn [length]; now rewrite IH.
Qed.

Lemma reachable_Permutation (g : Game.t) : reachable g -> Permutation (allCards g) deckIds.
Proof.
  intros Hreach. apply (Permutation_count_occ string_dec). intros cardId.
  rewrite <- !countId_count_occ. now apply reachable_count.
Qed.

(** X23. In every game reached from a new [Game] by [initialize],
    [dealCards] and accepted discards, the card ids in the wall, the
    hands, the exposed groups, the discard piles and the flower areas are,
    taken together, a rearrangement of the 144 ids of a new deck: no tile
    is lost, none is there twice, and none comes from elsewhere. *)
Theorem reachable_game_holds_the_deck (g : Game.t) :
  reachable g ->
  Permutation (allCards g) deckIds
  /\ forall cardId, countId cardId (allCards g) = countId cardId deckIds.
Proof.
  intros Hreach. split; [now apply reachable_Permutation |].
  intros cardId. now apply reachable_count.
Qed.

Lemma reachable_game_holds_the_deck_witness :
  Permutation (allCards Scenario.afterDiscard) deckIds
  /\ forall cardId, countId cardId (allCards Scenario.afterDiscard) = countId cardId deckIds.
Proof.
  exact (reachable_game_holds_the_deck Scenario.afterDiscard afterDiscard_reachable).
Defined.

End EveryTile.

(* ===================================================================== *)
(** ** The deck field of the document *)
(* ===================================================================== *)

Section Document.

(** What no step of a round touches: the state, the [deck] field of the
    document and the number of seats. *)
Lemma sweepSeat_doc (i : nat) (g g' : Game.t) (r : result bool) :
  Game.sweepSeat i g = (r, g') -> Data.deck (Game.data g') = Data.deck (Game.data g).
Proof.
  unfold Game.sweepSeat.
  destruct (Data.players (Game.data g) !! _) as [player|].
  2: { intros H. now run_to H g'. }
  destruct (List.partition _ _) as [flowerCards remainingCards].
  destruct (0 <? length flowerCards).
  - destruct (CardDeck.drawCards _ _) as [newCards cards1].
    intros H. now run_to H g'.
  - intros H. now run_to H g'.
Qed.

Lemma sweepSeats_doc (seats : list nat) (acc : bool) (g g' : Game.t) (r : result bool) :
  Game.sweepSeats seats acc g = (r, g') -> Data.deck (Game.data g') = Data.deck (Game.data g).
Proof.
  revert acc g. induction seats as [|i seats IH]; intros acc g H; cbn [Game.sweepSeats] in H.
  - unfold ret in H. now run_to H g'.
  - unfold bind in H. destruct (Game.sweepSeat i g) as [[found| |] g1] eqn:Es;
      apply sweepSeat_doc in Es.
    + apply IH in H. now rewrite H.
    + now run_to H g'.
    + now run_to H g'.
Qed.

Lemma handleFlowerCards_doc (fuel : nat) (g g' : Game.t) (r : result unit) :
  Game.handleFlowerCards fuel g = (r, g') ->
  Data.deck (Game.data g') = Data.deck (Game.data g).
Proof.
  revert g. induction fuel as [|fuel IH]; intros g H.
  - cbn in H. now run_to H g'.
  - rewrite handleFlowerCards_S in H.
    destruct (Game.sweepSeats [0; 1; 2; 3] false g) as [[[|] | |] g1] eqn:Es;
      apply sweepSeats_doc in Es.
    + apply IH in H. now rewrite H.
    + now run_to H g'.
    + now run_to H g'.
    + now run_to H g'.
Qed.

Lemma dealCards_doc (fuel : nat) (g g' : Game.t) :
  Game.dealCards fuel g = (Ok tt, g') ->
  Data.deck (Game.data g') = Data.deck (Game.data g)
  /\ Data.state (Game.data g') = GAME_STATES.PLAYING.
Proof.
  unfold Game.dealCards. unfold bind at 1. unfold modify at 1.
  unfold bind at 1. unfold modify at 1.
  cbn [Game.data Game.deck Game.set_data].
  destruct (Game.deal_forEach _ 0 _ (Game.deck g)) as [ps cards].
  unfold bind. intros H.
  match type of H with
  | context [Game.handleFlowerCards fuel ?g1] =>
      destruct (Game.handleFlowerCards fuel g1) as [[[]| |] g2] eqn:Eh; try discriminate;
      apply handleFlowerCards_doc in Eh
  end.
  unfold modify in H. run_to H g'. split; [| reflexivity].
  cbn [Game.data Game.set_data] in *.
  replace (Data.deck (Data.set_state GAME_STATES.PLAYING (Game.data g2)))
    with (Data.deck (Game.data g2)) by reflexivity.
  now rewrite Eh.
Qed.

Lemma nextPlayer_doc (g g' : Game.t) (r : result unit) :
  Game.nextPlayer g = (r, g') ->
  Data.deck (Game.data g') = Data.deck (Game.data g)
  /\ Data.state (Game.data g') = Data.state (Game.data g)
  /\ length (Data.players (Game.data g')) = length (Data.players (Game.data g)).
Proof.
  unfold Game.nextPlayer. cbv zeta.
  cbn [Game.deck Game.data Game.set_data].
  replace (Data.players (Data.set_currentPlayer
                           ((Data.currentPlayer (Game.data g) + 1) mod 4) (Game.data g)))
    with (Data.players (Game.data g)) by reflexivity.
  destruct (CardDeck.hasCards (Game.deck g)).
  2: { intros H. now run_to H g'. }
  destruct (CardDeck.drawCard (Game.deck g)) as [[newCard|] cards1].
  2: { intros H. now run_to H g'. }
  destruct (Data.players (Game.data g) !! _) as [player|].
  2: { intros H. now run_to H g'. }
  destruct (Card.isFlower newCard).
  - destruct (CardDeck.hasCards cards1).
    + destruct (CardDeck.drawCard cards1) as [[supplementCard|] cards2];
        intros H; run_to H g'; cbn [Game.data]; rewrite set_player_players, length_insert;
        repeat split.
    + intros H. run_to H g'. rewrite set_player_players, length_insert. repeat split.
  - intros H. run_to H g'. rewrite set_player_players, length_insert. repeat split.
Qed.

Lemma playerDiscard_doc (now pos : nat) (cardId : string) (g g' : Game.t) :
  Game.playerDiscard now pos cardId g = (Ok tt, g') ->
  Data.deck (Game.data g') = Data.deck (Game.data g)
  /\ Data.state (Game.data g') = GAME_STATES.PLAYING
  /\ length (Data.players (Game.data g')) = length (Data.players (Game.data g)).
Proof.
  intros Hrun.
  apply playerDiscard_inv in Hrun as [[e [He _]] | Hrun]; [discriminate |].
  destruct Hrun as (player & cardIndex & Hstate & _ & Hp & Hidx & Hnext).
  apply nextPlayer_doc in Hnext as (Hdeck & Hst & Hlen).
  rewrite Hdeck, Hst, Hlen. unfold discarded.
  cbn [Game.deck Game.data Game.set_data Game.set_player Data.players Data.set_players
       Data.set_discard].
  rewrite length_imap, length_insert. repeat split. exact Hstate.
Qed.

Lemma reachable_doc (g : Game.t) :
  reachable g ->
  Data.state (Game.data g) = GAME_STATES.PLAYING
  /\ 4 <= length (Data.players (Game.data g))
  /\ Permutation (Data.deck (Game.data g)) deckIds.
Proof.
  induction 1 as [gameData rnd users mode fuel g0 g Hinit Hdeal
                 | now pos cardId g g' _ (IHs & IHl & IHd) Hrun].
  - destruct (dealCards_swept _ _ _ 3 Hdeal) as (p & Hp & _); [lia |].
    apply lookup_lt_Some in Hp.
    apply dealCards_doc in Hdeal as [Hdeck Hstate].
    split; [exact Hstate |]. split; [lia |]. rewrite Hdeck.
    apply (f_equal snd) in Hinit. unfold Game.initialize in Hinit.
    cbv beta zeta in Hinit. cbn [snd] in Hinit. subst g0.
    cbn [Game.deck Game.data Data.deck Data.set_deck Game.new].
    apply Permutation_map. apply shuffle_Permutation.
  - apply playerDiscard_doc in Hrun as (Hdeck & Hstate & Hlen).
    rewrite Hdeck, Hlen. repeat split; assumption.
Qed.

(** X24. In every game reached from a new [Game] by [initialize],
    [dealCards] and accepted discards, the game is in the playing state
    with at least four seats, and the [deck] field of the document still
    lists the whole shuffled deck: it is a rearrangement of the 144 ids,
    that is of the ids of the wall and of all the seats together, however
    many cards have left the wall. *)
Theorem reachable_document_lists_whole_deck (g : Game.t) :
  reachable g ->
  Data.state (Game.data g) = GAME_STATES.PLAYING
  /\ 4 <= length (Data.players (Game.data g))
  /\ Permutation (Data.deck (Game.data g)) deckIds
  /\ Permutation (Data.deck (Game.data g)) (allCards g).
Proof.
  intros Hreach. destruct (reachable_doc g Hreach) as (Hs & Hl & Hd).
  repeat split; try assumption.
  rewrite Hd. symmetry. now apply reachable_Permutation.
Qed.

Lemma reachable_document_lists_whole_deck_witness :
  Data.state (Game.data Scenario.afterDiscard) = GAME_STATES.PLAYING
  /\ 4 <= length (Data.players (Game.data Scenario.afterDiscard))
  /\ Permutation (Data.deck (Game.data Scenario.afterDiscard)) deckIds
  /\ Permutation (Data.deck (Game.data Scenario.afterDiscard)) (allCards Scenario.afterDiscard).
Proof.
  exact (reachable_document_lists_whole_deck Scenario.afterDiscard afterDiscard_reachable).
Defined.

End Document.
